(** * LinkForty Expo SDK: attribution and delivery pipeline

    A shallow embedding of the SDK's TypeScript sources and the properties
    of its transport, offline queue, event dispatcher, attribution
    coordinator, deep-link dispatcher and facade.

    Conventions of the embedding:
    - an [async] method is a state-passing function: the [await]s of one
      call run in sequence, and no two calls interleave;
    - a method that can throw returns an [Outcome];
    - an object with mutable fields is a record, passed in and handed
      back; every such object here has one owner;
    - collaborators outside the repository ([fetch], the timer,
      [AsyncStorage], the clock, the callbacks of the application) are
      explicit parts of the state. [AsyncStorage] always resolves, as its
      in-memory double of the test suite does;
    - strings are sequences of code units below 256; calls of [logger]
      are left out. *)

From Stdlib Require Import ZArith List Bool Lia Ascii String.
From Stdlib Require Import DecimalString DecimalNat.
From Stdlib Require Import Floats.
From stdpp Require Import base gmap strings list.

#[local] Set Warnings "-register-all".
Local Open Scope Z_scope.

(* ===================================================================== *)
(** * Errors ([errors/linkforty-error.ts]) *)
(* ===================================================================== *)

Inductive LinkFortyErrorCode :=
| NOT_INITIALIZED
| ALREADY_INITIALIZED
| INVALID_CONFIGURATION
| NETWORK_ERROR
| INVALID_RESPONSE
| DECODING_ERROR
| INVALID_EVENT_DATA
| INVALID_DEEP_LINK_URL
| MISSING_API_KEY.

(** A thrown value. [JsError] is an [Error] that is not a [LinkFortyError]
    (what [fetch] or [json()] reject with); [LinkFortyError] carries the
    code, the message and the optional cause of the class. *)
Inductive Error :=
| JsError (message : string)
| LinkFortyError (code : LinkFortyErrorCode) (message : string)
                 (cause : option Error).

Definition message (e : Error) : string :=
  match e with
  | JsError m => m
  | LinkFortyError _ m _ => m
  end.

Definition code (e : Error) : option LinkFortyErrorCode :=
  match e with
  | JsError _ => None
  | LinkFortyError c _ _ => Some c
  end.

Definition cause (e : Error) : option Error :=
  match e with
  | JsError _ => None
  | LinkFortyError _ _ c => c
  end.

(** [`${n}`] for a status code: its decimal digits. *)
Definition show_nat (n : nat) : string :=
  NilEmpty.string_of_uint (Nat.to_uint n).

Definition notInitialized : Error :=
  LinkFortyError NOT_INITIALIZED
    "LinkForty SDK is not initialized. Call initialize() first." None.

Definition alreadyInitialized : Error :=
  LinkFortyError ALREADY_INITIALIZED
    "LinkForty SDK has already been initialized." None.

Definition invalidConfiguration (detail : string) : Error :=
  LinkFortyError INVALID_CONFIGURATION
    ("Invalid configuration: " +:+ detail) None.

Definition networkError (cause : Error) : Error :=
  LinkFortyError NETWORK_ERROR
    ("Network error: " +:+ message cause) (Some cause).

(** [message ? `: ${message}` : ''] : an absent or empty message adds
    nothing. *)
Definition response_detail (msg : option string) : string :=
  match msg with
  | None => ""
  | Some "" => ""
  | Some m => ": " +:+ m
  end.

Definition invalidResponse (statusCode : nat) (msg : option string) : Error :=
  LinkFortyError INVALID_RESPONSE
    ("Invalid server response (status: " +:+ show_nat statusCode +:+ ")"
       +:+ response_detail msg)
    None.

Definition decodingError (cause : Error) : Error :=
  LinkFortyError DECODING_ERROR
    ("Failed to decode response: " +:+ message cause) (Some cause).

Definition invalidEventData (detail : string) : Error :=
  LinkFortyError INVALID_EVENT_DATA ("Invalid event data: " +:+ detail) None.

Definition invalidDeepLinkUrl (detail : string) : Error :=
  LinkFortyError INVALID_DEEP_LINK_URL
    ("Invalid deep link URL: " +:+ detail) None.

Definition missingApiKey : Error :=
  LinkFortyError MISSING_API_KEY
    "API key is required for this operation. Provide an apiKey in the config."
    None.

(** The [TypeError] of reading a member of [null]: an [Error] that is not
    a [LinkFortyError]. *)
Definition cannotReadNull (member : string) : Error :=
  JsError ("Cannot read properties of null (reading '" +:+ member +:+ "')").

(** ** The status read back from an error message

    [request] recovers the HTTP status from the message text with
    [e.message.match(/status: (\d+)/)] and [parseInt(m[1], 10)]. *)

Definition is_digit (c : ascii) : bool :=
  let n := nat_of_ascii c in (48 <=? n)%nat && (n <=? 57)%nat.

(** The longest run of digits at the head of [s] (the greedy [\d+]). *)
Fixpoint take_digits (s : string) : string :=
  match s with
  | EmptyString => EmptyString
  | String c s' => if is_digit c then String c (take_digits s') else EmptyString
  end.

(** The first capture of [/status: (\d+)/] in [s], scanning from the left. *)
Fixpoint match_status (s : string) : option string :=
  match s with
  | EmptyString => None
  | String _ s' =>
      if String.prefix "status: " s then
        match take_digits (String.substring 8 (String.length s - 8) s) with
        | EmptyString => match_status s'
        | ds => Some ds
        end
      else match_status s'
  end.

(** [parseInt(ds, 10)] on a run of decimal digits. *)
Definition parseInt10 (ds : string) : option nat :=
  option_map Nat.of_uint (NilEmpty.uint_of_string ds).

Definition status_of_message (m : string) : option nat :=
  match match_status m with
  | Some ds => parseInt10 ds
  | None => None
  end.

(* ===================================================================== *)
(** * Calls as state-passing functions *)
(* ===================================================================== *)

(** What a call does when it settles: it returns, it throws, or (for the
    one unbounded loop of the sources, modelled with fuel) the fuel ran
    out. *)
Inductive Outcome (A : Type) :=
| Returns (a : A)
| Throws (e : Error)
| OutOfFuel.
Arguments Returns {A} a.
Arguments Throws {A} e.
Arguments OutOfFuel {A}.

Definition M (S A : Type) : Type := S -> Outcome A * S.

Definition ret {S A} (a : A) : M S A := fun s => (Returns a, s).

Definition throw {S A} (e : Error) : M S A := fun s => (Throws e, s).

Definition bind {S A B} (m : M S A) (k : A -> M S B) : M S B :=
  fun s =>
    match m s with
    | (Returns a, s') => k a s'
    | (Throws e, s') => (Throws e, s')
    | (OutOfFuel, s') => (OutOfFuel, s')
    end.

Notation "x <- m ;; k" := (bind m (fun x => k))
  (at level 100, m at next level, right associativity).
Notation "m ;;; k" := (bind m (fun _ => k))
  (at level 100, right associativity).

(** [try { m } catch (e) { ... }]: the thrown value is handed to the
    continuation as [inl e]. *)
Definition try {S A} (m : M S A) : M S (Error + A) :=
  fun s =>
    match m s with
    | (Returns a, s') => (Returns (inr a), s')
    | (Throws e, s') => (Returns (inl e), s')
    | (OutOfFuel, s') => (OutOfFuel, s')
    end.

Definition gets {S A} (f : S -> A) : M S A := fun s => (Returns (f s), s).

Definition modify {S} (f : S -> S) : M S unit := fun s => (Returns tt, f s).

(** Run a computation on a part of the state. *)
Definition zoom {S1 S2 A} (get : S2 -> S1) (set : S1 -> S2 -> S2)
    (m : M S1 A) : M S2 A :=
  fun s => let (r, s1) := m (get s) in (r, set s1 s).

(** [a || b] on optional strings: [a] when it is a non-empty string. *)
Definition js_or (a b : option string) : option string :=
  match a with
  | Some (String _ _) => a
  | _ => b
  end.

(** [if (s)] on an optional string. *)
Definition truthy (s : option string) : bool :=
  match s with
  | Some (String _ _) => true
  | _ => false
  end.

(* ===================================================================== *)
(** * Data model ([models/]) *)
(* ===================================================================== *)

(** A value of type [unknown] in an event's properties. Numbers are
    IEEE doubles, as in JavaScript. *)
Inductive JsValue :=
| JsString (s : string)
| JsNumber (x : float)
| JsBoolean (b : bool)
| JsNull.

(** Modelled from the spec: [models/utm-parameters.ts] is not among the
    sources. The five optional members are the keys the spec lists for
    utmParameters (source, medium, campaign, term, content), which are
    also the members [parseDeepLinkUrl] assigns. *)
Record UTMParameters := {
  source : option string;
  medium : option string;
  campaign : option string;
  term : option string;
  content : option string;
}.

(** [DeepLinkData]. [deepLinkParameters] is the legacy member a server
    response may carry next to (or instead of) [customParameters]. *)
Record DeepLinkData := {
  shortCode : string;
  iosUrl : option string;
  androidUrl : option string;
  webUrl : option string;
  utmParameters : option UTMParameters;
  customParameters : option (gmap string string);
  deepLinkPath : option string;
  appScheme : option string;
  clickedAt : option string;
  linkId : option string;
  deepLinkParameters : option (gmap string string);
}.

Record InstallAttributionResponse := {
  installId : string;
  attributed : bool;
  confidenceScore : Z;
  matchedFactors : list string;
  deepLinkData : option DeepLinkData;
}.

Record EventRequest := {
  ev_installId : string;
  eventName : string;
  eventData : gmap string JsValue;
  timestamp : string;
}.

Record DeviceFingerprint := {
  userAgent : string;
  timezone : string;
  language : string;
  screenWidth : Z;
  screenHeight : Z;
  platform : string;
  platformVersion : string;
  appVersion : string;
  deviceId : option string;
  attributionWindowHours : Z;
}.

Record CreateLinkOptions := {
  templateId : option string;
  templateSlug : option string;
  opt_deepLinkParameters : option (gmap string string);
  title : option string;
  description : option string;
  customCode : option string;
  opt_utmParameters : option UTMParameters;
}.

(** [models/create-link-result.ts] is not among the sources: the three
    members are those of the objects [createLink] returns. *)
Record CreateLinkResult := {
  res_url : string;
  res_shortCode : option string;
  res_linkId : option string;
}.

Record LinkFortyConfig := {
  cfg_baseUrl : string;
  cfg_apiKey : option string;
  debug : option bool;
  cfg_attributionWindowHours : option Z;
}.

(** The text [JSON.stringify(v)] of a request body, represented by the
    value [v] it was made from. *)
Inductive Payload :=
| JsonOfEvent (e : EventRequest)
| JsonOfFingerprint (fp : DeviceFingerprint)
| JsonOfLinkBody (o : CreateLinkOptions).

(** [RequestInit], as far as the SDK uses it. [headers] is a JS object
    used as a map. *)
Record RequestInit := {
  method : option string;
  body : option Payload;
  headers : gmap string string;
}.

Definition no_options : RequestInit :=
  {| method := None; body := None; headers := ∅ |}.

(** [NetworkManagerProtocol]: anything with a [request] method. [N] is the
    state the implementation works on, [J] the documents it resolves
    with (the caller's [request<T>] is an unchecked cast of them). The
    promise it returns settles: it resolves ([inr]) or rejects ([inl]). *)
Record NetworkManagerProtocol (N J : Type) := {
  request : string -> RequestInit -> N -> (Error + J) * N;
}.
Arguments request {N J} _ _ _.

(* ===================================================================== *)
(** * Transport ([network/network-manager.ts]) *)
(* ===================================================================== *)

Module NetworkManager.
Section Transport.
(** [J]: the documents [response.json()] resolves with; [member k j] is
    the string-valued member [j.k] ([None] when it is missing, or when
    [j] has no members at all). *)
Context {J : Type}.
Variable member : string -> J -> option string.

Inductive JsonResult :=
| JsonResolves (j : J)
| JsonRejects (e : Error).

Record Response := {
  status : nat;
  json : JsonResult;
}.

(** [response.ok]: the status is in the range 200-299 (Fetch standard). *)
Definition ok (r : Response) : bool :=
  ((200 <=? status r) && (status r <=? 299))%nat.

Inductive FetchOutcome :=
| FetchRejects (e : Error)
| FetchResolves (r : Response).

Inductive NetEvent :=
| Fetched (url : string) (init : RequestInit)
| Slept (ms : Z).

(** The network and the timer: what the next calls of [fetch] will do
    ([upcoming], then [fallback] for every later call), and what has
    happened so far, oldest first. *)
Record Net := {
  upcoming : list FetchOutcome;
  fallback : FetchOutcome;
  trace : list NetEvent;
}.

Definition fetch (url : string) (init : RequestInit) : M Net Response :=
  fun n =>
    let (o, rest) :=
      match upcoming n with
      | [] => (fallback n, [])
      | o :: rest => (o, rest)
      end in
    let n' := {| upcoming := rest; fallback := fallback n;
                 trace := trace n ++ [Fetched url init] |} in
    match o with
    | FetchRejects e => (Throws e, n')
    | FetchResolves r => (Returns r, n')
    end.

(** [new Promise(resolve => setTimeout(resolve, ms))] *)
Definition delay (ms : Z) : M Net unit :=
  modify (fun n => {| upcoming := upcoming n; fallback := fallback n;
                      trace := trace n ++ [Slept ms] |}).

Record t := {
  baseUrl : string;
  apiKey : option string;
}.

Definition maxRetries : nat := 3.

(** [s.replace(/\/+$/, '')] *)
Fixpoint strip_trailing_slashes (s : string) : string :=
  match s with
  | EmptyString => EmptyString
  | String c s' =>
      match strip_trailing_slashes s' with
      | EmptyString => if Ascii.eqb c "/" then EmptyString else String c EmptyString
      | t => String c t
      end
  end.

(** [new NetworkManager(baseUrl, apiKey)] *)
Definition new (url : string) (key : option string) : t :=
  {| baseUrl := strip_trailing_slashes url; apiKey := key |}.

Definition performRequest (nm : t) (endpoint : string)
    (options : RequestInit) : M Net J :=
  let url := baseUrl nm +:+ endpoint in
  let headers0 : gmap string string :=
    headers options ∪ {[ "Content-Type" := "application/json" ]} in
  let headers1 : gmap string string :=
    match apiKey nm with
    | Some (String _ _ as k) => <[ "Authorization" := "Bearer " +:+ k ]> headers0
    | _ => headers0
    end in
  r <- try (fetch url {| method := method options; body := body options;
                         headers := headers1 |}) ;;
  match r with
  | inl e => throw (networkError e)
  | inr response =>
      if negb (ok response) then
        let msg :=
          match json response with
          | JsonResolves b => js_or (member "message" b) (member "error" b)
          | JsonRejects _ => None
          end in
        throw (invalidResponse (status response) msg)
      else
        match json response with
        | JsonResolves j => ret j
        | JsonRejects e => throw (decodingError e)
        end
  end.

(** The two early exits of the [catch] block of [request]. *)
Definition is_client_error (e : Error) : bool :=
  match e with
  | LinkFortyError INVALID_RESPONSE m _ =>
      match status_of_message m with
      | Some st => ((400 <=? st) && (st <? 500))%nat
      | None => false
      end
  | _ => false
  end.

Definition is_not_retryable (e : Error) : bool :=
  match e with
  | LinkFortyError INVALID_CONFIGURATION _ _ => true
  | LinkFortyError DECODING_ERROR _ _ => true
  | _ => false
  end.

(** The [for (attempt = 1; attempt <= maxRetries; attempt++)] loop;
    [remaining] counts the iterations left, [maxRetries - attempt + 1]. *)
Fixpoint request_loop (nm : t) (endpoint : string)
    (options : RequestInit) (remaining : nat) (attempt : nat)
    (lastError : option Error) : M Net J :=
  match remaining with
  | O =>
      match lastError with
      | Some (LinkFortyError _ _ _ as e) => throw e
      | Some e => throw (networkError e)
      | None =>
          throw (networkError
                   (JsError ("Request failed after " +:+ show_nat maxRetries
                             +:+ " attempts")))
      end
  | S remaining' =>
      r <- try (performRequest nm endpoint options) ;;
      match r with
      | inr v => ret v
      | inl e =>
          if is_client_error e then throw e
          else if is_not_retryable e then throw e
          else
            (if (attempt <? maxRetries)%nat
             then delay (2 ^ (Z.of_nat attempt - 1) * 1000)
             else ret tt) ;;;
            request_loop nm endpoint options remaining' (S attempt) (Some e)
      end
  end.

Definition request (nm : t) (endpoint : string)
    (options : RequestInit) : M Net J :=
  request_loop nm endpoint options maxRetries 1%nat None.

(** The class as an implementation of the protocol. [request] has no
    unbounded loop, so the last case does not arise
    ([request_settles] below). *)
Definition protocol (nm : t) : NetworkManagerProtocol Net J :=
  Build_NetworkManagerProtocol Net J
    (fun endpoint options n =>
       match request nm endpoint options n with
       | (Returns j, n') => (inr j, n')
       | (Throws e, n') => (inl e, n')
       | (OutOfFuel, n') => (inl (JsError "unsettled"), n')
       end).

End Transport.
Arguments Net : clear implicits.
Arguments FetchOutcome : clear implicits.
Arguments Response : clear implicits.
Arguments JsonResult : clear implicits.
End NetworkManager.

(* ===================================================================== *)
(** * Persistent storage ([AsyncStorage], [storage/storage-manager.ts]) *)
(* ===================================================================== *)

(** Modelled from the spec: [storage/storage-keys.ts] is not among the
    sources. [STORAGE_KEYS] has the four members the sources use, one for
    each persisted key of the spec (install id, install data,
    first-launch flag, event queue); the key strings are taken to be
    pairwise distinct (the tests show ['@linkforty:install_data'] and
    ['@linkforty:event_queue']). *)
Inductive StorageKey := INSTALL_ID | INSTALL_DATA | FIRST_LAUNCH | EVENT_QUEUE.

(** The text stored under a key that holds JSON, represented by what
    [JSON.parse] makes of it: a value, or a [SyntaxError]. The empty
    string is kept apart because the readers test [if (json)] before
    parsing. *)
Inductive Stored (A : Type) :=
| Encodes (a : A)
| EmptyText
| Unparsable.
Arguments Encodes {A} a.
Arguments EmptyText {A}.
Arguments Unparsable {A}.

(** The store behind [AsyncStorage], one entry per key of [STORAGE_KEYS];
    [None] is an absent key ([getItem] resolves with [null]). Calls on it
    always resolve, as with the in-memory double of the test suite. *)
Record AsyncStorage := {
  install_id : option string;
  install_data : option (Stored DeepLinkData);
  first_launch : option string;
  event_queue : option (Stored (list EventRequest));
}.

Definition empty_storage : AsyncStorage :=
  {| install_id := None; install_data := None; first_launch := None;
     event_queue := None |}.

Definition removeItem (k : StorageKey) (d : AsyncStorage) : AsyncStorage :=
  match k with
  | INSTALL_ID =>
      {| install_id := None; install_data := install_data d;
         first_launch := first_launch d; event_queue := event_queue d |}
  | INSTALL_DATA =>
      {| install_id := install_id d; install_data := None;
         first_launch := first_launch d; event_queue := event_queue d |}
  | FIRST_LAUNCH =>
      {| install_id := install_id d; install_data := install_data d;
         first_launch := None; event_queue := event_queue d |}
  | EVENT_QUEUE =>
      {| install_id := install_id d; install_data := install_data d;
         first_launch := first_launch d; event_queue := None |}
  end.

(** [for (const key of keys) delete store[key]] *)
Definition multiRemove (keys : list StorageKey) (d : AsyncStorage)
  : AsyncStorage :=
  fold_left (fun d k => removeItem k d) keys d.

Module StorageManager.

Definition saveInstallId (id : string) : M AsyncStorage unit :=
  modify (fun d =>
    {| install_id := Some id; install_data := install_data d;
       first_launch := first_launch d; event_queue := event_queue d |}).

Definition getInstallId : M AsyncStorage (option string) :=
  gets install_id.

Definition saveInstallData (data : DeepLinkData) : M AsyncStorage unit :=
  modify (fun d =>
    {| install_id := install_id d; install_data := Some (Encodes data);
       first_launch := first_launch d; event_queue := event_queue d |}).

Definition getInstallData : M AsyncStorage (option DeepLinkData) :=
  json <- gets install_data ;;
  match json with
  | None | Some EmptyText => ret None
  | Some (Encodes data) => ret (Some data)
  | Some Unparsable => ret None
  end.

Definition isFirstLaunch : M AsyncStorage bool :=
  flag <- gets first_launch ;;
  ret (match flag with None => true | Some _ => false end).

Definition setHasLaunched : M AsyncStorage unit :=
  modify (fun d =>
    {| install_id := install_id d; install_data := install_data d;
       first_launch := Some "true"; event_queue := event_queue d |}).

Definition clearAll : M AsyncStorage unit :=
  modify (multiRemove [INSTALL_ID; INSTALL_DATA; FIRST_LAUNCH; EVENT_QUEUE]).

End StorageManager.

(* ===================================================================== *)
(** * Offline queue ([events/event-queue.ts]) *)
(* ===================================================================== *)

Module EventQueue.

Definition MAX_QUEUE_SIZE : nat := 100.

(** The two private fields of an instance. *)
Record t := {
  queue : list EventRequest;
  loaded : bool;
}.

(** [new EventQueue()] *)
Definition new : t := {| queue := []; loaded := false |}.

(** The methods work on the instance and on the store. *)
Definition St : Type := t * AsyncStorage.

Definition set_queue (q : list EventRequest) : M St unit :=
  modify (fun s => ({| queue := q; loaded := loaded (fst s) |}, snd s)).

Definition load : M St unit :=
  isLoaded <- gets (fun s => loaded (fst s)) ;;
  if isLoaded then ret tt
  else
    json <- gets (fun s => event_queue (snd s)) ;;
    match json with
    | Some (Encodes q) => set_queue q
    | Some Unparsable => set_queue []
    | Some EmptyText | None => ret tt
    end ;;;
    modify (fun s => ({| queue := queue (fst s); loaded := true |}, snd s)).

(** [persist]. The text written is [JSON.stringify(this.queue)],
    represented as everywhere in the store by the value it is made from;
    the store takes every write, so the [catch], which only logs, is not
    entered. *)
Definition persist : M St unit :=
  modify (fun s =>
    (fst s,
     {| install_id := install_id (snd s);
        install_data := install_data (snd s);
        first_launch := first_launch (snd s);
        event_queue := Some (Encodes (queue (fst s))) |})).

Definition enqueue (event : EventRequest) : M St bool :=
  load ;;;
  q <- gets (fun s => queue (fst s)) ;;
  if (MAX_QUEUE_SIZE <=? length q)%nat then ret false
  else
    set_queue (q ++ [event]) ;;;
    persist ;;;
    ret true.

Definition dequeue : M St (option EventRequest) :=
  load ;;;
  q <- gets (fun s => queue (fst s)) ;;
  match q with
  | [] => ret None
  | event :: rest =>
      set_queue rest ;;;
      persist ;;;
      ret (Some event)
  end.

Definition peek : M St (list EventRequest) :=
  load ;;;
  gets (fun s => queue (fst s)).

Definition clear : M St unit :=
  set_queue [] ;;;
  persist.

Definition count (q : t) : nat := length (queue q).

Definition isEmpty (q : t) : bool := (length (queue q) =? 0)%nat.

End EventQueue.

(* ===================================================================== *)
(** * The world the components run in *)
(* ===================================================================== *)

(** A callback registered by the application, known by its identity.
    Calling it is recorded; it neither throws nor calls back into the
    SDK. *)
Definition Callback : Type := nat.

(** Everything outside the objects of the SDK: the store, the state [N]
    of whatever implements the network protocol, the clock reading
    [new Date().toISOString()], and three records of what has been done:
    the requests handed to the network protocol and the two kinds of
    callback invocation, oldest first. *)
Record World (N : Type) := {
  disk : AsyncStorage;
  net : N;
  now : string;
  requests : list (string * RequestInit);
  deferred_calls : list (Callback * option DeepLinkData);
  deeplink_calls : list (Callback * string * option DeepLinkData);
}.
Arguments disk {N} _.
Arguments net {N} _.
Arguments now {N} _.
Arguments requests {N} _.
Arguments deferred_calls {N} _.
Arguments deeplink_calls {N} _.

Section WorldAccess.
Context {N : Type}.

Definition set_disk (d : AsyncStorage) (w : World N) : World N :=
  {| disk := d; net := net w; now := now w; requests := requests w;
     deferred_calls := deferred_calls w;
     deeplink_calls := deeplink_calls w |}.

Definition set_net (n : N) (w : World N) : World N :=
  {| disk := disk w; net := n; now := now w; requests := requests w;
     deferred_calls := deferred_calls w;
     deeplink_calls := deeplink_calls w |}.

Definition log_request (endpoint : string) (options : RequestInit)
    (w : World N) : World N :=
  {| disk := disk w; net := net w; now := now w;
     requests := requests w ++ [(endpoint, options)];
     deferred_calls := deferred_calls w;
     deeplink_calls := deeplink_calls w |}.

Definition log_deferred (cb : Callback) (data : option DeepLinkData)
    (w : World N) : World N :=
  {| disk := disk w; net := net w; now := now w; requests := requests w;
     deferred_calls := deferred_calls w ++ [(cb, data)];
     deeplink_calls := deeplink_calls w |}.

Definition log_deeplink (cb : Callback) (url : string)
    (data : option DeepLinkData) (w : World N) : World N :=
  {| disk := disk w; net := net w; now := now w; requests := requests w;
     deferred_calls := deferred_calls w;
     deeplink_calls := deeplink_calls w ++ [(cb, url, data)] |}.

(** A method of [StorageManager], run on the store of the world. *)
Definition on_disk {A} (m : M AsyncStorage A) : M (World N) A :=
  zoom disk set_disk m.

(** [network.request(endpoint, options)] *)
Definition call_network {J} (network : NetworkManagerProtocol N J)
    (endpoint : string) (options : RequestInit) : M (World N) J :=
  modify (log_request endpoint options) ;;;
  (fun w =>
     match request network endpoint options (net w) with
     | (inr j, n) => (Returns j, set_net n w)
     | (inl e, n) => (Throws e, set_net n w)
     end).

End WorldAccess.

(* ===================================================================== *)
(** * Event dispatcher ([events/event-tracker.ts]) *)
(* ===================================================================== *)

(** [String.prototype.trim] on strings of code units below 256: the white
    space and line terminators of that range. *)
Definition is_white_space (c : ascii) : bool :=
  match nat_of_ascii c with
  | 9%nat | 10%nat | 11%nat | 12%nat | 13%nat | 32%nat | 160%nat => true
  | _ => false
  end.

Fixpoint trim_start (s : string) : string :=
  match s with
  | EmptyString => EmptyString
  | String c s' => if is_white_space c then trim_start s' else s
  end.

Fixpoint trim_end (s : string) : string :=
  match s with
  | EmptyString => EmptyString
  | String c s' =>
      match trim_end s' with
      | EmptyString => if is_white_space c then EmptyString else String c EmptyString
      | t => String c t
      end
  end.

Definition trim (s : string) : string := trim_end (trim_start s).

(** [!s] on a string. *)
Definition is_empty_string (s : string) : bool :=
  match s with
  | EmptyString => true
  | String _ _ => false
  end.

Module EventTracker.
Section Tracker.
Context {N J : Type}.

(** The fields of an instance. [storage] is the one implementation of
    [StorageManagerProtocol] in the repository, which has no fields of
    its own and works on the store of the world. *)
Record t := {
  network : NetworkManagerProtocol N J;
  queue : EventQueue.t;
}.

Definition St : Type := t * World N.

(** [new EventTracker(network, storage, queue ?? new EventQueue())] *)
Definition new (network : NetworkManagerProtocol N J)
    (queue : option EventQueue.t) : t :=
  {| network := network; queue := default EventQueue.new queue |}.

Definition in_world {A} (m : M (World N) A) : M St A :=
  zoom snd (fun w s => (fst s, w)) m.

(** A method of [this.queue]. *)
Definition on_queue {A} (m : M EventQueue.St A) : M St A :=
  zoom (fun s => (queue (fst s), disk (snd s)))
       (fun qd s => ({| network := network (fst s); queue := fst qd |},
                     set_disk (snd qd) (snd s)))
       m.

Definition sendEvent (event : EventRequest) : M St unit :=
  tr <- gets fst ;;
  in_world (call_network (network tr) "/api/sdk/v1/event"
              {| method := Some "POST"; body := Some (JsonOfEvent event);
                 headers := ∅ |}) ;;;
  ret tt.

(** The [while (!this.queue.isEmpty)] loop of [flushQueue]. *)
Fixpoint flush_loop (fuel : nat) : M St unit :=
  match fuel with
  | O => fun s => (OutOfFuel, s)
  | S fuel' =>
      empty <- gets (fun s => EventQueue.isEmpty (queue (fst s))) ;;
      if empty then ret tt
      else
        next <- on_queue EventQueue.dequeue ;;
        match next with
        | None => ret tt
        | Some event =>
            r <- try (sendEvent event) ;;
            match r with
            | inr _ => flush_loop fuel'
            | inl e => on_queue (EventQueue.enqueue event) ;;; ret tt
            end
        end
  end.

(** Every iteration that goes on removes a record, so one more round
    than there are records is enough fuel. *)
Definition flushQueue : M St unit :=
  on_queue EventQueue.load ;;;
  n <- gets (fun s => EventQueue.count (queue (fst s))) ;;
  flush_loop (S n).

Definition trackEvent (name : string)
    (properties : option (gmap string JsValue)) : M St unit :=
  if is_empty_string name || is_empty_string (trim name)
  then throw (invalidEventData "Event name cannot be empty")
  else
    installId <- in_world (on_disk StorageManager.getInstallId) ;;
    match installId with
    | Some (String _ _ as id) =>
        ts <- gets (fun s => now (snd s)) ;;
        let event :=
          {| ev_installId := id; eventName := name;
             eventData := default ∅ properties; timestamp := ts |} in
        r <- try (sendEvent event ;;; flushQueue) ;;
        match r with
        | inr _ => ret tt
        | inl e => on_queue (EventQueue.enqueue event) ;;; throw e
        end
    | _ => throw notInitialized
    end.

Definition trackRevenue (amount : float) (currency : string)
    (properties : option (gmap string JsValue)) : M St unit :=
  if PrimFloat.ltb amount 0
  then throw (invalidEventData "Revenue amount must be non-negative")
  else
    let eventProperties : gmap string JsValue :=
      <[ "currency" := JsString currency ]>
        (<[ "revenue" := JsNumber amount ]> (default ∅ properties)) in
    trackEvent "revenue" (Some eventProperties).

Definition clearQueue : M St unit := on_queue EventQueue.clear.

Definition queuedEventCount (tr : t) : nat := EventQueue.count (queue tr).

End Tracker.
Arguments t : clear implicits.
Arguments St : clear implicits.
End EventTracker.

(* ===================================================================== *)
(** * Fingerprint ([fingerprint/fingerprint-collector.ts]) *)
(* ===================================================================== *)

(** [FingerprintCollectorProtocol]. An implementation may throw (the
    deep-link dispatcher guards against it). *)
Record FingerprintCollectorProtocol := {
  collect : Z -> option string -> Error + DeviceFingerprint;
}.

Module FingerprintCollector.

(** What the Expo modules report about the device. Screen sizes are
    taken after [Math.round]. *)
Record Device := {
  applicationName : option string;
  nativeApplicationVersion : option string;
  OS : string;
  osVersion : option string;
  window_width : Z;
  window_height : Z;
  locales : list string;
  calendars : list (option string);
}.

Definition collect (dev : Device) (attributionWindowHours : Z)
    (deviceId : option string) : DeviceFingerprint :=
  let appName := default "App" (applicationName dev) in
  let appVersion := default "1.0.0" (nativeApplicationVersion dev) in
  let platform := OS dev in
  let platformVersion := default "0" (osVersion dev) in
  {| userAgent := appName +:+ "/" +:+ appVersion +:+ " " +:+ platform
                    +:+ "/" +:+ platformVersion;
     timezone := match calendars dev with
                 | Some tz :: _ => tz
                 | _ => "UTC"
                 end;
     language := match locales dev with
                 | tag :: _ => tag
                 | [] => "en-US"
                 end;
     screenWidth := window_width dev;
     screenHeight := window_height dev;
     platform := platform;
     platformVersion := platformVersion;
     appVersion := appVersion;
     deviceId := deviceId;
     attributionWindowHours := attributionWindowHours |}.

Definition protocol (dev : Device) : FingerprintCollectorProtocol :=
  Build_FingerprintCollectorProtocol (fun w d => inr (collect dev w d)).

End FingerprintCollector.

(* ===================================================================== *)
(** * Attribution coordinator ([attribution/attribution-manager.ts]) *)
(* ===================================================================== *)

Module AttributionManager.
Section Attribution.
Context {N J : Type}.
(** The answer of [request<InstallAttributionResponse>] as the object
    the code reads: its members, or [None] when the answer is [null]
    (the body [null] of a 2xx response), whose members cannot be read. *)
Variable as_InstallAttributionResponse : J -> option InstallAttributionResponse.

Record t := {
  network : NetworkManagerProtocol N J;
  fingerprint : FingerprintCollectorProtocol;
}.

(** [{ ...d, customParameters: d.deepLinkParameters ?? d.customParameters }] *)
Definition normalize (d : DeepLinkData) : DeepLinkData :=
  {| shortCode := shortCode d;
     iosUrl := iosUrl d;
     androidUrl := androidUrl d;
     webUrl := webUrl d;
     utmParameters := utmParameters d;
     customParameters :=
       match deepLinkParameters d with
       | Some p => Some p
       | None => customParameters d
       end;
     deepLinkPath := deepLinkPath d;
     appScheme := appScheme d;
     clickedAt := clickedAt d;
     linkId := linkId d;
     deepLinkParameters := deepLinkParameters d |}.

Definition buildCachedResponse : M (World N) InstallAttributionResponse :=
  id <- on_disk StorageManager.getInstallId ;;
  data <- on_disk StorageManager.getInstallData ;;
  ret {| installId := default "" id;
         attributed := match data with Some _ => true | None => false end;
         confidenceScore := match data with Some _ => 100 | None => 0 end;
         matchedFactors := [];
         deepLinkData := data |}.

Definition reportInstall (am : t) (attributionWindowHours : Z)
    (deviceId : option string) : M (World N) InstallAttributionResponse :=
  isFirst <- on_disk StorageManager.isFirstLaunch ;;
  if negb isFirst then buildCachedResponse
  else
    match collect (fingerprint am) attributionWindowHours deviceId with
    | inl e => throw e
    | inr fp =>
        r <- try (call_network (network am) "/api/sdk/v1/install"
                    {| method := Some "POST";
                       body := Some (JsonOfFingerprint fp);
                       headers := ∅ |}) ;;
        match r with
        | inl _ =>
            on_disk StorageManager.setHasLaunched ;;;
            ret {| installId := ""; attributed := false;
                   confidenceScore := 0; matchedFactors := [];
                   deepLinkData := None |}
        | inr j =>
            (* [response.installId] is read outside the [try] *)
            match as_InstallAttributionResponse j with
            | None => throw (cannotReadNull "installId")
            | Some response =>
                (if is_empty_string (installId response) then ret tt
                 else on_disk (StorageManager.saveInstallId (installId response))) ;;;
                response' <-
                  match attributed response, deepLinkData response with
                  | true, Some d =>
                      let data := normalize d in
                      on_disk (StorageManager.saveInstallData data) ;;;
                      ret {| installId := installId response;
                             attributed := attributed response;
                             confidenceScore := confidenceScore response;
                             matchedFactors := matchedFactors response;
                             deepLinkData := Some data |}
                  | _, _ => ret response
                  end ;;
                on_disk StorageManager.setHasLaunched ;;;
                ret response'
            end
        end
    end.

Definition getInstallId : M (World N) (option string) :=
  on_disk StorageManager.getInstallId.

Definition getInstallData : M (World N) (option DeepLinkData) :=
  on_disk StorageManager.getInstallData.

Definition isFirstLaunch : M (World N) bool :=
  on_disk StorageManager.isFirstLaunch.

Definition clearData : M (World N) unit :=
  on_disk StorageManager.clearAll.

End Attribution.
Arguments t : clear implicits.
End AttributionManager.

(* ===================================================================== *)
(** * Deep-link dispatcher ([deeplink/deep-link-handler.ts]) *)
(* ===================================================================== *)

(** [String(n)] for an integer. *)
Definition show_Z (z : Z) : string := NilZero.string_of_int (Z.to_int z).

(** [s.split('/').filter(Boolean)] *)
Fixpoint split_slash (s : string) (current : string) : list string :=
  match s with
  | EmptyString => [current]
  | String c s' =>
      if Ascii.eqb c "/" then current :: split_slash s' EmptyString
      else split_slash s' (current +:+ String c EmptyString)
  end.

Definition path_segments (pathname : string) : list string :=
  filter (fun seg => negb (is_empty_string seg)) (split_slash pathname EmptyString).

Module DeepLinkHandler.
Section Handler.
Context {N J : Type}.
(** The cast of [request<DeepLinkData>] (a server may answer [null]). *)
Variable as_DeepLinkData : J -> option DeepLinkData.
(** [deeplink/url-parser.ts], which the properties below do not depend
    on: [parseDeepLinkUrl], the [pathname] of [parseUrlString] ([None]
    when it returns [null]), and [buildQueryString]. *)
Variable parseDeepLinkUrl : string -> option string -> option DeepLinkData.
Variable parseUrlString_pathname : string -> option string.
Variable buildQueryString : list (string * string) -> string.

Record t := {
  baseUrl : string;
  network : NetworkManagerProtocol N J;
  fingerprint : FingerprintCollectorProtocol;
  deferredCallbacks : list Callback;
  deepLinkCallbacks : list Callback;
  deferredDelivered : bool;
  cachedDeferredData : option DeepLinkData;
  subscription : bool;
}.

Definition St : Type := t * World N.

Definition new (url : string) (network : NetworkManagerProtocol N J)
    (fingerprint : FingerprintCollectorProtocol) : t :=
  {| baseUrl := NetworkManager.strip_trailing_slashes url;
     network := network; fingerprint := fingerprint;
     deferredCallbacks := []; deepLinkCallbacks := [];
     deferredDelivered := false; cachedDeferredData := None;
     subscription := false |}.

Definition in_world {A} (m : M (World N) A) : M St A :=
  zoom snd (fun w s => (fst s, w)) m.

Definition update (f : t -> t) : M St unit :=
  modify (fun s => (f (fst s), snd s)).

(** [cb(data)] for a deferred callback *)
Definition call_deferred (cb : Callback) (data : option DeepLinkData)
  : M St unit :=
  in_world (modify (log_deferred cb data)).

(** [cb(url, data)] for a direct callback *)
Definition call_deeplink (cb : Callback) (url : string)
    (data : option DeepLinkData) : M St unit :=
  in_world (modify (log_deeplink cb url data)).

(** [for (const cb of cbs) f(cb)] *)
Fixpoint for_each (cbs : list Callback) (f : Callback -> M St unit)
  : M St unit :=
  match cbs with
  | [] => ret tt
  | cb :: rest => f cb ;;; for_each rest f
  end.

Definition onDeferredDeepLink (callback : Callback) : M St unit :=
  update (fun h =>
    {| baseUrl := baseUrl h; network := network h;
       fingerprint := fingerprint h;
       deferredCallbacks := deferredCallbacks h ++ [callback];
       deepLinkCallbacks := deepLinkCallbacks h;
       deferredDelivered := deferredDelivered h;
       cachedDeferredData := cachedDeferredData h;
       subscription := subscription h |}) ;;;
  h <- gets fst ;;
  if deferredDelivered h then call_deferred callback (cachedDeferredData h)
  else ret tt.

Definition onDeepLink (callback : Callback) : M St unit :=
  update (fun h =>
    {| baseUrl := baseUrl h; network := network h;
       fingerprint := fingerprint h;
       deferredCallbacks := deferredCallbacks h;
       deepLinkCallbacks := deepLinkCallbacks h ++ [callback];
       deferredDelivered := deferredDelivered h;
       cachedDeferredData := cachedDeferredData h;
       subscription := subscription h |}).

Definition deliverDeferredDeepLink (data : option DeepLinkData)
  : M St unit :=
  update (fun h =>
    {| baseUrl := baseUrl h; network := network h;
       fingerprint := fingerprint h;
       deferredCallbacks := deferredCallbacks h;
       deepLinkCallbacks := deepLinkCallbacks h;
       deferredDelivered := true;
       cachedDeferredData := data;
       subscription := subscription h |}) ;;;
  h <- gets fst ;;
  for_each (deferredCallbacks h) (fun cb => call_deferred cb data).

Definition clearCallbacks : M St unit :=
  update (fun h =>
    {| baseUrl := baseUrl h; network := network h;
       fingerprint := fingerprint h;
       deferredCallbacks := [];
       deepLinkCallbacks := [];
       deferredDelivered := false;
       cachedDeferredData := None;
       subscription := subscription h |}).

Definition cleanup : M St unit :=
  update (fun h =>
    {| baseUrl := baseUrl h; network := network h;
       fingerprint := fingerprint h;
       deferredCallbacks := deferredCallbacks h;
       deepLinkCallbacks := deepLinkCallbacks h;
       deferredDelivered := deferredDelivered h;
       cachedDeferredData := cachedDeferredData h;
       subscription := false |}) ;;;
  clearCallbacks.

Definition resolveUrl (url : string) : M St (option DeepLinkData) :=
  h <- gets fst ;;
  match parseUrlString_pathname url with
  | None => ret None
  | Some pathname =>
      match path_segments pathname with
      | [] => ret None
      | seg0 :: more =>
          let resolvePath :=
            match more with
            | seg1 :: _ => "/api/sdk/v1/resolve/" +:+ seg0 +:+ "/" +:+ seg1
            | [] => "/api/sdk/v1/resolve/" +:+ seg0
            end in
          let resolvePath' :=
            match collect (fingerprint h) 168 None with
            | inr fp =>
                resolvePath +:+ "?" +:+
                buildQueryString
                  [("fp_tz", timezone fp); ("fp_lang", language fp);
                   ("fp_sw", show_Z (screenWidth fp));
                   ("fp_sh", show_Z (screenHeight fp));
                   ("fp_platform", platform fp);
                   ("fp_pv", platformVersion fp)]
            | inl _ => resolvePath
            end in
          r <- try (in_world (call_network (network h) resolvePath' no_options)) ;;
          match r with
          | inr j => ret (as_DeepLinkData j)
          | inl _ => ret None
          end
      end
  end.

(** A resolution under way: what the [then] and [catch] continuations
    of [handleUrl] will deliver once they run. *)
Record Resolution := {
  pending_url : string;
  pending_data : option DeepLinkData;
}.

(** [handleUrl], the call itself. For a URL of the base URL that parses
    it starts [resolveUrl] and returns without awaiting it: no callback
    is called, and the continuation is left to run later. The resolve
    request, like every request here, is taken as a whole, so the data
    to deliver is known when the call returns: [resolvedData ?? localData]
    in the [then] continuation and [localData] in the [catch] one.
    [None] is returned when nothing is left to run. *)
Definition handleUrl_call (url : string) : M St (option Resolution) :=
  h <- gets fst ;;
  if is_empty_string url || (length (deepLinkCallbacks h) =? 0)%nat
  then ret None
  else
    let localData := parseDeepLinkUrl url (Some (baseUrl h)) in
    match localData with
    | Some _ =>
        if String.prefix (baseUrl h) url then
          r <- try (resolveUrl url) ;;
          ret (Some {| pending_url := url;
                       pending_data :=
                         match r with
                         | inr (Some d) => Some d
                         | inr None => localData
                         | inl _ => localData
                         end |})
        else
          for_each (deepLinkCallbacks h) (fun cb => call_deeplink cb url localData) ;;;
          ret None
    | None =>
        for_each (deepLinkCallbacks h) (fun cb => call_deeplink cb url localData) ;;;
        ret None
    end.

(** The continuation of [handleUrl], whenever it runs:
    [for (const cb of this.deepLinkCallbacks) cb(url, data)], over the
    callbacks registered by then. *)
Definition handleUrl_then (r : Resolution) : M St unit :=
  h' <- gets fst ;;
  for_each (deepLinkCallbacks h')
    (fun cb => call_deeplink cb (pending_url r) (pending_data r)).

(** [handleUrl] and its continuation run back to back: what a caller
    sees who does nothing until the resolution has settled. *)
Definition handleUrl (url : string) : M St unit :=
  pending <- handleUrl_call url ;;
  match pending with
  | Some r => handleUrl_then r
  | None => ret tt
  end.

Definition handleDeepLink (url : string) : M St unit := handleUrl url.

(** [startListening]: the listener is attached. What the listener and
    [getInitialURL] deliver arrives later, as calls of [handleUrl]. *)
Definition startListening : M St unit :=
  update (fun h =>
    {| baseUrl := baseUrl h; network := network h;
       fingerprint := fingerprint h;
       deferredCallbacks := deferredCallbacks h;
       deepLinkCallbacks := deepLinkCallbacks h;
       deferredDelivered := deferredDelivered h;
       cachedDeferredData := cachedDeferredData h;
       subscription := true |}).

End Handler.
Arguments t : clear implicits.
Arguments St : clear implicits.
End DeepLinkHandler.

(* ===================================================================== *)
(** * Configuration ([models/config.ts]) *)
(* ===================================================================== *)

Definition LOCALHOST_HOSTS : list string :=
  ["localhost"; "127.0.0.1"; "0.0.0.0"; "10.0.2.2"].

Section Config.
(** [new URL(s)]: the [protocol] and [hostname] of the parsed URL, or
    [None] when the constructor throws. *)
Variable parse_URL : string -> option (string * string).

(** [validateConfig]. The attribution window is an integer here, so
    [Number.isFinite] always holds. *)
Definition validateConfig {S} (config : LinkFortyConfig) : M S unit :=
  if is_empty_string (cfg_baseUrl config)
  then throw (invalidConfiguration "baseUrl is required")
  else
    match parse_URL (cfg_baseUrl config) with
    | None =>
        throw (invalidConfiguration ("Invalid base URL: " +:+ cfg_baseUrl config))
    | Some (protocol, hostname) =>
        if negb (String.eqb protocol "https:")
           && negb (existsb (String.eqb hostname) LOCALHOST_HOSTS)
        then throw (invalidConfiguration
                      "Base URL must use HTTPS (HTTP only allowed for localhost)")
        else
          match cfg_attributionWindowHours config with
          | Some windowHours =>
              if (windowHours <? 1) || (2160 <? windowHours)
              then throw (invalidConfiguration
                            "Attribution window must be between 1 and 2160 hours")
              else ret tt
          | None => ret tt
          end
    end.
End Config.

(* ===================================================================== *)
(** * The SDK facade ([linkforty-sdk.ts]) *)
(* ===================================================================== *)

(** [`${x}`] for a member that may be [undefined]. *)
Definition template_of (x : option string) : string := default "undefined" x.

(** [if (x) body.k = x] for a string option of [createLink]. *)
Definition keep_truthy (x : option string) : option string :=
  if truthy x then x else None.

Module LinkFortySDK.
Section Facade.
Context {J : Type}.
Variable member : string -> J -> option string.
Variable as_InstallAttributionResponse : J -> option InstallAttributionResponse.
Variable as_DeepLinkData : J -> option DeepLinkData.
Variable parseDeepLinkUrl : string -> option string -> option DeepLinkData.
Variable parseUrlString_pathname : string -> option string.
Variable buildQueryString : list (string * string) -> string.
Variable parse_URL : string -> option (string * string).
Variable device : FingerprintCollector.Device.

Local Abbreviation Net := (NetworkManager.Net J).

Record t := {
  config : option LinkFortyConfig;
  networkManager : option NetworkManager.t;
  attributionManager : option (AttributionManager.t Net J);
  deepLinkHandler : option (DeepLinkHandler.t Net J);
  eventTracker : option (EventTracker.t Net J);
  _isInitialized : bool;
}.

Definition St : Type := t * World Net.

(** [new LinkFortySDK()] *)
Definition new : t :=
  {| config := None; networkManager := None; attributionManager := None;
     deepLinkHandler := None; eventTracker := None;
     _isInitialized := false |}.

Definition isInitialized (sdk : t) : bool := _isInitialized sdk.

Definition in_world {A} (m : M (World Net) A) : M St A :=
  zoom snd (fun w s => (fst s, w)) m.

Definition update (f : t -> t) : M St unit :=
  modify (fun s => (f (fst s), snd s)).

Definition set_deepLinkHandler (h : option (DeepLinkHandler.t Net J))
    (sdk : t) : t :=
  {| config := config sdk; networkManager := networkManager sdk;
     attributionManager := attributionManager sdk;
     deepLinkHandler := h; eventTracker := eventTracker sdk;
     _isInitialized := _isInitialized sdk |}.

Definition set_eventTracker (tr : option (EventTracker.t Net J))
    (sdk : t) : t :=
  {| config := config sdk; networkManager := networkManager sdk;
     attributionManager := attributionManager sdk;
     deepLinkHandler := deepLinkHandler sdk; eventTracker := tr;
     _isInitialized := _isInitialized sdk |}.

(** A method of the deep-link dispatcher [h] the facade refers to; the
    facade goes on referring to the object as the method leaves it. *)
Definition on_handler {A} (h : DeepLinkHandler.t Net J)
    (m : M (DeepLinkHandler.St Net J) A) : M St A :=
  fun s =>
    let (r, hw) := m (h, snd s) in
    (r, (set_deepLinkHandler (Some (fst hw)) (fst s), snd hw)).

(** The same for the event dispatcher. *)
Definition on_tracker {A} (tr : EventTracker.t Net J)
    (m : M (EventTracker.St Net J) A) : M St A :=
  fun s =>
    let (r, tw) := m (tr, snd s) in
    (r, (set_eventTracker (Some (fst tw)) (fst s), snd tw)).

(** ** Guards *)

Definition requireInitialized : M St unit :=
  sdk <- gets fst ;;
  if negb (_isInitialized sdk) then throw notInitialized else ret tt.

Definition requireDeepLinkHandler : M St (DeepLinkHandler.t Net J) :=
  sdk <- gets fst ;;
  match _isInitialized sdk, deepLinkHandler sdk with
  | true, Some h => ret h
  | _, _ => throw notInitialized
  end.

Definition requireEventTracker : M St (EventTracker.t Net J) :=
  sdk <- gets fst ;;
  match _isInitialized sdk, eventTracker sdk with
  | true, Some tr => ret tr
  | _, _ => throw notInitialized
  end.

(** ** Initialization *)

Definition initialize (cfg : LinkFortyConfig)
  : M St InstallAttributionResponse :=
  sdk <- gets fst ;;
  if _isInitialized sdk then throw alreadyInitialized
  else
    validateConfig parse_URL cfg ;;;
    update (fun sdk =>
      {| config := Some cfg; networkManager := networkManager sdk;
         attributionManager := attributionManager sdk;
         deepLinkHandler := deepLinkHandler sdk;
         eventTracker := eventTracker sdk;
         _isInitialized := _isInitialized sdk |}) ;;;
    let networkManager := NetworkManager.new (cfg_baseUrl cfg) (cfg_apiKey cfg) in
    let network := NetworkManager.protocol member networkManager in
    let fingerprintCollector := FingerprintCollector.protocol device in
    (* const eventQueue = new EventQueue(); await eventQueue.load(); *)
    eventQueue <-
      (fun s =>
         let (r, qd) := EventQueue.load (EventQueue.new, disk (snd s)) in
         let s' := (fst s, set_disk (snd qd) (snd s)) in
         match r with
         | Returns _ => (Returns (fst qd), s')
         | Throws e => (Throws e, s')
         | OutOfFuel => (OutOfFuel, s')
         end) ;;
    let attributionManager :=
      {| AttributionManager.network := network;
         AttributionManager.fingerprint := fingerprintCollector |} in
    let deepLinkHandler :=
      DeepLinkHandler.new (cfg_baseUrl cfg) network fingerprintCollector in
    update (fun sdk =>
      {| config := config sdk; networkManager := Some networkManager;
         attributionManager := Some attributionManager;
         deepLinkHandler := Some deepLinkHandler;
         eventTracker := Some (EventTracker.new network (Some eventQueue));
         _isInitialized := true |}) ;;;
    let attributionWindowHours := default 168 (cfg_attributionWindowHours cfg) in
    response <-
      in_world (AttributionManager.reportInstall as_InstallAttributionResponse
                  attributionManager attributionWindowHours None) ;;
    on_handler deepLinkHandler
      (match attributed response, deepLinkData response with
       | true, Some d => DeepLinkHandler.deliverDeferredDeepLink (Some d)
       | _, _ => DeepLinkHandler.deliverDeferredDeepLink None
       end ;;;
       DeepLinkHandler.startListening) ;;;
    ret response.

(** ** Deep linking *)

Definition onDeferredDeepLink (callback : Callback) : M St unit :=
  h <- requireDeepLinkHandler ;;
  on_handler h (DeepLinkHandler.onDeferredDeepLink callback).

Definition onDeepLink (callback : Callback) : M St unit :=
  h <- requireDeepLinkHandler ;;
  on_handler h (DeepLinkHandler.onDeepLink callback).

Definition handleDeepLink (url : string) : M St unit :=
  h <- requireDeepLinkHandler ;;
  on_handler h (DeepLinkHandler.handleDeepLink as_DeepLinkData
                  parseDeepLinkUrl parseUrlString_pathname
                  buildQueryString url).

(** ** Event tracking *)

Definition trackEvent (name : string)
    (properties : option (gmap string JsValue)) : M St unit :=
  tr <- requireEventTracker ;;
  on_tracker tr (EventTracker.trackEvent name properties).

Definition trackRevenue (amount : float) (currency : string)
    (properties : option (gmap string JsValue)) : M St unit :=
  tr <- requireEventTracker ;;
  on_tracker tr (EventTracker.trackRevenue amount currency properties).

Definition flushEvents : M St unit :=
  tr <- requireEventTracker ;;
  on_tracker tr EventTracker.flushQueue.

Definition clearEventQueue : M St unit :=
  tr <- requireEventTracker ;;
  on_tracker tr EventTracker.clearQueue.

Definition queuedEventCount (sdk : t) : nat :=
  match eventTracker sdk with
  | Some tr => EventTracker.queuedEventCount tr
  | None => 0%nat
  end.

(** ** Link creation *)

Definition createLink (options : CreateLinkOptions) : M St CreateLinkResult :=
  requireInitialized ;;;
  sdk <- gets fst ;;
  match config sdk, networkManager sdk with
  | Some cfg, Some nm =>
      if negb (truthy (cfg_apiKey cfg)) then throw missingApiKey
      else
        let body :=
          {| templateId := keep_truthy (templateId options);
             templateSlug := None;
             opt_deepLinkParameters := opt_deepLinkParameters options;
             title := keep_truthy (title options);
             description := keep_truthy (description options);
             customCode := keep_truthy (customCode options);
             opt_utmParameters := opt_utmParameters options |} in
        let useSimplifiedEndpoint := negb (truthy (templateId options)) in
        let endpoint :=
          if useSimplifiedEndpoint then "/api/sdk/v1/links" else "/api/links" in
        response <-
          in_world (zoom net set_net
                      (NetworkManager.request member nm endpoint
                         {| method := Some "POST";
                            body := Some (JsonOfLinkBody body);
                            headers := ∅ |})) ;;
        match useSimplifiedEndpoint, member "url" response with
        | true, Some (String _ _ as url) =>
            ret {| res_url := url;
                   res_shortCode := js_or (member "shortCode" response)
                                          (member "short_code" response);
                   res_linkId := js_or (member "linkId" response)
                                       (member "id" response) |}
        | _, _ =>
            let shortCode := member "short_code" response in
            let baseUrl := NetworkManager.strip_trailing_slashes (cfg_baseUrl cfg) in
            let url :=
              if truthy (templateSlug options)
              then baseUrl +:+ "/" +:+ template_of (templateSlug options)
                     +:+ "/" +:+ template_of shortCode
              else baseUrl +:+ "/" +:+ template_of shortCode in
            ret {| res_url := url; res_shortCode := shortCode;
                   res_linkId := member "id" response |}
        end
  | _, _ => throw (JsError "Cannot read properties of null")
  end.

(** ** Attribution data *)

Definition getInstallId : M St (option string) :=
  sdk <- gets fst ;;
  match attributionManager sdk with
  | Some _ => in_world AttributionManager.getInstallId
  | None => ret None
  end.

Definition getInstallData : M St (option DeepLinkData) :=
  sdk <- gets fst ;;
  match attributionManager sdk with
  | Some _ => in_world AttributionManager.getInstallData
  | None => ret None
  end.

Definition isFirstLaunch : M St bool :=
  sdk <- gets fst ;;
  match attributionManager sdk with
  | Some _ => in_world AttributionManager.isFirstLaunch
  | None => ret true
  end.

(** ** Data management *)

Definition clearData : M St unit :=
  sdk <- gets fst ;;
  match attributionManager sdk with
  | Some _ => in_world AttributionManager.clearData
  | None => ret tt
  end ;;;
  sdk <- gets fst ;;
  match eventTracker sdk with
  | Some tr => on_tracker tr EventTracker.clearQueue
  | None => ret tt
  end ;;;
  sdk <- gets fst ;;
  match deepLinkHandler sdk with
  | Some h => on_handler h DeepLinkHandler.clearCallbacks
  | None => ret tt
  end.

Definition reset : M St unit :=
  sdk <- gets fst ;;
  match deepLinkHandler sdk with
  | Some h => on_handler h DeepLinkHandler.cleanup
  | None => ret tt
  end ;;;
  update (fun _ => new).

End Facade.
Arguments t : clear implicits.
Arguments St : clear implicits.
End LinkFortySDK.

(* ===================================================================== *)
(** * URL parser ([deeplink/url-parser.ts]) *)
(* ===================================================================== *)

(** [s.indexOf(pat)]: the position of the first occurrence, [None] for
    [-1]. *)
Fixpoint indexOf (pat s : string) : option nat :=
  match s with
  | EmptyString => if is_empty_string pat then Some 0%nat else None
  | String _ s' =>
      if String.prefix pat s then Some 0%nat
      else option_map S (indexOf pat s')
  end.

(** [s.substring(n)] *)
Fixpoint substring_from (n : nat) (s : string) : string :=
  match n, s with
  | O, _ => s
  | S n', String _ s' => substring_from n' s'
  | S _, EmptyString => EmptyString
  end.

(** [s.substring(0, n)] *)
Fixpoint substring_to (n : nat) (s : string) : string :=
  match n, s with
  | O, _ => EmptyString
  | S n', String c s' => String c (substring_to n' s')
  | S _, EmptyString => EmptyString
  end.

(** [s.split(sep)] for a separator of one character; [current] is the
    piece being read. *)
Fixpoint split_on (sep : ascii) (s : string) (current : string) : list string :=
  match s with
  | EmptyString => [current]
  | String c s' =>
      if Ascii.eqb c sep then current :: split_on sep s' EmptyString
      else split_on sep s' (current +:+ String c EmptyString)
  end.

(** A [Map<string, string>]: its entries in insertion order, with one
    entry per key. [map.set(k, v)] replaces the value of an entry that is
    there and appends a new entry otherwise. *)
Fixpoint map_set (k v : string) (m : list (string * string))
  : list (string * string) :=
  match m with
  | [] => [(k, v)]
  | (k', v') :: rest =>
      if String.eqb k' k then (k', v) :: rest
      else (k', v') :: map_set k v rest
  end.

(** [map.get(k)] *)
Fixpoint map_get (k : string) (m : list (string * string)) : option string :=
  match m with
  | [] => None
  | (k', v') :: rest => if String.eqb k' k then Some v' else map_get k rest
  end.

(** The two hexadecimal digits of a byte, in upper case. *)
Definition hex_digit (n : nat) : ascii :=
  match n with
  | 0%nat => "0" | 1%nat => "1" | 2%nat => "2" | 3%nat => "3"
  | 4%nat => "4" | 5%nat => "5" | 6%nat => "6" | 7%nat => "7"
  | 8%nat => "8" | 9%nat => "9" | 10%nat => "A" | 11%nat => "B"
  | 12%nat => "C" | 13%nat => "D" | 14%nat => "E" | _ => "F"
  end%char.

Definition percent_byte (n : nat) : string :=
  String "%" (String (hex_digit (n / 16)) (String (hex_digit (n mod 16)) EmptyString)).

(** The characters [encodeURIComponent] leaves as they are: letters,
    digits and [- _ . ! ~ * ' ( )]. *)
Definition is_unreserved (c : ascii) : bool :=
  let n := nat_of_ascii c in
  ((65 <=? n) && (n <=? 90) || (97 <=? n) && (n <=? 122)
   || (48 <=? n) && (n <=? 57)
   || match n with
      | 45 | 95 | 46 | 33 | 126 | 42 | 39 | 40 | 41 => true
      | _ => false
      end)%nat.

(** [encodeURIComponent] on code units below 256: every other character
    becomes the percent-escaped bytes of its UTF-8 form, one byte below
    128 and two bytes from 128 on. *)
Definition encode_char (c : ascii) : string :=
  let n := nat_of_ascii c in
  if is_unreserved c then String c EmptyString
  else if (n <? 128)%nat then percent_byte n
  else percent_byte (192 + n / 64) +:+ percent_byte (128 + n mod 64).

Fixpoint encodeURIComponent (s : string) : string :=
  match s with
  | EmptyString => EmptyString
  | String c s' => encode_char c +:+ encodeURIComponent s'
  end.

(** [pieces.join(sep)] *)
Fixpoint join (sep : string) (pieces : list string) : string :=
  match pieces with
  | [] => EmptyString
  | [x] => x
  | x :: rest => x +:+ sep +:+ join sep rest
  end.

(** [buildQueryString]; [params] lists the entries of the object in the
    order [Object.entries] gives them. *)
Definition buildQueryString (params : list (string * string)) : string :=
  join "&" (map (fun kv => encodeURIComponent (fst kv) +:+ "="
                           +:+ encodeURIComponent (snd kv)) params).

Definition UTM_KEYS : list string :=
  ["utm_source"; "utm_medium"; "utm_campaign"; "utm_term"; "utm_content"].

Module UrlParser.
Section Parser.
(** [decodeURIComponent]; [None] when it throws a [URIError]. *)
Variable decodeURIComponent : string -> option string.

Record ParsedUrl := {
  pathname : string;
  searchParams : list (string * string);
}.

(** The loop over [queryString.split('&')]; [None] when a decoding
    throws. *)
Fixpoint read_pairs (pairs : list string) (searchParams : list (string * string))
  : option (list (string * string)) :=
  match pairs with
  | [] => Some searchParams
  | item :: rest =>
      match indexOf "=" item with
      | None =>
          match decodeURIComponent item with
          | Some k => read_pairs rest (map_set k "" searchParams)
          | None => None
          end
      | Some eqIndex =>
          match decodeURIComponent (substring_to eqIndex item),
                decodeURIComponent (substring_from (eqIndex + 1) item) with
          | Some k, Some v => read_pairs rest (map_set k v searchParams)
          | _, _ => None
          end
      end
  end.

Definition parseUrlString (url : string) : option ParsedUrl :=
  match indexOf "://" url with
  | None => None
  | Some protocolEnd =>
      let afterProtocol := substring_from (protocolEnd + 3) url in
      let pathAndQuery :=
        match indexOf "/" afterProtocol with
        | None => "/"
        | Some pathStart => substring_from pathStart afterProtocol
        end in
      let withoutHash :=
        match indexOf "#" pathAndQuery with
        | None => pathAndQuery
        | Some hashIndex => substring_to hashIndex pathAndQuery
        end in
      let pathname :=
        match indexOf "?" withoutHash with
        | None => withoutHash
        | Some queryStart => substring_to queryStart withoutHash
        end in
      let queryString :=
        match indexOf "?" withoutHash with
        | None => EmptyString
        | Some queryStart => substring_from (queryStart + 1) withoutHash
        end in
      match (if is_empty_string queryString then Some []
             else read_pairs (split_on "&" queryString EmptyString) []) with
      | Some searchParams =>
          Some {| pathname := pathname; searchParams := searchParams |}
      | None => None
      end
  end.

(** The first loop of [parseDeepLinkUrl]: the UTM members found so far and
    whether there is one. *)
Fixpoint read_utm (entries : list (string * string)) (utm : UTMParameters)
    (hasUtm : bool) : UTMParameters * bool :=
  match entries with
  | [] => (utm, hasUtm)
  | (key, value) :: rest =>
      if String.eqb key "utm_source" then
        read_utm rest {| source := Some value; medium := medium utm;
                         campaign := campaign utm; term := term utm;
                         content := content utm |} true
      else if String.eqb key "utm_medium" then
        read_utm rest {| source := source utm; medium := Some value;
                         campaign := campaign utm; term := term utm;
                         content := content utm |} true
      else if String.eqb key "utm_campaign" then
        read_utm rest {| source := source utm; medium := medium utm;
                         campaign := Some value; term := term utm;
                         content := content utm |} true
      else if String.eqb key "utm_term" then
        read_utm rest {| source := source utm; medium := medium utm;
                         campaign := campaign utm; term := Some value;
                         content := content utm |} true
      else if String.eqb key "utm_content" then
        read_utm rest {| source := source utm; medium := medium utm;
                         campaign := campaign utm; term := term utm;
                         content := Some value |} true
      else read_utm rest utm hasUtm
  end.

(** The second loop: [customParameters[key] = value] for the other keys.
    The assignment to the key ["__proto__"] is the one that adds no
    member to the object (a string is not a prototype). *)
Fixpoint read_custom (entries : list (string * string))
    (custom : gmap string string) (hasCustom : bool)
  : gmap string string * bool :=
  match entries with
  | [] => (custom, hasCustom)
  | (key, value) :: rest =>
      if existsb (String.eqb key) UTM_KEYS then read_custom rest custom hasCustom
      else if String.eqb key "__proto__" then read_custom rest custom true
      else read_custom rest (<[ key := value ]> custom) true
  end.

Definition parseDeepLinkUrl (url : string) (baseUrl : option string)
  : option DeepLinkData :=
  if truthy baseUrl && negb (String.prefix (default "" baseUrl) url) then None
  else
    match parseUrlString url with
    | None => None
    | Some parsed =>
        match last (path_segments (pathname parsed)) with
        | None => None
        | Some shortCode =>
            let (utm, hasUtm) :=
              read_utm (searchParams parsed)
                {| source := None; medium := None; campaign := None;
                   term := None; content := None |} false in
            let (custom, hasCustom) :=
              read_custom (searchParams parsed) ∅ false in
            Some {| shortCode := shortCode; iosUrl := None; androidUrl := None;
                    webUrl := None;
                    utmParameters := if hasUtm then Some utm else None;
                    customParameters := if hasCustom then Some custom else None;
                    deepLinkPath := None; appScheme := None; clickedAt := None;
                    linkId := None; deepLinkParameters := None |}
        end
    end.

(** [parseUrlString(url)?.pathname], as [resolveUrl] reads it. *)
Definition pathname_of (url : string) : option string :=
  option_map pathname (parseUrlString url).

End Parser.
End UrlParser.

(* ===================================================================== *)
(** * Vocabulary of the properties *)
(* ===================================================================== *)

(** ** Offline queue *)

(** The store with [q] written under the queue's key. *)
Definition persisted (q : list EventRequest) (d : AsyncStorage) : AsyncStorage :=
  {| install_id := install_id d; install_data := install_data d;
     first_launch := first_launch d; event_queue := Some (Encodes q) |}.

(** The records an instance holds once it has loaded. *)
Definition loaded_view (q : EventQueue.t) (d : AsyncStorage)
  : list EventRequest :=
  if EventQueue.loaded q then EventQueue.queue q
  else
    match event_queue d with
    | Some (Encodes l) => l
    | Some Unparsable => []
    | Some EmptyText | None => EventQueue.queue q
    end.

Definition loaded_with (l : list EventRequest) : EventQueue.t :=
  {| EventQueue.queue := l; EventQueue.loaded := true |}.

(** The operations of the queue, and runs of them. *)
Inductive QueueOp :=
| OpLoad
| OpEnqueue (event : EventRequest)
| OpDequeue
| OpPeek
| OpClear.

Definition run_op (op : QueueOp) (s : EventQueue.St) : EventQueue.St :=
  match op with
  | OpLoad => snd (EventQueue.load s)
  | OpEnqueue event => snd (EventQueue.enqueue event s)
  | OpDequeue => snd (EventQueue.dequeue s)
  | OpPeek => snd (EventQueue.peek s)
  | OpClear => snd (EventQueue.clear s)
  end.

Definition run_ops (ops : list QueueOp) (s : EventQueue.St) : EventQueue.St :=
  fold_left (fun s op => run_op op s) ops s.

(** The queue in memory holds at most 100 records, and so does its
    persisted form as long as the instance may still read it. *)
Definition within_capacity (s : EventQueue.St) : Prop :=
  (length (EventQueue.queue (fst s)) <= EventQueue.MAX_QUEUE_SIZE)%nat /\
  (EventQueue.loaded (fst s) = false ->
   forall l, event_queue (snd s) = Some (Encodes l) ->
             (length l <= EventQueue.MAX_QUEUE_SIZE)%nat).

(** Enqueue the records one after the other; the answers, in order. *)
Fixpoint enqueue_all (events : list EventRequest) (s : EventQueue.St)
  : list (Outcome bool) * EventQueue.St :=
  match events with
  | [] => ([], s)
  | event :: rest =>
      let (r, s1) := EventQueue.enqueue event s in
      let (rs, s2) := enqueue_all rest s1 in
      (r :: rs, s2)
  end.

(** [makeEvent(name)] of the queue's tests. *)
Definition makeEvent (name : string) : EventRequest :=
  {| ev_installId := "install-1"; eventName := name; eventData := ∅;
     timestamp := "2026-01-01T00:00:00.000Z" |}.

(** ** Transport *)

Section TransportVocabulary.
Context {J : Type}.
Variable member : string -> J -> option string.
Local Abbreviation Net := (NetworkManager.Net J).
Local Abbreviation FetchOutcome := (NetworkManager.FetchOutcome J).

(** The URL and the options [performRequest] hands to [fetch]. *)
Definition fetch_url (nm : NetworkManager.t) (endpoint : string) : string :=
  NetworkManager.baseUrl nm +:+ endpoint.

Definition fetch_init (nm : NetworkManager.t) (options : RequestInit)
  : RequestInit :=
  {| method := method options; body := body options;
     headers :=
       match NetworkManager.apiKey nm with
       | Some (String _ _ as k) =>
           <[ "Authorization" := "Bearer " +:+ k ]>
             (headers options ∪ {[ "Content-Type" := "application/json" ]})
       | _ => headers options ∪ {[ "Content-Type" := "application/json" ]}
       end |}.

(** What the next call of [fetch] does, and the network after it. *)
Definition next_outcome (n : Net) : FetchOutcome :=
  match NetworkManager.upcoming n with
  | [] => NetworkManager.fallback n
  | o :: _ => o
  end.

Definition after_fetch (nm : NetworkManager.t) (endpoint : string)
    (options : RequestInit) (n : Net) : Net :=
  {| NetworkManager.upcoming := tl (NetworkManager.upcoming n);
     NetworkManager.fallback := NetworkManager.fallback n;
     NetworkManager.trace :=
       NetworkManager.trace n
       ++ [NetworkManager.Fetched (fetch_url nm endpoint) (fetch_init nm options)] |}.

Definition after_delay (ms : Z) (n : Net) : Net :=
  {| NetworkManager.upcoming := NetworkManager.upcoming n;
     NetworkManager.fallback := NetworkManager.fallback n;
     NetworkManager.trace := NetworkManager.trace n ++ [NetworkManager.Slept ms] |}.

(** The server-supplied message of an error response, if its body can be
    parsed: [body.message || body.error]. *)
Definition server_message (r : NetworkManager.Response J) : option string :=
  match NetworkManager.json r with
  | NetworkManager.JsonResolves b => js_or (member "message" b) (member "error" b)
  | NetworkManager.JsonRejects _ => None
  end.

(** How one attempt ends, given what [fetch] did. *)
Definition attempt_result (o : FetchOutcome) : Outcome J :=
  match o with
  | NetworkManager.FetchRejects e => Throws (networkError e)
  | NetworkManager.FetchResolves r =>
      if NetworkManager.ok r then
        match NetworkManager.json r with
        | NetworkManager.JsonResolves j => Returns j
        | NetworkManager.JsonRejects e => Throws (decodingError e)
        end
      else Throws (invalidResponse (NetworkManager.status r) (server_message r))
  end.

(** A response with the given status and body. *)
Definition responds (status : nat) (json : NetworkManager.JsonResult J)
  : FetchOutcome :=
  NetworkManager.FetchResolves
    {| NetworkManager.status := status; NetworkManager.json := json |}.

(** The failures [request] retries: a rejected [fetch], and a response
    whose status is neither in 200-299 nor in 400-499. *)
Definition retried (o : FetchOutcome) : bool :=
  match o with
  | NetworkManager.FetchRejects _ => true
  | NetworkManager.FetchResolves r =>
      negb (NetworkManager.ok r)
      && negb ((400 <=? NetworkManager.status r) && (NetworkManager.status r <? 500))%nat
  end.

(** The error a retried failure is reported with. *)
Definition failure_of (o : FetchOutcome) : Error :=
  match o with
  | NetworkManager.FetchRejects e => networkError e
  | NetworkManager.FetchResolves r =>
      invalidResponse (NetworkManager.status r) (server_message r)
  end.

(** The network once attempt number [attempt] has failed and is retried:
    the fetch is done, and the wait before the next attempt if there is
    one. *)
Definition after_failed_attempt (nm : NetworkManager.t) (endpoint : string)
    (options : RequestInit) (attempt : nat) (n : Net) : Net :=
  if (attempt <? NetworkManager.maxRetries)%nat
  then after_delay (2 ^ (Z.of_nat attempt - 1) * 1000)
         (after_fetch nm endpoint options n)
  else after_fetch nm endpoint options n.

End TransportVocabulary.

(** Documents with string members, for examples. *)
Definition Doc : Type := list (string * string).

Definition doc_member (k : string) (d : Doc) : option string :=
  match find (fun kv => String.eqb (fst kv) k) d with
  | Some kv => Some (snd kv)
  | None => None
  end.

(** A network that answers with the given outcomes, then rejects. *)
Definition network_of (script : list (NetworkManager.FetchOutcome Doc))
  : NetworkManager.Net Doc :=
  {| NetworkManager.upcoming := script;
     NetworkManager.fallback := NetworkManager.FetchRejects (JsError "offline");
     NetworkManager.trace := [] |}.

Definition example_manager : NetworkManager.t :=
  NetworkManager.new "https://go.example.com/" (Some "test-api-key").

(** ** Event dispatcher *)

Section TrackerVocabulary.
Context {N J : Type}.

(** The request [sendEvent] makes for a record. *)
Definition event_request (event : EventRequest) : string * RequestInit :=
  ("/api/sdk/v1/event",
   {| method := Some "POST"; body := Some (JsonOfEvent event); headers := ∅ |}).

(** One send: the request is handed to the network, which answers. *)
Definition send_on (network : NetworkManagerProtocol N J)
    (event : EventRequest) (w : World N) : (Error + J) * World N :=
  let w1 := log_request (fst (event_request event)) (snd (event_request event)) w in
  let (r, n) := request network (fst (event_request event))
                  (snd (event_request event)) (net w1) in
  (r, set_net n w1).

(** The tracker [tr] with [l] in its (loaded) queue. *)
Definition with_queue (tr : EventTracker.t N J) (l : list EventRequest)
  : EventTracker.t N J :=
  {| EventTracker.network := EventTracker.network tr;
     EventTracker.queue := loaded_with l |}.

(** What the loop of [flushQueue] does to a loaded queue [l]: the queue
    it leaves and the world it leaves. *)
Fixpoint flush_from (network : NetworkManagerProtocol N J)
    (l : list EventRequest) (w : World N) : list EventRequest * World N :=
  match l with
  | [] => ([], w)
  | event :: rest =>
      let (r, w2) := send_on network event (set_disk (persisted rest (disk w)) w) in
      match r with
      | inr _ => flush_from network rest w2
      | inl _ =>
          if (EventQueue.MAX_QUEUE_SIZE <=? length rest)%nat then (rest, w2)
          else (rest ++ [event],
                set_disk (persisted (rest ++ [event]) (disk w2)) w2)
      end
  end.

(** The network after the records of [sent] were sent one after the
    other and every send succeeded; [None] if one of them failed. *)
Fixpoint net_after (network : NetworkManagerProtocol N J)
    (sent : list EventRequest) (n : N) : option N :=
  match sent with
  | [] => Some n
  | event :: rest =>
      match request network (fst (event_request event))
              (snd (event_request event)) n with
      | (inr _, n') => net_after network rest n'
      | (inl _, _) => None
      end
  end.

(** The send of [event] fails on the network [n]. *)
Definition send_fails (network : NetworkManagerProtocol N J)
    (event : EventRequest) (n : N) : Prop :=
  exists e n', request network (fst (event_request event))
                 (snd (event_request event)) n = (inl e, n').

(** The record [trackEvent] builds. *)
Definition event_of (id name : string) (properties : option (gmap string JsValue))
    (w : World N) : EventRequest :=
  {| ev_installId := id; eventName := name;
     eventData := default ∅ properties; timestamp := now w |}.

(** The properties [trackRevenue] hands to [trackEvent]. *)
Definition revenue_properties (amount : float) (currency : string)
    (properties : option (gmap string JsValue)) : option (gmap string JsValue) :=
  Some (<[ "currency" := JsString currency ]>
          (<[ "revenue" := JsNumber amount ]> (default ∅ properties))).

(** How a call that tracks [event] settles, starting from tracker [tr]
    and world [w]: either the send succeeded (the call returns, after
    the courtesy flush of what was queued before), or it failed, the call
    throws the failure, and the queue is the one before with [event]
    appended once, in memory and in the store. *)
Definition sent_or_queued_once (tr : EventTracker.t N J) (w : World N)
    (event : EventRequest) (result : Outcome unit * EventTracker.St N J) : Prop :=
  let l := loaded_view (EventTracker.queue tr) (disk w) in
  (exists j w1,
      send_on (EventTracker.network tr) event w = (inr j, w1) /\
      result = EventTracker.flushQueue (tr, w1) /\
      fst result = Returns tt) \/
  (exists e w1,
      send_on (EventTracker.network tr) event w = (inl e, w1) /\
      fst result = Throws e /\
      EventTracker.queue (fst (snd result)) = loaded_with (l ++ [event]) /\
      event_queue (disk (snd (snd result))) = Some (Encodes (l ++ [event]))).

End TrackerVocabulary.

(** A network double in the manner of the tests' [createMockNetwork]:
    its state lists what the coming requests do ([true]: resolve), and
    once the list is used up every request resolves. *)
Definition scripted_network : NetworkManagerProtocol (list bool) unit :=
  Build_NetworkManagerProtocol (list bool) unit
    (fun _ _ script =>
       match script with
       | [] => (inr tt, [])
       | true :: rest => (inr tt, rest)
       | false :: rest => (inl (JsError "Network error"), rest)
       end).

(** A tracker over that double, holding the loaded queue [l]. *)
Definition scripted_tracker (l : list EventRequest)
  : EventTracker.t (list bool) unit :=
  EventTracker.new scripted_network (Some (loaded_with l)).

Definition world_of {N} (d : AsyncStorage) (n : N) : World N :=
  {| disk := d; net := n; now := "2026-01-01T00:00:00.000Z"; requests := [];
     deferred_calls := []; deeplink_calls := [] |}.

(** A store in which an install id is cached. *)
Definition installed_storage : AsyncStorage :=
  {| install_id := Some "install-1"; install_data := None;
     first_launch := Some "true"; event_queue := None |}.

(** ** Storage and attribution *)


(** The link data a reader finds in the store ([getInstallData]). *)
Definition cached_link_data (d : AsyncStorage) : option DeepLinkData :=
  match install_data d with
  | Some (Encodes data) => Some data
  | _ => None
  end.

(** The result [reportInstall] makes up from the store on a repeat
    launch. *)
Definition cached_response (d : AsyncStorage) : InstallAttributionResponse :=
  {| installId := default "" (install_id d);
     attributed := match cached_link_data d with Some _ => true | None => false end;
     confidenceScore := match cached_link_data d with Some _ => 100 | None => 0 end;
     matchedFactors := [];
     deepLinkData := cached_link_data d |}.

(** A network double that gives every request the same answer. *)
Definition constant_network {J} (answer : Error + J)
  : NetworkManagerProtocol unit J :=
  Build_NetworkManagerProtocol unit J (fun _ _ n => (answer, n)).

(** A fingerprint collector double, as in the tests. *)
Definition mock_fingerprint : FingerprintCollectorProtocol :=
  Build_FingerprintCollectorProtocol
    (fun window deviceId =>
       inr {| userAgent := "TestApp/1.0.0 ios/17.4";
              timezone := "America/New_York"; language := "en-US";
              screenWidth := 393; screenHeight := 852; platform := "ios";
              platformVersion := "17.4"; appVersion := "1.0.0";
              deviceId := deviceId; attributionWindowHours := window |}).

Definition link_data (code : string) : DeepLinkData :=
  {| shortCode := code; iosUrl := None; androidUrl := None; webUrl := None;
     utmParameters := None; customParameters := None; deepLinkPath := None;
     appScheme := None; clickedAt := None; linkId := None;
     deepLinkParameters := None |}.

(** ** Deep-link dispatcher *)

Section HandlerVocabulary.
Context {N J : Type}.

(** The invocations of [cbs], in order, each with [data]. *)
Definition invocations (cbs : list Callback) (data : option DeepLinkData)
  : list (Callback * option DeepLinkData) :=
  map (fun cb => (cb, data)) cbs.

(** Register the callbacks of [cbs] one after the other. *)
Fixpoint register_all (cbs : list Callback) : M (DeepLinkHandler.St N J) unit :=
  match cbs with
  | [] => ret tt
  | cb :: rest => DeepLinkHandler.onDeferredDeepLink cb ;;; register_all rest
  end.

(** The handler [h] after a delivery of [data] to the callbacks [cbs]. *)
Definition delivered (h : DeepLinkHandler.t N J) (cbs : list Callback)
    (data : option DeepLinkData) : DeepLinkHandler.t N J :=
  {| DeepLinkHandler.baseUrl := DeepLinkHandler.baseUrl h;
     DeepLinkHandler.network := DeepLinkHandler.network h;
     DeepLinkHandler.fingerprint := DeepLinkHandler.fingerprint h;
     DeepLinkHandler.deferredCallbacks := cbs;
     DeepLinkHandler.deepLinkCallbacks := DeepLinkHandler.deepLinkCallbacks h;
     DeepLinkHandler.deferredDelivered := true;
     DeepLinkHandler.cachedDeferredData := data;
     DeepLinkHandler.subscription := DeepLinkHandler.subscription h |}.

(** The world with further deferred invocations recorded. *)
Definition with_deferred_calls (calls : list (Callback * option DeepLinkData))
    (w : World N) : World N :=
  {| disk := disk w; net := net w; now := now w; requests := requests w;
     deferred_calls := deferred_calls w ++ calls;
     deeplink_calls := deeplink_calls w |}.

End HandlerVocabulary.

(** ** Further vocabulary: offline queue *)

(** Dequeue [n] times; the answers, in order. *)
Fixpoint dequeue_n (n : nat) (s : EventQueue.St)
  : list (Outcome (option EventRequest)) * EventQueue.St :=
  match n with
  | O => ([], s)
  | S n' =>
      let (r, s1) := EventQueue.dequeue s in
      let (rs, s2) := dequeue_n n' s1 in
      (r :: rs, s2)
  end.

(** ** Further vocabulary: transport *)

(** [n] slashes. *)
Fixpoint slashes (n : nat) : string :=
  match n with
  | O => EmptyString
  | S n' => String "/" (slashes n')
  end.

(** The last character of a string. *)
Fixpoint last_char (s : string) : option ascii :=
  match s with
  | EmptyString => None
  | String c EmptyString => Some c
  | String _ s' => last_char s'
  end.

(** ** Further vocabulary: attribution *)

(** The answer [reportInstall] gives when the install request fails. *)
Definition organic_response : InstallAttributionResponse :=
  {| installId := ""; attributed := false; confidenceScore := 0;
     matchedFactors := []; deepLinkData := None |}.

(** The request [reportInstall] makes for a fingerprint. *)
Definition install_request (fp : DeviceFingerprint) : string * RequestInit :=
  ("/api/sdk/v1/install",
   {| method := Some "POST"; body := Some (JsonOfFingerprint fp);
      headers := ∅ |}).

(** What [reportInstall] returns for an answer of the server: the answer,
    with normalized link data when it is attributed and has link data. *)
Definition answered (response : InstallAttributionResponse)
  : InstallAttributionResponse :=
  match attributed response, deepLinkData response with
  | true, Some d =>
      {| installId := installId response; attributed := attributed response;
         confidenceScore := confidenceScore response;
         matchedFactors := matchedFactors response;
         deepLinkData := Some (AttributionManager.normalize d) |}
  | _, _ => response
  end.

(** The store after [reportInstall] has handled an answer: the install
    id saved unless empty, the link data saved when the answer is
    attributed and has some, the launch flag set. *)
Definition after_install (response : InstallAttributionResponse)
    (d : AsyncStorage) : AsyncStorage :=
  {| install_id := if is_empty_string (installId response) then install_id d
                   else Some (installId response);
     install_data :=
       match attributed response, deepLinkData response with
       | true, Some x => Some (Encodes (AttributionManager.normalize x))
       | _, _ => install_data d
       end;
     first_launch := Some "true";
     event_queue := event_queue d |}.

(** The store with the launch flag set. *)
Definition launched (d : AsyncStorage) : AsyncStorage :=
  {| install_id := install_id d; install_data := install_data d;
     first_launch := Some "true"; event_queue := event_queue d |}.

(** The world once the request of [reportInstall] has been made. *)
Definition after_install_request {N} (fp : DeviceFingerprint) (n : N)
    (w : World N) : World N :=
  set_net n (log_request (fst (install_request fp)) (snd (install_request fp)) w).

(** A fingerprint collector whose [collect] throws. *)
Definition failing_fingerprint (e : Error) : FingerprintCollectorProtocol :=
  Build_FingerprintCollectorProtocol (fun _ _ => inl e).

(** A coordinator over a network double with one answer for every
    request, and the fingerprint its collector double yields. *)
Definition attribution_over (answer : Error + InstallAttributionResponse)
    (fingerprint : FingerprintCollectorProtocol)
  : AttributionManager.t unit InstallAttributionResponse :=
  {| AttributionManager.network := constant_network answer;
     AttributionManager.fingerprint := fingerprint |}.

Definition mock_fingerprint_of (window : Z) (deviceId : option string)
  : DeviceFingerprint :=
  {| userAgent := "TestApp/1.0.0 ios/17.4";
     timezone := "America/New_York"; language := "en-US";
     screenWidth := 393; screenHeight := 852; platform := "ios";
     platformVersion := "17.4"; appVersion := "1.0.0";
     deviceId := deviceId; attributionWindowHours := window |}.

(** ** Further vocabulary: deep-link dispatcher *)

Section ResolutionVocabulary.
Context {N : Type}.
Variable parseUrlString_pathname : string -> option string.
Variable buildQueryString : list (string * string) -> string.

(** The endpoint [resolveUrl] asks for a URL, if it asks: the first one
    or two segments of the path, and the fingerprint as a query when the
    collector yields one. *)
Definition resolve_endpoint (fingerprint : FingerprintCollectorProtocol)
    (url : string) : option string :=
  match parseUrlString_pathname url with
  | None => None
  | Some pathname =>
      match path_segments pathname with
      | [] => None
      | seg0 :: more =>
          let resolvePath :=
            match more with
            | seg1 :: _ => "/api/sdk/v1/resolve/" +:+ seg0 +:+ "/" +:+ seg1
            | [] => "/api/sdk/v1/resolve/" +:+ seg0
            end in
          Some match collect fingerprint 168 None with
               | inr fp =>
                   resolvePath +:+ "?" +:+
                   buildQueryString
                     [("fp_tz", timezone fp); ("fp_lang", language fp);
                      ("fp_sw", show_Z (screenWidth fp));
                      ("fp_sh", show_Z (screenHeight fp));
                      ("fp_platform", platform fp);
                      ("fp_pv", platformVersion fp)]
               | inl _ => resolvePath
               end
      end
  end.

(** The invocations of the direct callbacks [cbs], in order, each with
    [url] and [data]. *)
Definition deeplink_invocations (cbs : list Callback) (url : string)
    (data : option DeepLinkData) : list (Callback * string * option DeepLinkData) :=
  map (fun cb => (cb, url, data)) cbs.

(** The world with further direct invocations recorded. *)
Definition with_deeplink_calls
    (calls : list (Callback * string * option DeepLinkData)) (w : World N)
  : World N :=
  {| disk := disk w; net := net w; now := now w; requests := requests w;
     deferred_calls := deferred_calls w;
     deeplink_calls := deeplink_calls w ++ calls |}.

End ResolutionVocabulary.

(** ** Further vocabulary: URLs *)

(** [s.includes(c)] for a character. *)
Fixpoint has_char (c : ascii) (s : string) : bool :=
  match s with
  | EmptyString => false
  | String d s' => Ascii.eqb d c || has_char c s'
  end.

(** Every character of [s] satisfies [p]. *)
Fixpoint all_chars (p : ascii -> bool) (s : string) : bool :=
  match s with
  | EmptyString => true
  | String d s' => p d && all_chars p s'
  end.

(** The [Map] that results from setting the entries of [params] in
    order. *)
Definition map_of (params : list (string * string)) : list (string * string) :=
  fold_left (fun m kv => map_set (fst kv) (snd kv) m) params [].

(** The value of a hexadecimal digit, in either case. *)
Definition hex_value (c : ascii) : option nat :=
  let n := nat_of_ascii c in
  if ((48 <=? n) && (n <=? 57))%nat then Some (n - 48)%nat
  else if ((65 <=? n) && (n <=? 70))%nat then Some (n - 55)%nat
  else if ((97 <=? n) && (n <=? 102))%nat then Some (n - 87)%nat
  else None.

(** [decodeURIComponent] on the escapes of code points below 256: an
    escape [%XX] below 128 is that character, the escapes [%C2%XX] and
    [%C3%XX] are the UTF-8 form of a character from 128 on. [None] is the
    thrown [URIError] for a malformed escape; the escapes of code points
    from 256 on, which a string of [ascii] cannot hold, are also
    answered [None]. *)
Fixpoint decode_escapes (s : string) : option string :=
  match s with
  | EmptyString => Some EmptyString
  | String c s1 =>
      if Ascii.eqb c "%" then
        match s1 with
        | String h1 (String h2 s2) =>
            match hex_value h1, hex_value h2 with
            | Some a, Some b =>
                let byte := (16 * a + b)%nat in
                if (byte <? 128)%nat
                then option_map (String (ascii_of_nat byte)) (decode_escapes s2)
                else if ((194 <=? byte) && (byte <=? 195))%nat then
                  match s2 with
                  | String p (String h3 (String h4 s3)) =>
                      if Ascii.eqb p "%" then
                        match hex_value h3, hex_value h4 with
                        | Some a', Some b' =>
                            let byte' := (16 * a' + b')%nat in
                            if ((128 <=? byte') && (byte' <=? 191))%nat
                            then option_map
                                   (String (ascii_of_nat
                                              ((byte - 192) * 64 + (byte' - 128))))
                                   (decode_escapes s3)
                            else None
                        | _, _ => None
                        end
                      else None
                  | _ => None
                  end
                else None
            | _, _ => None
            end
        | _ => None
        end
      else option_map (String c) (decode_escapes s1)
  end.

(** The member of a [UTMParameters] object that the query parameter
    [key] fills. *)
Definition utm_member (key : string) (u : UTMParameters) : option string :=
  if String.eqb key "utm_source" then source u
  else if String.eqb key "utm_medium" then medium u
  else if String.eqb key "utm_campaign" then campaign u
  else if String.eqb key "utm_term" then term u
  else if String.eqb key "utm_content" then content u
  else None.

(** [{}] as a [UTMParameters] object. *)
Definition no_utm : UTMParameters :=
  {| source := None; medium := None; campaign := None; term := None;
     content := None |}.

(** The characters of a query string made by [buildQueryString]: those
    [encodeURIComponent] leaves alone, the percent sign of an escape, and
    the separators [=] and [&]. *)
Definition is_query_char (c : ascii) : bool :=
  is_unreserved c || Ascii.eqb c "%" || Ascii.eqb c "=" || Ascii.eqb c "&".

(** ** Doubles for the examples of the facade *)

(** What the Expo modules report on the device of the examples. *)
Definition example_device : FingerprintCollector.Device :=
  {| FingerprintCollector.applicationName := Some "TestApp";
     FingerprintCollector.nativeApplicationVersion := Some "1.0.0";
     FingerprintCollector.OS := "ios";
     FingerprintCollector.osVersion := Some "17.4";
     FingerprintCollector.window_width := 393;
     FingerprintCollector.window_height := 852;
     FingerprintCollector.locales := ["en-US"];
     FingerprintCollector.calendars := [Some "America/New_York"] |}.

(** [new URL(s)] for the URLs of the examples, [scheme://host] with an
    optional path: the protocol is the scheme with its colon and the
    hostname is what stands between [://] and the next slash. *)
Definition simple_URL (s : string) : option (string * string) :=
  match indexOf "://" s with
  | None => None
  | Some protocolEnd =>
      let afterProtocol := substring_from (protocolEnd + 3) s in
      Some (substring_to (protocolEnd + 1) s,
            match indexOf "/" afterProtocol with
            | Some pathStart => substring_to pathStart afterProtocol
            | None => afterProtocol
            end)
  end.

(** The install response read from a document of an unattributed
    install: its install id. *)
Definition unattributed_install (d : Doc) : InstallAttributionResponse :=
  {| installId := default "" (doc_member "installId" d); attributed := false;
     confidenceScore := 0; matchedFactors := []; deepLinkData := None |}.

(** The object read from a document, which is never [null]. *)
Definition install_answer (d : Doc) : option InstallAttributionResponse :=
  Some (unattributed_install d).

(** ** Further vocabulary: facade *)

(** What [initialize] hands to [deliverDeferredDeepLink] for a result. *)
Definition deferred_data (r : InstallAttributionResponse) : option DeepLinkData :=
  match attributed r, deepLinkData r with
  | true, Some d => Some d
  | _, _ => None
  end.

Section FacadeVocabulary.
Context {J : Type}.
Variable member : string -> J -> option string.
Variable device : FingerprintCollector.Device.

(** The facade as [initialize] leaves it: the managers it has built for
    [config], an event queue that has loaded the records [held], and a
    dispatcher that is listening and has delivered [data] to no
    callback. *)
Definition initialized (config : LinkFortyConfig) (held : list EventRequest)
    (data : option DeepLinkData) : LinkFortySDK.t J :=
  let networkManager :=
    NetworkManager.new (cfg_baseUrl config) (cfg_apiKey config) in
  let network := NetworkManager.protocol member networkManager in
  let fingerprintCollector := FingerprintCollector.protocol device in
  {| LinkFortySDK.config := Some config;
     LinkFortySDK.networkManager := Some networkManager;
     LinkFortySDK.attributionManager :=
       Some {| AttributionManager.network := network;
               AttributionManager.fingerprint := fingerprintCollector |};
     LinkFortySDK.deepLinkHandler :=
       Some {| DeepLinkHandler.baseUrl :=
                 NetworkManager.strip_trailing_slashes (cfg_baseUrl config);
               DeepLinkHandler.network := network;
               DeepLinkHandler.fingerprint := fingerprintCollector;
               DeepLinkHandler.deferredCallbacks := [];
               DeepLinkHandler.deepLinkCallbacks := [];
               DeepLinkHandler.deferredDelivered := true;
               DeepLinkHandler.cachedDeferredData := data;
               DeepLinkHandler.subscription := true |};
     LinkFortySDK.eventTracker :=
       Some (EventTracker.new network (Some (loaded_with held)));
     LinkFortySDK._isInitialized := true |}.

(** The facade as [initialize] leaves it when [reportInstall] throws: the
    managers are built and the facade counts as initialized, and the
    dispatcher has delivered nothing and is not listening. *)
Definition interrupted (config : LinkFortyConfig) (held : list EventRequest)
  : LinkFortySDK.t J :=
  let networkManager :=
    NetworkManager.new (cfg_baseUrl config) (cfg_apiKey config) in
  let network := NetworkManager.protocol member networkManager in
  let fingerprintCollector := FingerprintCollector.protocol device in
  {| LinkFortySDK.config := Some config;
     LinkFortySDK.networkManager := Some networkManager;
     LinkFortySDK.attributionManager :=
       Some {| AttributionManager.network := network;
               AttributionManager.fingerprint := fingerprintCollector |};
     LinkFortySDK.deepLinkHandler :=
       Some (DeepLinkHandler.new (cfg_baseUrl config) network fingerprintCollector);
     LinkFortySDK.eventTracker :=
       Some (EventTracker.new network (Some (loaded_with held)));
     LinkFortySDK._isInitialized := true |}.

End FacadeVocabulary.

(* ===================================================================== *)
(** * Properties of the offline queue *)
(* ===================================================================== *)

Lemma load_spec (s : EventQueue.St) :
  EventQueue.load s = (Returns tt, (loaded_with (loaded_view (fst s) (snd s)), snd s)).
Proof.
  destruct s as [[q [|]] d]; unfold EventQueue.load, loaded_view, loaded_with;
    cbn; [reflexivity|].
  destruct (event_queue d) as [[l| |]|]; reflexivity.
Qed.

Lemma enqueue_spec (event : EventRequest) (s : EventQueue.St) :
  EventQueue.enqueue event s =
  let v := loaded_view (fst s) (snd s) in
  if (EventQueue.MAX_QUEUE_SIZE <=? length v)%nat
  then (Returns false, (loaded_with v, snd s))
  else (Returns true, (loaded_with (v ++ [event]), persisted (v ++ [event]) (snd s))).
Proof.
  unfold EventQueue.enqueue, bind. rewrite load_spec.
  unfold gets, loaded_with. cbn [fst snd EventQueue.queue].
  destruct (EventQueue.MAX_QUEUE_SIZE <=? _)%nat; reflexivity.
Qed.

Lemma dequeue_spec (s : EventQueue.St) :
  EventQueue.dequeue s =
  match loaded_view (fst s) (snd s) with
  | [] => (Returns None, (loaded_with [], snd s))
  | event :: rest =>
      (Returns (Some event), (loaded_with rest, persisted rest (snd s)))
  end.
Proof.
  unfold EventQueue.dequeue, bind. rewrite load_spec.
  unfold gets, loaded_with. cbn [fst snd EventQueue.queue].
  destruct (loaded_view _ _); reflexivity.
Qed.

Lemma peek_spec (s : EventQueue.St) :
  EventQueue.peek s =
  (Returns (loaded_view (fst s) (snd s)),
   (loaded_with (loaded_view (fst s) (snd s)), snd s)).
Proof. unfold EventQueue.peek, bind. rewrite load_spec. reflexivity. Qed.

Lemma clear_spec (s : EventQueue.St) :
  EventQueue.clear s =
  (Returns tt,
   ({| EventQueue.queue := []; EventQueue.loaded := EventQueue.loaded (fst s) |},
    persisted [] (snd s))).
Proof. destruct s as [q d]. reflexivity. Qed.

Lemma loaded_view_loaded (l : list EventRequest) (d : AsyncStorage) :
  loaded_view (loaded_with l) d = l.
Proof. reflexivity. Qed.

Lemma loaded_view_within (s : EventQueue.St) :
  within_capacity s ->
  (length (loaded_view (fst s) (snd s)) <= EventQueue.MAX_QUEUE_SIZE)%nat.
Proof.
  intros [Hq Hd]. unfold loaded_view.
  destruct (EventQueue.loaded (fst s)); [exact Hq|].
  destruct (event_queue (snd s)) as [[l| |]|]; auto.
  cbn. unfold EventQueue.MAX_QUEUE_SIZE. lia.
Qed.

Lemma within_capacity_loaded (l : list EventRequest) (d : AsyncStorage) :
  (length l <= EventQueue.MAX_QUEUE_SIZE)%nat ->
  within_capacity (loaded_with l, d).
Proof. intros H. split; [exact H | discriminate]. Qed.

Lemma run_op_within (op : QueueOp) (s : EventQueue.St) :
  within_capacity s -> within_capacity (run_op op s).
Proof.
  intros H. pose proof (loaded_view_within s H) as Hv.
  destruct op; unfold run_op.
  - rewrite load_spec. now apply within_capacity_loaded.
  - rewrite enqueue_spec. cbn zeta.
    destruct (_ <=? _)%nat eqn:E; cbn [snd].
    + now apply within_capacity_loaded.
    + apply within_capacity_loaded. apply Nat.leb_gt in E.
      rewrite length_app. cbn. lia.
  - rewrite dequeue_spec.
    destruct (loaded_view _ _) as [|e rest] eqn:E; cbn [snd];
      apply within_capacity_loaded; cbn in *; lia.
  - rewrite peek_spec. now apply within_capacity_loaded.
  - rewrite clear_spec. cbn [snd]. split; cbn.
    + lia.
    + intros _ l [= <-]. cbn. lia.
Qed.

Lemma run_ops_within (ops : list QueueOp) (s : EventQueue.St) :
  within_capacity s -> within_capacity (run_ops ops s).
Proof.
  revert s. induction ops as [|op ops IH]; intros s H; [exact H|].
  apply IH. now apply run_op_within.
Qed.

(** Enqueueing into a loaded queue with room for all of [events]. *)
Lemma enqueue_all_room (events l : list EventRequest) (d : AsyncStorage) :
  (length l + length events <= EventQueue.MAX_QUEUE_SIZE)%nat ->
  events <> [] ->
  enqueue_all events (loaded_with l, d) =
  (repeat (Returns true) (length events),
   (loaded_with (l ++ events), persisted (l ++ events) d)).
Proof.
  revert l d. induction events as [|e rest IH]; intros l d Hlen Hne; [congruence|].
  cbn [enqueue_all]. rewrite enqueue_spec. cbn [fst snd]. rewrite loaded_view_loaded.
  cbn zeta. cbn [length] in Hlen.
  destruct (EventQueue.MAX_QUEUE_SIZE <=? length l)%nat eqn:E.
  { apply Nat.leb_le in E. lia. }
  destruct rest as [|e' rest'].
  - reflexivity.
  - rewrite IH; [|rewrite length_app; cbn in *; lia|discriminate].
    rewrite <- !app_assoc. reflexivity.
Qed.

Lemma enqueue_all_loads (events : list EventRequest) (s : EventQueue.St) :
  events <> [] ->
  enqueue_all events s =
  enqueue_all events (loaded_with (loaded_view (fst s) (snd s)), snd s).
Proof.
  destruct events as [|e rest]; [congruence|]. intros _.
  cbn [enqueue_all]. rewrite !enqueue_spec. reflexivity.
Qed.

(** C6. Starting from a queue of at most 100 records (in memory, and in
    the persisted form an instance that has not loaded yet will read),
    no run of load / enqueue / dequeue / peek / clear leaves more than
    100 records in the queue. Enqueueing 100 records into an empty queue
    answers [true] 100 times and leaves exactly these records, in order;
    one more enqueue answers [false] and changes nothing. *)
Theorem queue_never_exceeds_capacity
    (ops : list QueueOp) (s : EventQueue.St)
    (events : list EventRequest) (overflow : EventRequest)
    (s0 : EventQueue.St) :
  within_capacity s ->
  length events = 100%nat ->
  loaded_view (fst s0) (snd s0) = [] ->
  (EventQueue.count (fst (run_ops ops s)) <= 100)%nat /\
  (fst (enqueue_all events s0) = repeat (Returns true) 100 /\
   EventQueue.queue (fst (snd (enqueue_all events s0))) = events /\
   EventQueue.count (fst (snd (enqueue_all events s0))) = 100%nat /\
   EventQueue.enqueue overflow (snd (enqueue_all events s0))
   = (Returns false, snd (enqueue_all events s0))).
Proof.
  intros Hs Hlen Hempty. split.
  - apply (run_ops_within ops) in Hs. destruct Hs as [Hq _]. exact Hq.
  - assert (Hne : events <> []) by (intros ->; discriminate).
    rewrite (enqueue_all_loads events s0 Hne), Hempty.
    rewrite enqueue_all_room by (unfold EventQueue.MAX_QUEUE_SIZE; cbn; lia || exact Hne).
    rewrite Hlen. cbn [fst snd app]. repeat split.
    + unfold EventQueue.count. cbn. exact Hlen.
    + rewrite enqueue_spec. cbn [fst snd]. rewrite loaded_view_loaded.
      cbn zeta. rewrite Hlen. reflexivity.
Qed.

Lemma queue_never_exceeds_capacity_witness :
  let s := (loaded_with (repeat (makeEvent "a") 99), empty_storage) in
  let events := repeat (makeEvent "e") 100 in
  let s1 := snd (enqueue_all events (EventQueue.new, empty_storage)) in
  (EventQueue.count
     (fst (run_ops [OpEnqueue (makeEvent "b"); OpEnqueue (makeEvent "c");
                    OpDequeue; OpLoad; OpClear; OpEnqueue (makeEvent "d")] s))
   <= 100)%nat /\
  EventQueue.queue (fst s1) = events /\
  EventQueue.enqueue (makeEvent "overflow") s1 = (Returns false, s1).
Proof.
  intros s events s1.
  destruct (queue_never_exceeds_capacity
              [OpEnqueue (makeEvent "b"); OpEnqueue (makeEvent "c");
               OpDequeue; OpLoad; OpClear; OpEnqueue (makeEvent "d")]
              s events (makeEvent "overflow") (EventQueue.new, empty_storage))
    as (H1 & _ & H2 & _ & H3).
  - split; [vm_compute; lia | discriminate].
  - reflexivity.
  - reflexivity.
  - exact (conj H1 (conj H2 H3)).
Defined.

(* ===================================================================== *)
(** * Properties of the transport *)
(* ===================================================================== *)

(** ** The status in the message of an invalid-response error *)

Lemma substring_all (s : string) : String.substring 0 (String.length s) s = s.
Proof. induction s as [|c s IH]; cbn; [reflexivity | now rewrite IH]. Qed.

Lemma take_digits_uint (d : Decimal.uint) (rest : string) :
  take_digits (NilEmpty.string_of_uint d +:+ String ")" rest)
  = NilEmpty.string_of_uint d.
Proof. induction d; simpl; [reflexivity | now rewrite IHd ..]. Qed.

Lemma show_nat_not_empty (n : nat) : show_nat n <> EmptyString.
Proof.
  unfold show_nat. intros H.
  assert (Hnil : Nat.to_uint n = Decimal.Nil)
    by (destruct (Nat.to_uint n); [reflexivity | discriminate ..]).
  pose proof (DecimalNat.Unsigned.of_to n) as Hn. rewrite Hnil in Hn.
  cbn in Hn. subst n. discriminate.
Qed.

Lemma parseInt10_show_nat (n : nat) : parseInt10 (show_nat n) = Some n.
Proof.
  unfold parseInt10, show_nat. rewrite NilEmpty.usu. cbn.
  now rewrite DecimalNat.Unsigned.of_to.
Qed.

(** The status put into the message is the status read back from it,
    whatever the server's message says. *)
Lemma status_of_invalidResponse (st : nat) (msg : option string) :
  status_of_message (message (invalidResponse st msg)) = Some st.
Proof.
  unfold status_of_message, invalidResponse, message.
  assert (H : match_status
                ("Invalid server response (status: " +:+ show_nat st +:+ ")"
                   +:+ response_detail msg) = Some (show_nat st)).
  { remember (show_nat st) as ds eqn:Hds. remember (response_detail msg) as dt.
    simpl.
    change ("" +:+ ds +:+ ")" +:+ dt) with (ds +:+ String ")" dt).
    replace (String.prefix "" (ds +:+ String ")" dt)) with true
      by (now destruct (ds +:+ String ")" dt)).
    rewrite Nat.sub_0_r, substring_all. rewrite Hds at 1. unfold show_nat.
    rewrite take_digits_uint. fold (show_nat st). rewrite <- Hds.
    destruct ds; [symmetry in Hds; now apply show_nat_not_empty in Hds|reflexivity]. }
  rewrite H. apply parseInt10_show_nat.
Qed.

Section TransportFacts.
Context {J : Type}.
Variable member : string -> J -> option string.
Local Abbreviation Net := (NetworkManager.Net J).
Implicit Types (nm : NetworkManager.t) (n : Net) (o : NetworkManager.FetchOutcome J).

Lemma performRequest_spec nm (endpoint : string) (options : RequestInit) n :
  NetworkManager.performRequest member nm endpoint options n =
  (attempt_result member (next_outcome n), after_fetch nm endpoint options n).
Proof.
  unfold NetworkManager.performRequest, attempt_result, next_outcome, after_fetch,
    fetch_url, fetch_init, server_message.
  unfold bind at 1, try at 1, NetworkManager.fetch.
  destruct n as [up fb tr]. cbn [NetworkManager.upcoming NetworkManager.fallback
                                 NetworkManager.trace].
  destruct up as [|o rest]; cbn [tl].
  - destruct fb as [e|r]; [reflexivity|].
    destruct (NetworkManager.ok r); cbn [negb]; [|reflexivity].
    destruct (NetworkManager.json r); reflexivity.
  - destruct o as [e|r]; [reflexivity|].
    destruct (NetworkManager.ok r); cbn [negb]; [|reflexivity].
    destruct (NetworkManager.json r); reflexivity.
Qed.

Lemma is_client_error_invalidResponse (st : nat) (msg : option string) :
  NetworkManager.is_client_error (invalidResponse st msg)
  = ((400 <=? st) && (st <? 500))%nat.
Proof.
  unfold NetworkManager.is_client_error.
  change (match invalidResponse st msg with
          | LinkFortyError INVALID_RESPONSE m _ =>
              match status_of_message m with
              | Some st0 => ((400 <=? st0) && (st0 <? 500))%nat
              | None => false
              end
          | _ => false
          end)
    with (match status_of_message (message (invalidResponse st msg)) with
          | Some st0 => ((400 <=? st0) && (st0 <? 500))%nat
          | None => false
          end).
  now rewrite status_of_invalidResponse.
Qed.

(** A retried failure is an error that passes both early exits. *)
Lemma retried_attempt o :
  retried o = true ->
  attempt_result member o = Throws (failure_of member o) /\
  NetworkManager.is_client_error (failure_of member o) = false /\
  NetworkManager.is_not_retryable (failure_of member o) = false.
Proof.
  destruct o as [e|r]; cbn [retried attempt_result failure_of].
  - intros _. repeat split.
  - intros H. apply andb_true_iff in H as [Hok Hst].
    apply negb_true_iff in Hok, Hst. rewrite Hok.
    rewrite is_client_error_invalidResponse, Hst. repeat split.
Qed.

Lemma request_loop_step nm (endpoint : string) (options : RequestInit)
    (remaining attempt : nat) (lastError : option Error) n :
  NetworkManager.request_loop member nm endpoint options (S remaining) attempt
    lastError n =
  match attempt_result member (next_outcome n) with
  | Returns j => (Returns j, after_fetch nm endpoint options n)
  | Throws e =>
      if NetworkManager.is_client_error e || NetworkManager.is_not_retryable e
      then (Throws e, after_fetch nm endpoint options n)
      else NetworkManager.request_loop member nm endpoint options remaining
             (S attempt) (Some e)
             (after_failed_attempt nm endpoint options attempt n)
  | OutOfFuel => (OutOfFuel, after_fetch nm endpoint options n)
  end.
Proof.
  cbn [NetworkManager.request_loop]. unfold bind at 1, try at 1.
  rewrite performRequest_spec.
  destruct (attempt_result member (next_outcome n)) as [j|e|]; try reflexivity.
  destruct (NetworkManager.is_client_error e); [reflexivity|].
  destruct (NetworkManager.is_not_retryable e); [reflexivity|].
  cbn [orb]. unfold bind at 1, after_failed_attempt.
  destruct (attempt <? NetworkManager.maxRetries)%nat; reflexivity.
Qed.

Lemma request_loop_retry nm (endpoint : string) (options : RequestInit)
    (remaining attempt : nat) (lastError : option Error) n :
  retried (next_outcome n) = true ->
  NetworkManager.request_loop member nm endpoint options (S remaining) attempt
    lastError n =
  NetworkManager.request_loop member nm endpoint options remaining (S attempt)
    (Some (failure_of member (next_outcome n)))
    (after_failed_attempt nm endpoint options attempt n).
Proof.
  intros H. rewrite request_loop_step.
  destruct (retried_attempt (next_outcome n) H) as (-> & -> & ->). reflexivity.
Qed.

Lemma attempt_result_settles o : attempt_result member o <> OutOfFuel.
Proof.
  destruct o as [e|r]; cbn; [discriminate|].
  destruct (NetworkManager.ok r); [|discriminate].
  destruct (NetworkManager.json r); discriminate.
Qed.

Lemma request_loop_settles nm (endpoint : string) (options : RequestInit)
    (remaining attempt : nat) (lastError : option Error) n :
  fst (NetworkManager.request_loop member nm endpoint options remaining attempt
         lastError n) <> OutOfFuel.
Proof.
  revert attempt lastError n.
  induction remaining as [|remaining IH]; intros attempt lastError n.
  - cbn. destruct lastError as [[m|c m ca]|]; discriminate.
  - rewrite request_loop_step.
    pose proof (attempt_result_settles (next_outcome n)) as Hs.
    destruct (attempt_result member (next_outcome n)) as [j|e|];
      [discriminate| |congruence].
    destruct (_ || _); [discriminate|apply IH].
Qed.

(** [request] always settles: it returns or throws. *)
Lemma request_settles nm (endpoint : string) (options : RequestInit) n :
  fst (NetworkManager.request member nm endpoint options n) <> OutOfFuel.
Proof. apply request_loop_settles. Qed.

(** As an implementation of the protocol, the class resolves with what
    [request] returns and rejects with what it throws. *)
Lemma protocol_request nm (endpoint : string) (options : RequestInit) n :
  (exists j, NetworkManager.request member nm endpoint options n
             = (Returns j, snd (NetworkManager.request member nm endpoint options n)) /\
             request (NetworkManager.protocol member nm) endpoint options n
             = (inr j, snd (NetworkManager.request member nm endpoint options n))) \/
  (exists e, NetworkManager.request member nm endpoint options n
             = (Throws e, snd (NetworkManager.request member nm endpoint options n)) /\
             request (NetworkManager.protocol member nm) endpoint options n
             = (inl e, snd (NetworkManager.request member nm endpoint options n))).
Proof.
  pose proof (request_settles nm endpoint options n) as Hs.
  unfold NetworkManager.protocol. cbn [request].
  destruct (NetworkManager.request member nm endpoint options n) as [[j|e|] n'];
    cbn [fst snd] in *; [left; eauto | right; eauto | congruence].
Qed.

(** Three retried failures in a row: [request] gives up after the third
    fetch, having waited 1 s and 2 s, and throws the error of the third
    attempt as it is. *)
Lemma request_exhausted nm (endpoint : string) (options : RequestInit) n :
  let n1 := after_failed_attempt nm endpoint options 1 n in
  let n2 := after_failed_attempt nm endpoint options 2 n1 in
  retried (next_outcome n) = true ->
  retried (next_outcome n1) = true ->
  retried (next_outcome n2) = true ->
  NetworkManager.request member nm endpoint options n =
  (Throws (failure_of member (next_outcome n2)),
   after_fetch nm endpoint options n2).
Proof.
  intros n1 n2 H0 H1 H2. unfold NetworkManager.request, NetworkManager.maxRetries.
  rewrite request_loop_retry by exact H0. fold n1.
  rewrite request_loop_retry by exact H1. fold n2.
  rewrite request_loop_retry by exact H2.
  cbn [NetworkManager.request_loop].
  destruct (next_outcome n2) as [e|r]; reflexivity.
Qed.

(** C8. Responses 500, 500, 200: exactly three fetches, a wait of 1000 ms
    before the second and of 2000 ms before the third, and the body of the
    200 response is returned. A response with a status in [400,500):
    exactly one fetch, no wait, and an INVALID_RESPONSE error whose
    message carries the status and, when the body can be parsed, the
    server's message. *)
Theorem transport_retries_5xx_not_4xx nm (endpoint : string)
    (options : RequestInit) (jr1 jr2 jr : NetworkManager.JsonResult J) (j : J)
    (st : nat) (rest : list (NetworkManager.FetchOutcome J))
    (fb : NetworkManager.FetchOutcome J)
    (tr0 : list NetworkManager.NetEvent) :
  (400 <= st < 500)%nat ->
  let fetched :=
    NetworkManager.Fetched (fetch_url nm endpoint) (fetch_init nm options) in
  let e := invalidResponse st
             (server_message member
                {| NetworkManager.status := st; NetworkManager.json := jr |}) in
  NetworkManager.request member nm endpoint options
    {| NetworkManager.upcoming :=
         responds 500 jr1 :: responds 500 jr2
           :: responds 200 (NetworkManager.JsonResolves j) :: rest;
       NetworkManager.fallback := fb; NetworkManager.trace := tr0 |}
  = (Returns j,
     {| NetworkManager.upcoming := rest; NetworkManager.fallback := fb;
        NetworkManager.trace :=
          tr0 ++ [fetched; NetworkManager.Slept 1000; fetched;
                  NetworkManager.Slept 2000; fetched] |}) /\
  NetworkManager.request member nm endpoint options
    {| NetworkManager.upcoming := responds st jr :: rest;
       NetworkManager.fallback := fb; NetworkManager.trace := tr0 |}
  = (Throws e,
     {| NetworkManager.upcoming := rest; NetworkManager.fallback := fb;
        NetworkManager.trace := tr0 ++ [fetched] |}) /\
  code e = Some INVALID_RESPONSE /\
  status_of_message (message e) = Some st /\
  message e = "Invalid server response (status: " +:+ show_nat st +:+ ")"
              +:+ response_detail
                    (server_message member
                       {| NetworkManager.status := st; NetworkManager.json := jr |}).
Proof.
  intros Hst fetched e. split; [|split; [|split; [|split]]].
  - unfold NetworkManager.request, NetworkManager.maxRetries.
    rewrite request_loop_retry by reflexivity.
    unfold after_failed_attempt, after_fetch, after_delay.
    cbn [NetworkManager.maxRetries Nat.ltb Nat.leb NetworkManager.upcoming
         NetworkManager.fallback NetworkManager.trace tl].
    rewrite request_loop_retry by reflexivity.
    unfold after_failed_attempt, after_fetch, after_delay.
    cbn [NetworkManager.maxRetries Nat.ltb Nat.leb NetworkManager.upcoming
         NetworkManager.fallback NetworkManager.trace tl].
    rewrite request_loop_step. unfold after_fetch.
    cbn [next_outcome attempt_result responds NetworkManager.upcoming
         NetworkManager.fallback NetworkManager.trace tl NetworkManager.ok
         NetworkManager.status NetworkManager.json Nat.leb andb].
    rewrite <- !app_assoc. reflexivity.
  - unfold NetworkManager.request, NetworkManager.maxRetries.
    rewrite request_loop_step. unfold after_fetch.
    cbn [next_outcome attempt_result responds NetworkManager.upcoming
         NetworkManager.fallback NetworkManager.trace tl NetworkManager.status
         NetworkManager.json].
    assert (Hok : NetworkManager.ok
                    {| NetworkManager.status := st; NetworkManager.json := jr |}
                  = false).
    { unfold NetworkManager.ok. cbn [NetworkManager.status].
      apply andb_false_iff. right. apply Nat.leb_gt. lia. }
    rewrite Hok, is_client_error_invalidResponse.
    replace ((400 <=? st) && (st <? 500))%nat with true; [reflexivity|].
    symmetry. apply andb_true_iff. split; [apply Nat.leb_le | apply Nat.ltb_lt]; lia.
  - reflexivity.
  - apply status_of_invalidResponse.
  - reflexivity.
Qed.

(** C2, as amended. When [request] uses up its 3 attempts, it throws the
    error of the last attempt as it is: after a rejected [fetch] a
    NETWORK_ERROR whose cause is what [fetch] rejected with; after a
    response with a status that is neither 2xx nor 4xx (so for every
    status of 500 and above) an INVALID_RESPONSE carrying that status. *)
Theorem exhausted_retries_surface_last_error nm (endpoint : string)
    (options : RequestInit) n :
  let n1 := after_failed_attempt nm endpoint options 1 n in
  let n2 := after_failed_attempt nm endpoint options 2 n1 in
  let last := next_outcome n2 in
  retried (next_outcome n) = true ->
  retried (next_outcome n1) = true ->
  retried last = true ->
  NetworkManager.request member nm endpoint options n
  = (Throws (failure_of member last), after_fetch nm endpoint options n2) /\
  (forall cause_, last = NetworkManager.FetchRejects cause_ ->
     code (failure_of member last) = Some NETWORK_ERROR /\
     cause (failure_of member last) = Some cause_) /\
  (forall r, last = NetworkManager.FetchResolves r ->
     code (failure_of member last) = Some INVALID_RESPONSE /\
     status_of_message (message (failure_of member last))
     = Some (NetworkManager.status r) /\
     (500 <= NetworkManager.status r ->
      retried (NetworkManager.FetchResolves r) = true)%nat).
Proof.
  intros n1 n2 last H0 H1 H2. split; [now apply request_exhausted|]. split.
  - intros c ->. split; reflexivity.
  - intros r ->. cbn [failure_of]. split; [reflexivity|]. split.
    + apply status_of_invalidResponse.
    + intros Hr. unfold retried, NetworkManager.ok.
      apply andb_true_iff. split; apply negb_true_iff, andb_false_iff.
      * right. apply Nat.leb_gt. lia.
      * right. apply Nat.ltb_ge. lia.
Qed.

End TransportFacts.

Lemma transport_retries_5xx_not_4xx_witness :
  let nm := example_manager in
  let fetched :=
    NetworkManager.Fetched "https://go.example.com/api/test"
      (fetch_init nm no_options) in
  NetworkManager.request doc_member nm "/api/test" no_options
    (network_of [responds 500 (NetworkManager.JsonResolves [("message", "Server error")]);
                 responds 500 (NetworkManager.JsonRejects (JsError "Unexpected token"));
                 responds 200 (NetworkManager.JsonResolves [("success", "true")])])
  = (Returns [("success", "true")],
     {| NetworkManager.upcoming := [];
        NetworkManager.fallback := NetworkManager.FetchRejects (JsError "offline");
        NetworkManager.trace :=
          [fetched; NetworkManager.Slept 1000; fetched;
           NetworkManager.Slept 2000; fetched] |}) /\
  NetworkManager.request doc_member nm "/api/test" no_options
    (network_of [responds 404 (NetworkManager.JsonResolves [("message", "Not found")])])
  = (Throws (LinkFortyError INVALID_RESPONSE
               "Invalid server response (status: 404): Not found" None),
     {| NetworkManager.upcoming := [];
        NetworkManager.fallback := NetworkManager.FetchRejects (JsError "offline");
        NetworkManager.trace := [fetched] |}).
Proof.
  intros nm fetched.
  destruct (transport_retries_5xx_not_4xx doc_member nm "/api/test" no_options
              (NetworkManager.JsonResolves [("message", "Server error")])
              (NetworkManager.JsonRejects (JsError "Unexpected token"))
              (NetworkManager.JsonResolves [("message", "Not found")])
              [("success", "true")] 404 []
              (NetworkManager.FetchRejects (JsError "offline")) [])
    as (HA & HB & _).
  - lia.
  - split; [exact HA | exact HB].
Defined.

Lemma exhausted_retries_surface_last_error_witness :
  let n := network_of
             [responds 500 (NetworkManager.JsonResolves []);
              NetworkManager.FetchRejects (JsError "timeout");
              responds 503 (NetworkManager.JsonResolves [("error", "overloaded")])] in
  fst (NetworkManager.request doc_member example_manager "/api/test" no_options n)
  = Throws (LinkFortyError INVALID_RESPONSE
              "Invalid server response (status: 503): overloaded" None).
Proof.
  intros n.
  destruct (exhausted_retries_surface_last_error doc_member example_manager
              "/api/test" no_options n) as (H & _).
  - reflexivity.
  - reflexivity.
  - reflexivity.
  - rewrite H. reflexivity.
Defined.

(** C2 fails as stated: three responses with status 500 use up the
    attempts, and the error thrown is an INVALID_RESPONSE, not a
    NETWORK_ERROR; a [fetch] that rejects three times gives a
    NETWORK_ERROR. *)
Lemma exhausted_5xx_is_not_network_error :
  let server_down :=
    network_of [responds 500 (NetworkManager.JsonResolves []);
                responds 500 (NetworkManager.JsonResolves []);
                responds 500 (NetworkManager.JsonResolves [])] in
  let offline := network_of [] in
  let on_5xx :=
    NetworkManager.request doc_member example_manager "/api/test" no_options
      server_down in
  let on_reject :=
    NetworkManager.request doc_member example_manager "/api/test" no_options
      offline in
  fst on_5xx = Throws (LinkFortyError INVALID_RESPONSE
                         "Invalid server response (status: 500)" None) /\
  length (NetworkManager.trace (snd on_5xx)) = 5%nat /\
  NetworkManager.upcoming (snd on_5xx) = [] /\
  (forall e, fst on_5xx = Throws e -> code e <> Some NETWORK_ERROR) /\
  fst on_reject = Throws (networkError (JsError "offline")).
Proof.
  intros server_down offline on_5xx on_reject.
  assert (H : fst on_5xx = Throws (LinkFortyError INVALID_RESPONSE
                                     "Invalid server response (status: 500)" None))
    by (vm_compute; reflexivity).
  split; [exact H|]. split; [vm_compute; reflexivity|].
  split; [vm_compute; reflexivity|]. split; [|vm_compute; reflexivity].
  intros e He. rewrite H in He. injection He as <-. discriminate.
Qed.

(* ===================================================================== *)
(** * Properties of the event dispatcher *)
(* ===================================================================== *)

Section TrackerFacts.
Context {N J : Type}.
Implicit Types (tr : EventTracker.t N J) (w : World N).

Lemma sendEvent_spec tr w (event : EventRequest) :
  EventTracker.sendEvent event (tr, w) =
  match send_on (EventTracker.network tr) event w with
  | (inr _, w') => (Returns tt, (tr, w'))
  | (inl e, w') => (Throws e, (tr, w'))
  end.
Proof.
  unfold EventTracker.sendEvent, send_on, EventTracker.in_world, call_network,
    zoom, bind, gets, modify, ret.
  cbn [fst snd event_request].
  destruct (request _ _ _ _) as [[e|j] n]; reflexivity.
Qed.

Lemma on_queue_spec {A} (m : M EventQueue.St A) tr w :
  EventTracker.on_queue m (tr, w) =
  (fst (m (EventTracker.queue tr, disk w)),
   ({| EventTracker.network := EventTracker.network tr;
       EventTracker.queue := fst (snd (m (EventTracker.queue tr, disk w))) |},
    set_disk (snd (snd (m (EventTracker.queue tr, disk w)))) w)).
Proof.
  unfold EventTracker.on_queue, zoom. cbn [fst snd].
  destruct (m _) as [r [q d]]. reflexivity.
Qed.

Lemma send_on_disk (network : NetworkManagerProtocol N J) (event : EventRequest) w :
  disk (snd (send_on network event w)) = disk w.
Proof.
  unfold send_on. destruct (request _ _ _ _) as [r n]. reflexivity.
Qed.

Lemma flush_loop_spec (fuel : nat) (l : list EventRequest) tr w :
  (length l < fuel)%nat ->
  EventTracker.flush_loop fuel (with_queue tr l, w) =
  (Returns tt,
   (with_queue tr (fst (flush_from (EventTracker.network tr) l w)),
    snd (flush_from (EventTracker.network tr) l w))).
Proof.
  revert l w. induction fuel as [|fuel IH]; intros l w Hlt; [lia|].
  destruct l as [|event rest].
  - reflexivity.
  - cbn [EventTracker.flush_loop]. unfold bind at 1. unfold gets at 1.
    cbn [fst snd with_queue EventTracker.queue EventQueue.isEmpty loaded_with
         EventQueue.queue length Nat.eqb].
    unfold bind at 1. rewrite on_queue_spec, dequeue_spec.
    cbn [fst snd with_queue EventTracker.queue EventTracker.network loaded_view
         loaded_with EventQueue.loaded EventQueue.queue].
    unfold bind at 1, try at 1. rewrite sendEvent_spec.
    cbn [EventTracker.network flush_from].
    destruct (send_on _ _ _) as [[e|j] w2] eqn:Hsend.
    + unfold bind at 1. rewrite on_queue_spec, enqueue_spec.
      cbn [fst snd EventTracker.queue EventTracker.network loaded_view
           loaded_with EventQueue.loaded EventQueue.queue].
      cbn zeta.
      destruct (EventQueue.MAX_QUEUE_SIZE <=? length rest)%nat eqn:E.
      * cbn [fst snd]. unfold ret, with_queue, loaded_with. cbn.
        replace (set_disk (disk w2) w2) with w2 by (destruct w2; reflexivity).
        reflexivity.
      * reflexivity.
    + apply (IH rest w2). cbn in Hlt. lia.
Qed.

Lemma flushQueue_spec tr w :
  EventTracker.flushQueue (tr, w) =
  let l := loaded_view (EventTracker.queue tr) (disk w) in
  (Returns tt,
   (with_queue tr (fst (flush_from (EventTracker.network tr) l w)),
    snd (flush_from (EventTracker.network tr) l w))).
Proof.
  unfold EventTracker.flushQueue. unfold bind at 1.
  rewrite on_queue_spec, load_spec. cbn [fst snd].
  unfold bind at 1, gets at 1.
  cbn [fst snd EventTracker.queue EventQueue.count loaded_with EventQueue.queue].
  replace (set_disk (disk w) w) with w by (destruct w; reflexivity).
  apply (flush_loop_spec _ _ tr w). unfold EventQueue.count. cbn. lia.
Qed.

Lemma send_on_spec (network : NetworkManagerProtocol N J) (event : EventRequest) w :
  send_on network event w =
  (fst (request network (fst (event_request event)) (snd (event_request event)) (net w)),
   {| disk := disk w;
      net := snd (request network (fst (event_request event))
                    (snd (event_request event)) (net w));
      now := now w;
      requests := requests w ++ [event_request event];
      deferred_calls := deferred_calls w;
      deeplink_calls := deeplink_calls w |}).
Proof.
  unfold send_on. cbn [net log_request].
  destruct (request _ _ _ _) as [r n]. destruct (event_request event). reflexivity.
Qed.

Lemma flush_from_length (network : NetworkManagerProtocol N J)
    (l : list EventRequest) w :
  (length (fst (flush_from network l w)) <= length l)%nat.
Proof.
  revert w. induction l as [|event rest IH]; intros w; [reflexivity|].
  cbn [flush_from]. destruct (send_on _ _ _) as [[e|j] w2].
  - destruct (_ <=? _)%nat; cbn [fst length]; [lia|].
    rewrite length_app. cbn. lia.
  - specialize (IH w2). cbn [length]. lia.
Qed.

(** Every send succeeds: the queue is drained, one request per record. *)
Lemma flush_from_all_sent (network : NetworkManagerProtocol N J)
    (l : list EventRequest) w (n' : N) :
  net_after network l (net w) = Some n' ->
  fst (flush_from network l w) = [] /\
  requests (snd (flush_from network l w)) = requests w ++ map event_request l /\
  net (snd (flush_from network l w)) = n'.
Proof.
  revert w. induction l as [|event rest IH]; intros w Hnet.
  - cbn in *. injection Hnet as <-. now rewrite app_nil_r.
  - cbn [flush_from net_after] in *. rewrite send_on_spec. cbn [disk net set_disk].
    destruct (request _ _ _ _) as [[e|j] n1]; [discriminate|]. cbn [fst snd].
    lazymatch goal with
    | |- context [flush_from network rest ?w2] =>
        destruct (IH w2 Hnet) as (H1 & H2 & H3)
    end.
    cbn [net requests] in *. rewrite H1, H2, H3, <- app_assoc. auto.
Qed.

(** The sends of [sent] succeed and the send of [event] fails: the loop
    stops there. The records of [rest] are not attempted and stay at the
    head of the queue; [event] goes to the tail if there is room. *)
Lemma flush_from_first_failure (network : NetworkManagerProtocol N J)
    (sent rest : list EventRequest) (event : EventRequest) w (n1 : N) :
  net_after network sent (net w) = Some n1 ->
  send_fails network event n1 ->
  (length rest < EventQueue.MAX_QUEUE_SIZE)%nat ->
  fst (flush_from network (sent ++ event :: rest) w) = rest ++ [event] /\
  requests (snd (flush_from network (sent ++ event :: rest) w))
  = requests w ++ map event_request (sent ++ [event]) /\
  event_queue (disk (snd (flush_from network (sent ++ event :: rest) w)))
  = Some (Encodes (rest ++ [event])).
Proof.
  revert w. induction sent as [|x sent IH]; intros w Hnet (e & n' & Hfail) Hroom.
  - cbn in Hnet. injection Hnet as <-.
    cbn [app flush_from]. rewrite send_on_spec. cbn [disk net set_disk].
    rewrite Hfail. cbn [fst snd].
    destruct (_ <=? _)%nat eqn:E; [apply Nat.leb_le in E; lia|].
    cbn. auto.
  - cbn [app flush_from net_after] in *. rewrite send_on_spec.
    cbn [disk net set_disk].
    destruct (request _ _ _ _) as [[e0|j] n2]; [discriminate|]. cbn [fst snd].
    lazymatch goal with
    | |- context [flush_from network (sent ++ event :: rest) ?w2] =>
        destruct (IH w2 Hnet (ex_intro _ e (ex_intro _ n' Hfail)) Hroom)
          as (H1 & H2 & H3)
    end.
    cbn [net requests] in *. rewrite H1, H2, H3, <- app_assoc. auto.
Qed.

Lemma flushQueue_returns tr w :
  fst (EventTracker.flushQueue (tr, w)) = Returns tt.
Proof. rewrite flushQueue_spec. reflexivity. Qed.

Lemma valid_name_passes (name : string) :
  trim name <> EmptyString ->
  is_empty_string name || is_empty_string (trim name) = false.
Proof.
  intros H. destruct name as [|c name']; [now elim H|].
  destruct (trim (String c name')); [now elim H|reflexivity].
Qed.

(** [trackEvent] past its two guards: one send; then either the courtesy
    flush, or the record goes to the queue (if it has room) and the
    failure is thrown again. *)
Lemma trackEvent_spec tr w (name id : string)
    (properties : option (gmap string JsValue)) :
  trim name <> EmptyString ->
  install_id (disk w) = Some id -> id <> EmptyString ->
  EventTracker.trackEvent name properties (tr, w) =
  let event := event_of id name properties w in
  match send_on (EventTracker.network tr) event w with
  | (inr _, w1) => EventTracker.flushQueue (tr, w1)
  | (inl e, w1) =>
      let l := loaded_view (EventTracker.queue tr) (disk w1) in
      if (EventQueue.MAX_QUEUE_SIZE <=? length l)%nat
      then (Throws e, (with_queue tr l, w1))
      else (Throws e, (with_queue tr (l ++ [event]),
                       set_disk (persisted (l ++ [event]) (disk w1)) w1))
  end.
Proof.
  intros Hname Hid Hne. unfold EventTracker.trackEvent.
  rewrite (valid_name_passes name Hname).
  unfold bind at 1. unfold EventTracker.in_world, on_disk, zoom,
    StorageManager.getInstallId, gets at 1. cbn [fst snd].
  rewrite Hid. destruct id as [|c id']; [congruence|].
  replace (set_disk (disk w) w) with w by (destruct w; reflexivity).
  unfold bind at 1, gets at 1. cbn [fst snd].
  unfold bind at 1, try at 1, bind at 1.
  rewrite sendEvent_spec. unfold event_of. cbn zeta.
  destruct (send_on _ _ _) as [[e|j] w1].
  - unfold bind at 1. rewrite on_queue_spec, enqueue_spec.
    cbn [fst snd]. cbn zeta.
    destruct (EventQueue.MAX_QUEUE_SIZE <=? _)%nat; cbn [fst snd]; unfold throw.
    + replace (set_disk (disk w1) w1) with w1 by (destruct w1; reflexivity).
      reflexivity.
    + reflexivity.
  - rewrite flushQueue_spec. reflexivity.
Qed.

Lemma nonnegative_not_below_zero (amount : float) :
  PrimFloat.leb 0 amount = true -> PrimFloat.ltb amount 0 = false.
Proof.
  rewrite leb_spec, ltb_spec.
  replace (Prim2SF 0) with (SpecFloat.S754_zero false) by reflexivity.
  destruct (Prim2SF amount) as [[|]|[|]| |[|] m e]; cbn;
    try reflexivity; try discriminate.
Qed.

Lemma trackRevenue_spec tr w (amount : float) (currency : string)
    (properties : option (gmap string JsValue)) :
  PrimFloat.leb 0 amount = true ->
  EventTracker.trackRevenue amount currency properties (tr, w) =
  EventTracker.trackEvent "revenue" (revenue_properties amount currency properties)
    (tr, w).
Proof.
  intros H. unfold EventTracker.trackRevenue.
  now rewrite (nonnegative_not_below_zero amount H).
Qed.

Lemma tracked_event_settles tr w (name id : string)
    (properties : option (gmap string JsValue)) :
  trim name <> EmptyString ->
  install_id (disk w) = Some id -> id <> EmptyString ->
  (length (loaded_view (EventTracker.queue tr) (disk w)) < EventQueue.MAX_QUEUE_SIZE)%nat ->
  sent_or_queued_once tr w (event_of id name properties w)
    (EventTracker.trackEvent name properties (tr, w)).
Proof.
  intros Hname Hid Hne Hroom. rewrite (trackEvent_spec tr w name id) by assumption.
  cbn zeta. unfold sent_or_queued_once.
  pose proof (send_on_disk (EventTracker.network tr) (event_of id name properties w) w) as Hd.
  destruct (send_on _ _ _) as [[e|j] w1] eqn:Hsend; cbn [snd] in Hd.
  - right. exists e, w1. rewrite Hd.
    destruct (_ <=? _)%nat eqn:E; [apply Nat.leb_le in E; lia|].
    cbn. auto.
  - left. exists j, w1. split; [reflexivity|]. split; [reflexivity|].
    apply flushQueue_returns.
Qed.

(** C1, as amended. For every event name that is not blank and every
    non-negative revenue amount, with an install id cached: when the
    Offline Queue holds fewer than 100 records, a call to trackEvent /
    trackRevenue either sends the record successfully or throws the
    failure of the send and leaves the record appended exactly once to
    the queue as it was before. When the queue holds 100 records or more
    and the send fails, the call throws the failure and the queue is as
    it was before: the record is dropped. *)
Theorem track_sends_or_queues_once tr w (name id currency : string)
    (amount : float) (properties : option (gmap string JsValue)) :
  trim name <> EmptyString ->
  PrimFloat.leb 0 amount = true ->
  install_id (disk w) = Some id -> id <> EmptyString ->
  let l := loaded_view (EventTracker.queue tr) (disk w) in
  ((length l < 100)%nat ->
   sent_or_queued_once tr w (event_of id name properties w)
     (EventTracker.trackEvent name properties (tr, w)) /\
   sent_or_queued_once tr w
     (event_of id "revenue" (revenue_properties amount currency properties) w)
     (EventTracker.trackRevenue amount currency properties (tr, w))) /\
  ((100 <= length l)%nat ->
   forall (e : Error) (w1 : World N),
     send_on (EventTracker.network tr) (event_of id name properties w) w = (inl e, w1) ->
     EventTracker.trackEvent name properties (tr, w)
     = (Throws e, (with_queue tr l, w1))).
Proof.
  intros Hname Hamount Hid Hne l. split.
  - intros Hroom. split.
    + now apply tracked_event_settles.
    + rewrite trackRevenue_spec by assumption.
      apply tracked_event_settles; try assumption. discriminate.
  - intros Hfull e w1 Hsend.
    rewrite (trackEvent_spec tr w name id) by assumption. cbn zeta.
    pose proof (send_on_disk (EventTracker.network tr)
                  (event_of id name properties w) w) as Hd.
    rewrite Hsend in *. cbn [snd] in Hd. rewrite Hd. fold l.
    destruct (_ <=? _)%nat eqn:E; [reflexivity|].
    apply Nat.leb_gt in E. unfold EventQueue.MAX_QUEUE_SIZE in E. lia.
Qed.

(** C5, as amended. flushQueue on a 3-record queue where the send of the
    2nd record fails returns with exactly 2 records in the queue: the 3rd
    record, which is not attempted in that call, at the head, and the
    failed record at the tail. Exactly two requests were made, the
    successful one for the 1st record and the failed one for the 2nd. *)
Theorem flush_three_second_fails tr w (r1 r2 r3 : EventRequest) (n1 : N) :
  loaded_view (EventTracker.queue tr) (disk w) = [r1; r2; r3] ->
  net_after (EventTracker.network tr) [r1] (net w) = Some n1 ->
  send_fails (EventTracker.network tr) r2 n1 ->
  fst (EventTracker.flushQueue (tr, w)) = Returns tt /\
  EventQueue.queue (EventTracker.queue (fst (snd (EventTracker.flushQueue (tr, w)))))
  = [r3; r2] /\
  EventTracker.queuedEventCount (fst (snd (EventTracker.flushQueue (tr, w)))) = 2%nat /\
  requests (snd (snd (EventTracker.flushQueue (tr, w))))
  = requests w ++ [event_request r1; event_request r2] /\
  event_queue (disk (snd (snd (EventTracker.flushQueue (tr, w)))))
  = Some (Encodes [r3; r2]).
Proof.
  intros Hl Hsent Hfail. rewrite flushQueue_spec. cbn zeta. rewrite Hl.
  destruct (flush_from_first_failure (EventTracker.network tr) [r1] [r3] r2 w n1
              Hsent Hfail) as (H1 & H2 & H3).
  { unfold EventQueue.MAX_QUEUE_SIZE. cbn. lia. }
  cbn [app map] in *. cbn [fst snd]. unfold EventTracker.queuedEventCount.
  cbn [with_queue EventTracker.queue loaded_with EventQueue.queue EventQueue.count].
  rewrite H1, H2, H3. repeat split.
Qed.

(** C10. For every starting queue of at most 100 records, flushQueue
    returns, does not make the queue longer, and does not drop the record
    whose send fails: when the sends of [sent] succeed and the send of
    the next record fails, the queue afterwards is the untried rest
    followed by the failed record. The reason is the last part: after a
    dequeue from a queue of at most 100 records, an enqueue answers
    [true] and appends. *)
Theorem flush_never_grows_nor_drops tr w :
  (length (loaded_view (EventTracker.queue tr) (disk w)) <= 100)%nat ->
  fst (EventTracker.flushQueue (tr, w)) = Returns tt /\
  (EventTracker.queuedEventCount (fst (snd (EventTracker.flushQueue (tr, w))))
   <= length (loaded_view (EventTracker.queue tr) (disk w)))%nat /\
  (forall (sent rest : list EventRequest) (failed : EventRequest) (n1 : N),
      loaded_view (EventTracker.queue tr) (disk w) = sent ++ failed :: rest ->
      net_after (EventTracker.network tr) sent (net w) = Some n1 ->
      send_fails (EventTracker.network tr) failed n1 ->
      EventQueue.queue (EventTracker.queue (fst (snd (EventTracker.flushQueue (tr, w)))))
      = rest ++ [failed]) /\
  (forall (s s1 : EventQueue.St) (event other : EventRequest),
      (length (loaded_view (fst s) (snd s)) <= 100)%nat ->
      EventQueue.dequeue s = (Returns (Some event), s1) ->
      (EventQueue.count (fst s1) < 100)%nat /\
      fst (EventQueue.enqueue other s1) = Returns true /\
      EventQueue.queue (fst (snd (EventQueue.enqueue other s1)))
      = EventQueue.queue (fst s1) ++ [other]).
Proof.
  intros Hcap. split; [apply flushQueue_returns|]. split; [|split].
  - rewrite flushQueue_spec. cbn zeta. cbn [fst snd].
    unfold EventTracker.queuedEventCount, EventQueue.count. cbn.
    apply flush_from_length.
  - intros sent rest failed n1 Hl Hsent Hfail.
    rewrite flushQueue_spec. cbn zeta. rewrite Hl in *.
    destruct (flush_from_first_failure (EventTracker.network tr) sent rest failed w n1
                Hsent Hfail) as (H1 & _).
    { rewrite length_app in Hcap. cbn in Hcap. unfold EventQueue.MAX_QUEUE_SIZE. lia. }
    cbn [fst snd with_queue EventTracker.queue loaded_with EventQueue.queue].
    exact H1.
  - intros s s1 event other Hs Hdeq. rewrite dequeue_spec in Hdeq.
    destruct (loaded_view (fst s) (snd s)) as [|x rest] eqn:Hv; [discriminate|].
    injection Hdeq as <- <-. cbn [length] in Hs.
    rewrite enqueue_spec. cbn [fst snd]. rewrite loaded_view_loaded. cbn zeta.
    destruct (_ <=? _)%nat eqn:E;
      [apply Nat.leb_le in E; unfold EventQueue.MAX_QUEUE_SIZE in E; lia|].
    unfold EventQueue.count. cbn. repeat split. lia.
Qed.

End TrackerFacts.

Lemma track_sends_or_queues_once_witness :
  let tr := scripted_tracker [makeEvent "a"] in
  let w := world_of installed_storage [false] in
  sent_or_queued_once tr w (event_of "install-1" "purchase" None w)
    (EventTracker.trackEvent "purchase" None (tr, w)) /\
  sent_or_queued_once tr w
    (event_of "install-1" "revenue" (revenue_properties 9.5 "USD" None) w)
    (EventTracker.trackRevenue 9.5 "USD" None (tr, w)).
Proof.
  intros tr w.
  destruct (track_sends_or_queues_once tr w "purchase" "install-1" "USD" 9.5 None)
    as [Hroom _].
  - intros H. vm_compute in H. discriminate.
  - reflexivity.
  - reflexivity.
  - discriminate.
  - apply Hroom. vm_compute. lia.
Defined.

(** C1 fails as stated for a queue that already holds 100 records: the
    send fails, the call throws, and the record is not in the queue
    afterwards, which is the queue as it was. *)
Lemma track_full_queue_loses_record :
  let tr := scripted_tracker (repeat (makeEvent "a") 100) in
  let w := world_of installed_storage [false] in
  let event := event_of "install-1" "purchase" None w in
  let result := EventTracker.trackEvent "purchase" None (tr, w) in
  trim "purchase" <> EmptyString /\
  EventTracker.queuedEventCount tr = 100%nat /\
  fst result = Throws (JsError "Network error") /\
  EventQueue.queue (EventTracker.queue (fst (snd result)))
  = repeat (makeEvent "a") 100 /\
  ~ In event (EventQueue.queue (EventTracker.queue (fst (snd result)))) /\
  ~ sent_or_queued_once tr w event result.
Proof.
  intros tr w event result.
  assert (Hq : EventQueue.queue (EventTracker.queue (fst (snd result)))
               = repeat (makeEvent "a") 100) by (vm_compute; reflexivity).
  assert (Hr : fst result = Throws (JsError "Network error"))
    by (vm_compute; reflexivity).
  split; [intros H; vm_compute in H; discriminate|].
  split; [reflexivity|]. split; [exact Hr|]. split; [exact Hq|]. split.
  - rewrite Hq. intros Hin. apply repeat_spec in Hin.
    apply (f_equal eventName) in Hin. vm_compute in Hin. discriminate.
  - intros [(j & w1 & _ & _ & Hret) | (e & w1 & _ & _ & Hqueue & _)].
    + rewrite Hr in Hret. discriminate.
    + apply (f_equal (fun q => length (EventQueue.queue q))) in Hqueue.
      rewrite Hq in Hqueue. vm_compute in Hqueue. discriminate.
Qed.

Lemma flush_three_second_fails_witness :
  let tr := scripted_tracker [makeEvent "a"; makeEvent "b"; makeEvent "c"] in
  let w := world_of empty_storage [true; false; true] in
  EventQueue.queue (EventTracker.queue (fst (snd (EventTracker.flushQueue (tr, w)))))
  = [makeEvent "c"; makeEvent "b"] /\
  requests (snd (snd (EventTracker.flushQueue (tr, w))))
  = [event_request (makeEvent "a"); event_request (makeEvent "b")].
Proof.
  intros tr w.
  destruct (flush_three_second_fails tr w (makeEvent "a") (makeEvent "b")
              (makeEvent "c") [false; true])
    as (_ & H1 & _ & H2 & _).
  - reflexivity.
  - reflexivity.
  - exists (JsError "Network error"), [true]. reflexivity.
  - exact (conj H1 H2).
Defined.

(** C5 fails as stated: with three records queued, the first send
    succeeding and the second failing, two records are left, not one. *)
Lemma flush_three_second_fails_leaves_two :
  let tr := scripted_tracker [makeEvent "a"; makeEvent "b"; makeEvent "c"] in
  let w := world_of empty_storage [true; false; true] in
  let after := fst (snd (EventTracker.flushQueue (tr, w))) in
  net_after scripted_network [makeEvent "a"] (net w) = Some [false; true] /\
  send_fails scripted_network (makeEvent "b") [false; true] /\
  EventQueue.queue (EventTracker.queue after) = [makeEvent "c"; makeEvent "b"] /\
  EventTracker.queuedEventCount after <> 1%nat.
Proof.
  intros tr w after. split; [reflexivity|]. split.
  - exists (JsError "Network error"), [true]. reflexivity.
  - split; [vm_compute; reflexivity|]. vm_compute. discriminate.
Qed.

Lemma flush_never_grows_nor_drops_witness :
  let tr := scripted_tracker [makeEvent "a"; makeEvent "b"; makeEvent "c"] in
  let w := world_of empty_storage [true; false; true] in
  fst (EventTracker.flushQueue (tr, w)) = Returns tt /\
  (EventTracker.queuedEventCount (fst (snd (EventTracker.flushQueue (tr, w)))) <= 3)%nat /\
  EventQueue.queue (EventTracker.queue (fst (snd (EventTracker.flushQueue (tr, w)))))
  = [makeEvent "c"; makeEvent "b"].
Proof.
  intros tr w.
  destruct (flush_never_grows_nor_drops tr w) as (H1 & H2 & H3 & _).
  - vm_compute. lia.
  - split; [exact H1|]. split; [exact H2|].
    apply (H3 [makeEvent "a"] [makeEvent "c"] (makeEvent "b") [false; true]).
    + reflexivity.
    + reflexivity.
    + exists (JsError "Network error"), [true]. reflexivity.
Defined.

(** The same run over the transport itself: the server accepts the first
    record and answers 404 for the second. Two fetches are made, none for
    the third record, and two records stay queued. *)
Example flush_over_the_transport :
  let tr : EventTracker.t (NetworkManager.Net Doc) Doc :=
    EventTracker.new (NetworkManager.protocol doc_member example_manager)
      (Some (loaded_with [makeEvent "a"; makeEvent "b"; makeEvent "c"])) in
  let w := world_of empty_storage
             (network_of [responds 200 (NetworkManager.JsonResolves []);
                          responds 404 (NetworkManager.JsonResolves [])]) in
  let after := snd (EventTracker.flushQueue (tr, w)) in
  EventQueue.queue (EventTracker.queue (fst after)) = [makeEvent "c"; makeEvent "b"] /\
  map fst (requests (snd after)) = ["/api/sdk/v1/event"; "/api/sdk/v1/event"] /\
  length (NetworkManager.trace (net (snd after))) = 2%nat.
Proof. intros tr w after. vm_compute. repeat split. Qed.

(* ===================================================================== *)
(** * Properties of the deep-link dispatcher *)
(* ===================================================================== *)

Section HandlerFacts.
Context {N J : Type}.
Implicit Types (h : DeepLinkHandler.t N J) (w : World N).

Lemma with_deferred_calls_nil w : with_deferred_calls [] w = w.
Proof. destruct w. unfold with_deferred_calls. cbn. now rewrite app_nil_r. Qed.

Lemma with_deferred_calls_app (c1 c2 : list (Callback * option DeepLinkData)) w :
  with_deferred_calls c2 (with_deferred_calls c1 w) = with_deferred_calls (c1 ++ c2) w.
Proof. unfold with_deferred_calls. cbn. now rewrite app_assoc. Qed.

Lemma for_each_deferred (cbs : list Callback) (data : option DeepLinkData) h w :
  DeepLinkHandler.for_each cbs (fun cb => DeepLinkHandler.call_deferred cb data) (h, w)
  = (Returns tt, (h, with_deferred_calls (invocations cbs data) w)).
Proof.
  revert w. induction cbs as [|cb rest IH]; intros w.
  - cbn. now rewrite with_deferred_calls_nil.
  - cbn [DeepLinkHandler.for_each]. unfold bind at 1.
    unfold DeepLinkHandler.call_deferred, DeepLinkHandler.in_world, zoom, modify.
    cbn [fst snd]. rewrite IH.
    change (log_deferred cb data w) with (with_deferred_calls [(cb, data)] w).
    now rewrite with_deferred_calls_app.
Qed.

Lemma deliverDeferredDeepLink_spec (data : option DeepLinkData) h w :
  DeepLinkHandler.deliverDeferredDeepLink data (h, w)
  = (Returns tt,
     (delivered h (DeepLinkHandler.deferredCallbacks h) data,
      with_deferred_calls (invocations (DeepLinkHandler.deferredCallbacks h) data) w)).
Proof.
  unfold DeepLinkHandler.deliverDeferredDeepLink. unfold bind at 1.
  unfold DeepLinkHandler.update, modify. cbn [fst snd].
  unfold bind at 1, gets. cbn [fst snd DeepLinkHandler.deferredCallbacks].
  now rewrite for_each_deferred.
Qed.

(** Registering after a delivery: each callback is added and called at
    once with the cached payload. *)
Lemma register_all_delivered (late cbs : list Callback)
    (data : option DeepLinkData) h w :
  register_all late (delivered h cbs data, w)
  = (Returns tt,
     (delivered h (cbs ++ late) data, with_deferred_calls (invocations late data) w)).
Proof.
  revert cbs w. induction late as [|cb rest IH]; intros cbs w.
  - cbn. now rewrite app_nil_r, with_deferred_calls_nil.
  - cbn [register_all]. unfold bind at 1.
    unfold DeepLinkHandler.onDeferredDeepLink. unfold bind at 1.
    unfold DeepLinkHandler.update, modify. cbn [fst snd].
    unfold bind at 1, gets. cbn [fst snd delivered DeepLinkHandler.deferredDelivered
      DeepLinkHandler.cachedDeferredData].
    unfold DeepLinkHandler.call_deferred, DeepLinkHandler.in_world, zoom, modify.
    cbn [fst snd].
    change (log_deferred cb data w) with (with_deferred_calls [(cb, data)] w).
    specialize (IH (cbs ++ [cb]) (with_deferred_calls [(cb, data)] w)).
    unfold delivered in *. cbn in *. rewrite IH.
    rewrite <- !app_assoc. cbn.
    unfold with_deferred_calls. cbn. now rewrite <- !app_assoc.
Qed.

(** C3, as amended. A second call of deliverDeferredDeepLink overwrites
    the cached payload and invokes, in registration order, every deferred
    callback registered so far with the new payload: the callbacks that
    already fired in the first delivery are invoked again, followed by
    those registered since (which were called with the first payload when
    they registered). *)
Theorem second_delivery_reaches_every_callback
    (first second : option DeepLinkData) (late : list Callback) h w :
  let cbs := DeepLinkHandler.deferredCallbacks h in
  (DeepLinkHandler.deliverDeferredDeepLink first ;;;
   register_all late ;;;
   DeepLinkHandler.deliverDeferredDeepLink second) (h, w)
  = (Returns tt,
     (delivered h (cbs ++ late) second,
      with_deferred_calls
        (invocations cbs first ++ invocations late first
           ++ invocations (cbs ++ late) second) w)).
Proof.
  intros cbs. unfold bind at 1. rewrite deliverDeferredDeepLink_spec.
  unfold bind at 1. fold cbs. rewrite register_all_delivered.
  rewrite deliverDeferredDeepLink_spec.
  cbn [delivered DeepLinkHandler.deferredCallbacks].
  rewrite !with_deferred_calls_app. reflexivity.
Qed.

End HandlerFacts.

(** C3 fails as stated: a callback registered before the first delivery
    is invoked by the first delivery and again by the second. *)
Lemma second_delivery_invokes_fired_callback_again :
  let h : DeepLinkHandler.t unit unit :=
    DeepLinkHandler.new "https://go.example.com" (constant_network (inr tt))
      mock_fingerprint in
  let w := world_of empty_storage tt in
  let after_first :=
    snd ((DeepLinkHandler.onDeferredDeepLink 1%nat ;;;
          DeepLinkHandler.deliverDeferredDeepLink (Some (link_data "first"))) (h, w)) in
  let after_second :=
    snd (DeepLinkHandler.deliverDeferredDeepLink (Some (link_data "second")) after_first) in
  deferred_calls (snd after_first) = [(1%nat, Some (link_data "first"))] /\
  deferred_calls (snd after_second)
  = [(1%nat, Some (link_data "first")); (1%nat, Some (link_data "second"))] /\
  DeepLinkHandler.cachedDeferredData (fst after_second) = Some (link_data "second").
Proof. intros h w after_first after_second. repeat split. Qed.

(* ===================================================================== *)
(** * Properties of storage and attribution *)
(* ===================================================================== *)

Section AttributionFacts.
Context {N J : Type}.
Variable as_InstallAttributionResponse : J -> option InstallAttributionResponse.
Implicit Types (am : AttributionManager.t N J) (w : World N).

Lemma set_disk_same w : set_disk (disk w) w = w.
Proof. now destruct w. Qed.

(** C4, as amended. clearData of the Attribution Coordinator wipes the
    persisted attribution state (install id, cached link data, launch
    flag) and with it the persisted event-queue entry: whatever the store
    held, all four keys are absent afterwards. Nothing else changes: no
    request is made, and a queue held in memory by an [EventQueue] is not
    touched. *)
Theorem clearData_wipes_all_four_keys w :
  AttributionManager.clearData w = (Returns tt, set_disk empty_storage w) /\
  event_queue (disk (snd (AttributionManager.clearData w))) = None /\
  install_id (disk (snd (AttributionManager.clearData w))) = None /\
  install_data (disk (snd (AttributionManager.clearData w))) = None /\
  first_launch (disk (snd (AttributionManager.clearData w))) = None /\
  requests (snd (AttributionManager.clearData w)) = requests w /\
  net (snd (AttributionManager.clearData w)) = net w.
Proof. repeat split. Qed.

Lemma getInstallData_spec (d : AsyncStorage) :
  StorageManager.getInstallData d = (Returns (cached_link_data d), d).
Proof.
  unfold StorageManager.getInstallData, cached_link_data, bind, gets.
  destruct (install_data d) as [[x| |]|]; reflexivity.
Qed.

Lemma buildCachedResponse_spec w :
  AttributionManager.buildCachedResponse w = (Returns (cached_response (disk w)), w).
Proof.
  unfold AttributionManager.buildCachedResponse, on_disk, zoom.
  unfold bind at 1. unfold StorageManager.getInstallId, gets. cbn [fst snd].
  rewrite set_disk_same. unfold bind at 1. rewrite getInstallData_spec.
  rewrite set_disk_same. unfold cached_response.
  destruct (cached_link_data (disk w)); reflexivity.
Qed.

Lemma reportInstall_repeat am (windowHours : Z) (deviceId : option string) w :
  first_launch (disk w) <> None ->
  AttributionManager.reportInstall as_InstallAttributionResponse am windowHours
    deviceId w
  = (Returns (cached_response (disk w)), w).
Proof.
  intros Hflag. unfold AttributionManager.reportInstall. unfold bind at 1.
  unfold on_disk at 1, zoom, StorageManager.isFirstLaunch, bind, gets, ret.
  cbn [fst snd]. rewrite set_disk_same.
  destruct (first_launch (disk w)); [|congruence]. cbn [negb].
  apply buildCachedResponse_spec.
Qed.

(** A first launch, step by step. *)
Lemma reportInstall_first_launch am (windowHours : Z) (deviceId : option string) w :
  first_launch (disk w) = None ->
  AttributionManager.reportInstall as_InstallAttributionResponse am windowHours
    deviceId w
  = match collect (AttributionManager.fingerprint am) windowHours deviceId with
    | inl e => (Throws e, w)
    | inr fp =>
        match request (AttributionManager.network am) (fst (install_request fp))
                (snd (install_request fp)) (net w) with
        | (inl _, n') =>
            (Returns organic_response,
             set_disk (launched (disk w)) (after_install_request fp n' w))
        | (inr j, n') =>
            match as_InstallAttributionResponse j with
            | None =>
                (Throws (cannotReadNull "installId"), after_install_request fp n' w)
            | Some response =>
                (Returns (answered response),
                 set_disk (after_install response (disk w))
                   (after_install_request fp n' w))
            end
        end
    end.
Proof.
  intros Hflag. unfold AttributionManager.reportInstall. unfold bind at 1.
  unfold on_disk at 1, zoom, StorageManager.isFirstLaunch, bind at 1, gets, ret.
  cbn [fst snd]. rewrite set_disk_same, Hflag. cbn [negb].
  destruct (collect _ _ _) as [e|fp]; [reflexivity|].
  unfold bind at 1, try, call_network, bind at 1, modify. cbn [fst snd].
  unfold install_request, after_install_request. cbn [fst snd].
  change (net (log_request "/api/sdk/v1/install"
                 {| method := Some "POST"; body := Some (JsonOfFingerprint fp);
                    headers := ∅ |} w)) with (net w).
  destruct (request _ _ _ _) as [[e|j] n']; cbn [fst snd].
  - reflexivity.
  - destruct (as_InstallAttributionResponse j) as [response|]; [|reflexivity].
    unfold bind at 1, answered, after_install.
    destruct (is_empty_string (installId response));
      destruct (attributed response);
      destruct (deepLinkData response) as [x|]; reflexivity.
Qed.



(** With a collector that does not throw and a server that does not
    answer [null], [reportInstall] returns. *)
Lemma reportInstall_returns am (windowHours : Z) (deviceId : option string) w :
  (exists fp, collect (AttributionManager.fingerprint am) windowHours deviceId = inr fp) ->
  (forall j, as_InstallAttributionResponse j <> None) ->
  exists r w',
    AttributionManager.reportInstall as_InstallAttributionResponse am windowHours
      deviceId w = (Returns r, w').
Proof.
  intros [fp Hfp] Hcast.
  destruct (first_launch (disk w)) as [flag|] eqn:Hflag.
  { rewrite reportInstall_repeat by congruence. eauto. }
  rewrite reportInstall_first_launch by exact Hflag. rewrite Hfp.
  destruct (request _ _ _ _) as [[e|j] n']; [eauto|].
  specialize (Hcast j).
  destruct (as_InstallAttributionResponse j); [eauto|congruence].
Qed.


(** What [reportInstall] leaves alone: the calls of callbacks recorded
    and the entry of the event queue. *)
Lemma reportInstall_frame am (windowHours : Z) (deviceId : option string) w :
  let after := snd (AttributionManager.reportInstall as_InstallAttributionResponse
                      am windowHours deviceId w) in
  deferred_calls after = deferred_calls w /\
  deeplink_calls after = deeplink_calls w /\
  event_queue (disk after) = event_queue (disk w).
Proof.
  cbn zeta. destruct (first_launch (disk w)) as [flag|] eqn:Hflag.
  { rewrite reportInstall_repeat by congruence. now repeat split. }
  rewrite reportInstall_first_launch by exact Hflag.
  destruct (collect _ _ _) as [e0|fp]; [now repeat split|].
  destruct (request _ _ _ _) as [[e'|j] n']; [now repeat split|].
  destruct (as_InstallAttributionResponse j); now repeat split.
Qed.

(** What makes [reportInstall] throw: the collector, before anything is
    done, or an answer [null], after the request. *)
Lemma reportInstall_throws am (windowHours : Z) (deviceId : option string) w
    (e : Error) (w1 : World N) :
  AttributionManager.reportInstall as_InstallAttributionResponse am windowHours
    deviceId w = (Throws e, w1) ->
  first_launch (disk w) = None /\
  ((collect (AttributionManager.fingerprint am) windowHours deviceId = inl e /\
    w1 = w) \/
   (exists fp j n',
      collect (AttributionManager.fingerprint am) windowHours deviceId = inr fp /\
      request (AttributionManager.network am) (fst (install_request fp))
        (snd (install_request fp)) (net w) = (inr j, n') /\
      as_InstallAttributionResponse j = None /\
      e = cannotReadNull "installId" /\
      w1 = after_install_request fp n' w)).
Proof.
  destruct (first_launch (disk w)) as [flag|] eqn:Hflag.
  { rewrite reportInstall_repeat by congruence. discriminate. }
  rewrite reportInstall_first_launch by exact Hflag. split; [reflexivity|].
  destruct (collect _ _ _) as [e0|fp]; [left; now injection H as <- <-|].
  destruct (request _ _ _ _) as [[e'|j] n'] eqn:Hreq; [discriminate|].
  destruct (as_InstallAttributionResponse j) as [response|] eqn:Hcast;
    [discriminate|].
  injection H as <- <-. right. exists fp, j, n'. auto.
Qed.

End AttributionFacts.

(** C4 fails as stated: a persisted queue entry is gone after clearData. *)
Lemma clearData_removes_queue_entry :
  let d := {| install_id := Some "id-123"; install_data := None;
              first_launch := Some "true";
              event_queue := Some (Encodes [makeEvent "a"]) |} in
  let w : World unit := world_of d tt in
  event_queue (disk w) = Some (Encodes [makeEvent "a"]) /\
  event_queue (disk (snd (AttributionManager.clearData w))) = None /\
  event_queue (disk (snd (AttributionManager.clearData w))) <> event_queue (disk w).
Proof. intros d w. repeat split. discriminate. Qed.



(* ===================================================================== *)
(** * Properties of the facade *)
(* ===================================================================== *)

Section FacadeFacts.
Context {J : Type}.
Variable member : string -> J -> option string.
Variable as_InstallAttributionResponse : J -> option InstallAttributionResponse.
Variable as_DeepLinkData : J -> option DeepLinkData.
Variable parseDeepLinkUrl : string -> option string -> option DeepLinkData.
Variable parseUrlString_pathname : string -> option string.
Variable buildQueryString : list (string * string) -> string.
Variable parse_URL : string -> option (string * string).
Variable device : FingerprintCollector.Device.
Local Abbreviation SDKState := (LinkFortySDK.St J).
Implicit Types (s : SDKState) (w : World (NetworkManager.Net J)).

Lemma validateConfig_frame {S} (cfg : LinkFortyConfig) (st : S) :
  validateConfig parse_URL cfg st = (Returns tt, st) \/
  exists e, validateConfig parse_URL cfg st = (Throws e, st).
Proof.
  unfold validateConfig.
  destruct (is_empty_string _); [right; eexists; reflexivity|].
  destruct (parse_URL _) as [[protocol hostname]|]; [|right; eexists; reflexivity].
  destruct (_ && _); [right; eexists; reflexivity|].
  destruct (cfg_attributionWindowHours cfg) as [h|]; [|now left].
  destruct (_ || _); [right; eexists; reflexivity|now left].
Qed.

Lemma reset_spec s :
  LinkFortySDK.reset s = (Returns tt, (LinkFortySDK.new, snd s)).
Proof.
  destruct s as [sdk w]. unfold LinkFortySDK.reset. unfold bind at 1, gets at 1.
  cbn [fst snd]. destruct (LinkFortySDK.deepLinkHandler sdk) as [h|]; reflexivity.
Qed.

Lemma validateConfig_any_state {S} (cfg : LinkFortyConfig) (st : S) :
  validateConfig parse_URL cfg st = (fst (validateConfig parse_URL cfg tt), st).
Proof.
  unfold validateConfig.
  destruct (is_empty_string _); [reflexivity|].
  destruct (parse_URL _) as [[protocol hostname]|]; [|reflexivity].
  destruct (_ && _); [reflexivity|].
  destruct (cfg_attributionWindowHours cfg) as [h|]; [|reflexivity].
  destruct (_ || _); reflexivity.
Qed.

Lemma validateConfig_throws_invalidConfiguration (cfg : LinkFortyConfig)
    (e : Error) :
  fst (validateConfig parse_URL cfg tt) = Throws e ->
  code e = Some INVALID_CONFIGURATION.
Proof.
  unfold validateConfig.
  destruct (is_empty_string _); [now intros [= <-]|].
  destruct (parse_URL _) as [[protocol hostname]|]; [|now intros [= <-]].
  destruct (_ && _); [now intros [= <-]|].
  destruct (cfg_attributionWindowHours cfg) as [h|]; [|discriminate].
  destruct (_ || _); [now intros [= <-]|discriminate].
Qed.

(** [initialize] on a fresh facade, step by step: the validation, then
    the managers, then [reportInstall], whose throw leaves the facade
    with its managers and counting as initialized. *)
Lemma initialize_run (cfg : LinkFortyConfig) w :
  LinkFortySDK.initialize member as_InstallAttributionResponse parse_URL
    device cfg (LinkFortySDK.new, w)
  = match fst (validateConfig parse_URL cfg tt) with
    | Returns _ =>
        let held := loaded_view EventQueue.new (disk w) in
        match AttributionManager.reportInstall as_InstallAttributionResponse
                {| AttributionManager.network :=
                     NetworkManager.protocol member
                       (NetworkManager.new (cfg_baseUrl cfg) (cfg_apiKey cfg));
                   AttributionManager.fingerprint :=
                     FingerprintCollector.protocol device |}
                (default 168 (cfg_attributionWindowHours cfg)) None w with
        | (Returns r, w') =>
            (Returns r, (initialized member device cfg held (deferred_data r), w'))
        | (Throws e, w') => (Throws e, (interrupted member device cfg held, w'))
        | (OutOfFuel, w') => (OutOfFuel, (interrupted member device cfg held, w'))
        end
    | Throws e => (Throws e, (LinkFortySDK.new, w))
    | OutOfFuel => (OutOfFuel, (LinkFortySDK.new, w))
    end.
Proof.
  unfold LinkFortySDK.initialize. unfold bind at 1, gets at 1.
  cbn [fst snd LinkFortySDK.new LinkFortySDK._isInitialized].
  unfold bind at 1. rewrite validateConfig_any_state.
  destruct (fst (validateConfig parse_URL cfg tt)) as [[]|e|]; try reflexivity.
  unfold bind at 1, LinkFortySDK.update at 1, modify. cbn [fst snd].
  unfold bind at 1. rewrite load_spec. cbn [fst snd]. rewrite set_disk_same.
  unfold bind at 1, LinkFortySDK.update at 1, modify. cbn [fst snd].
  unfold bind at 1, LinkFortySDK.in_world, zoom. cbn [fst snd]. cbn zeta.
  destruct (AttributionManager.reportInstall _ _ _ _ w) as [[r|e|] w'];
    try reflexivity.
  unfold bind at 1, LinkFortySDK.on_handler. cbn [fst snd].
  unfold deferred_data, initialized.
  destruct (attributed r), (deepLinkData r);
    unfold bind at 1; rewrite deliverDeferredDeepLink_spec;
    unfold DeepLinkHandler.startListening, DeepLinkHandler.update, modify, ret;
    cbn; rewrite with_deferred_calls_nil; reflexivity.
Qed.

(** C9, as amended. A facade that has not got past the validation of
    initialize() (a fresh one, one whose initialize() was refused with
    INVALID_CONFIGURATION, and any one after reset()) is the
    uninitialized facade. On it the read accessors degrade: getInstallId
    and getInstallData answer null, isFirstLaunch answers true, none of
    them throws, and queuedEventCount is 0; trackEvent, trackRevenue,
    flushEvents, clearEventQueue, onDeferredDeepLink, onDeepLink,
    handleDeepLink and createLink throw a NOT_INITIALIZED error. None of
    these calls changes anything. *)
Theorem uninitialized_facade_degrades_or_throws s w
    (cfg : LinkFortyConfig) (name currency url : string) (amount : float)
    (properties : option (gmap string JsValue)) (callback : Callback)
    (options : CreateLinkOptions) :
  let u : SDKState := (LinkFortySDK.new, w) in
  LinkFortySDK.reset s = (Returns tt, (LinkFortySDK.new, snd s)) /\
  (forall e,
      fst (validateConfig parse_URL cfg tt) = Throws e ->
      LinkFortySDK.initialize member as_InstallAttributionResponse parse_URL
        device cfg u = (Throws e, u)) /\
  (forall e s',
      LinkFortySDK.initialize member as_InstallAttributionResponse parse_URL
        device cfg u = (Throws e, s') ->
      code e = Some INVALID_CONFIGURATION -> s' = u) /\
  LinkFortySDK.isInitialized (fst u) = false /\
  LinkFortySDK.getInstallId u = (Returns None, u) /\
  LinkFortySDK.getInstallData u = (Returns None, u) /\
  LinkFortySDK.isFirstLaunch u = (Returns true, u) /\
  LinkFortySDK.queuedEventCount (fst u) = 0%nat /\
  code notInitialized = Some NOT_INITIALIZED /\
  LinkFortySDK.trackEvent name properties u = (Throws notInitialized, u) /\
  LinkFortySDK.trackRevenue amount currency properties u = (Throws notInitialized, u) /\
  LinkFortySDK.flushEvents u = (Throws notInitialized, u) /\
  LinkFortySDK.clearEventQueue u = (Throws notInitialized, u) /\
  LinkFortySDK.onDeferredDeepLink callback u = (Throws notInitialized, u) /\
  LinkFortySDK.onDeepLink callback u = (Throws notInitialized, u) /\
  LinkFortySDK.handleDeepLink as_DeepLinkData parseDeepLinkUrl
    parseUrlString_pathname buildQueryString url u = (Throws notInitialized, u) /\
  LinkFortySDK.createLink member options u = (Throws notInitialized, u).
Proof.
  intros u. split; [apply reset_spec|]. split; [|split].
  - intros e He. unfold u. now rewrite initialize_run, He.
  - intros e s' H Hcode. unfold u in H. rewrite initialize_run in H.
    destruct (fst (validateConfig parse_URL cfg tt)) as [[]|e0|];
      [|now injection H as _ <-|discriminate].
    cbn zeta in H.
    destruct (AttributionManager.reportInstall _ _ _ _ w) as [[r|e1|] w'] eqn:Hr;
      [discriminate| |discriminate].
    injection H as <- <-.
    apply reportInstall_throws in Hr as (_ & [(Hc & _)|(fp & j & n' & _ & _ & _ & -> & _)]);
      discriminate.
  - repeat split.
Qed.

End FacadeFacts.

(** C9 fails as stated: with a valid configuration and an install
    request answered with null, initialize() does not succeed (it throws
    the TypeError of reportInstall), and yet the facade counts as
    initialized afterwards: onDeepLink, onDeferredDeepLink and
    flushEvents return where the claim has them throw NOT_INITIALIZED. *)
Lemma failed_initialize_leaves_facade_initialized :
  let cfg := {| cfg_baseUrl := "https://go.example.com"; cfg_apiKey := None;
                debug := None; cfg_attributionWindowHours := None |} in
  let member := fun (k : string) (j : option Doc) =>
                  match j with Some d => doc_member k d | None => None end in
  let w : World (NetworkManager.Net (option Doc)) :=
    world_of empty_storage
      {| NetworkManager.upcoming :=
           [responds 200 (NetworkManager.JsonResolves None)];
         NetworkManager.fallback := NetworkManager.FetchRejects (JsError "offline");
         NetworkManager.trace := [] |} in
  let run := LinkFortySDK.initialize member (option_map unattributed_install)
               simple_URL example_device cfg (LinkFortySDK.new, w) in
  fst run = Throws (cannotReadNull "installId") /\
  LinkFortySDK.isInitialized (fst (snd run)) = true /\
  fst (LinkFortySDK.onDeepLink 1%nat (snd run)) = Returns tt /\
  fst (LinkFortySDK.onDeferredDeepLink 1%nat (snd run)) = Returns tt /\
  fst (LinkFortySDK.flushEvents (snd run)) = Returns tt.
Proof. intros cfg member w run. repeat split. Qed.

(* ===================================================================== *)
(** * Further properties of the offline queue *)
(* ===================================================================== *)

Lemma dequeue_n_view (v : list EventRequest) (s : EventQueue.St) :
  loaded_view (fst s) (snd s) = v ->
  fst (dequeue_n (length v) s) = map (fun e => Returns (Some e)) v /\
  loaded_view (fst (snd (dequeue_n (length v) s))) (snd (snd (dequeue_n (length v) s)))
  = [].
Proof.
  revert s. induction v as [|e rest IH]; intros s Hv.
  - cbn. auto.
  - cbn [length dequeue_n]. rewrite dequeue_spec, Hv.
    specialize (IH (loaded_with rest, persisted rest (snd s)) eq_refl).
    destruct (dequeue_n (length rest) _) as [rs s2]. cbn [fst snd map] in *.
    destruct IH as [-> ->]. auto.
Qed.

Lemma enqueue_all_view (events : list EventRequest) (s : EventQueue.St) :
  (length (loaded_view (fst s) (snd s)) + length events
   <= EventQueue.MAX_QUEUE_SIZE)%nat ->
  loaded_view (fst (snd (enqueue_all events s))) (snd (snd (enqueue_all events s)))
  = loaded_view (fst s) (snd s) ++ events /\
  fst (enqueue_all events s) = repeat (Returns true) (length events).
Proof.
  intros Hroom. destruct events as [|e rest] eqn:E.
  - cbn. now rewrite app_nil_r.
  - rewrite <- E in *. assert (Hne : events <> []) by (subst; discriminate).
    rewrite (enqueue_all_loads events s Hne).
    rewrite enqueue_all_room by assumption. auto.
Qed.

(** X1. The queue is first in, first out: after enqueueing records that
    fit, as many dequeues as there are records return the records held
    before followed by the new ones, in the order they were enqueued; the
    queue is then empty and one more dequeue answers null. *)
Theorem queue_is_first_in_first_out
    (events : list EventRequest) (s0 : EventQueue.St) :
  let held := loaded_view (fst s0) (snd s0) in
  (length held + length events <= 100)%nat ->
  let s1 := snd (enqueue_all events s0) in
  let drained := dequeue_n (length (held ++ events)) s1 in
  fst drained = map (fun e => Returns (Some e)) (held ++ events) /\
  loaded_view (fst (snd drained)) (snd (snd drained)) = [] /\
  fst (EventQueue.dequeue (snd drained)) = Returns None.
Proof.
  intros held Hroom s1 drained.
  destruct (enqueue_all_view events s0 Hroom) as [Hview _].
  destruct (dequeue_n_view (held ++ events) s1 Hview) as [H1 H2].
  split; [exact H1|]. split; [exact H2|].
  rewrite dequeue_spec. fold drained in H2. now rewrite H2.
Qed.

Lemma queue_is_first_in_first_out_witness :
  let s0 := (EventQueue.new, persisted [makeEvent "old"] empty_storage) in
  let s1 := snd (enqueue_all [makeEvent "first"; makeEvent "second"] s0) in
  fst (dequeue_n 3 s1)
  = [Returns (Some (makeEvent "old")); Returns (Some (makeEvent "first"));
     Returns (Some (makeEvent "second"))].
Proof.
  intros s0 s1.
  destruct (queue_is_first_in_first_out [makeEvent "first"; makeEvent "second"] s0)
    as (H & _).
  - vm_compute. lia.
  - exact H.
Defined.

(* ===================================================================== *)
(** * Further properties of the event dispatcher *)
(* ===================================================================== *)

Section TrackerMore.
Context {N J : Type}.
Implicit Types (tr : EventTracker.t N J) (w : World N).

Lemma blank_name_stops (name : string) :
  trim name = EmptyString ->
  is_empty_string name || is_empty_string (trim name) = true.
Proof. intros ->. apply orb_true_r. Qed.

(** X3. The guards of the dispatcher come before everything else and
    leave everything as it is: a blank event name is refused with
    INVALID_EVENT_DATA; a name that is not blank is refused with
    NOT_INITIALIZED when no (or an empty) install id is cached; a revenue
    amount below zero is refused with INVALID_EVENT_DATA, whether an
    install id is cached or not. In each case no request is made and
    nothing is queued. *)
Theorem track_guards_refuse_without_effect tr w (name currency : string)
    (amount : float) (properties : option (gmap string JsValue)) :
  (trim name = EmptyString ->
   EventTracker.trackEvent name properties (tr, w)
   = (Throws (invalidEventData "Event name cannot be empty"), (tr, w))) /\
  (trim name <> EmptyString -> truthy (install_id (disk w)) = false ->
   EventTracker.trackEvent name properties (tr, w)
   = (Throws notInitialized, (tr, w))) /\
  (PrimFloat.ltb amount 0 = true ->
   EventTracker.trackRevenue amount currency properties (tr, w)
   = (Throws (invalidEventData "Revenue amount must be non-negative"), (tr, w))) /\
  code (invalidEventData "Event name cannot be empty") = Some INVALID_EVENT_DATA /\
  code (invalidEventData "Revenue amount must be non-negative")
  = Some INVALID_EVENT_DATA.
Proof.
  split; [|split; [|split; [|split; reflexivity]]].
  - intros Hblank. unfold EventTracker.trackEvent.
    now rewrite (blank_name_stops name Hblank).
  - intros Hname Hid. unfold EventTracker.trackEvent.
    rewrite (valid_name_passes name Hname).
    unfold bind at 1. unfold EventTracker.in_world, on_disk, zoom,
      StorageManager.getInstallId, gets at 1. cbn [fst snd].
    replace (set_disk (disk w) w) with w by (destruct w; reflexivity).
    destruct (install_id (disk w)) as [[|c id']|]; try reflexivity.
    discriminate.
  - intros Hneg. unfold EventTracker.trackRevenue. now rewrite Hneg.
Qed.

(** X4. When the send succeeds and so does every send of the courtesy
    flush, trackEvent returns with the queue drained: the requests made
    are the new record first and then the queued records, oldest first,
    and the queue is empty afterwards. *)
Theorem track_success_drains_queue tr w (name id : string)
    (properties : option (gmap string JsValue)) (n' : N) :
  trim name <> EmptyString ->
  install_id (disk w) = Some id -> id <> EmptyString ->
  let event := event_of id name properties w in
  let queued := loaded_view (EventTracker.queue tr) (disk w) in
  net_after (EventTracker.network tr) (event :: queued) (net w) = Some n' ->
  let result := EventTracker.trackEvent name properties (tr, w) in
  fst result = Returns tt /\
  EventTracker.queue (fst (snd result)) = loaded_with [] /\
  requests (snd (snd result))
  = requests w ++ map event_request (event :: queued) /\
  net (snd (snd result)) = n'.
Proof.
  intros Hname Hid Hne event queued Hnet result. unfold result.
  rewrite (trackEvent_spec tr w name id) by assumption. cbn zeta. fold event.
  rewrite send_on_spec. cbn [net_after] in Hnet.
  destruct (request _ _ _ _) as [[e|j] n1]; [discriminate|]. cbn [fst snd].
  rewrite flushQueue_spec. cbn zeta. cbn [disk]. fold queued.
  lazymatch goal with
  | |- context [flush_from _ queued ?w1] =>
      destruct (flush_from_all_sent (EventTracker.network tr) queued w1 n' Hnet)
        as (H1 & H2 & H3)
  end.
  cbn [fst snd]. rewrite H1, H2, H3. cbn [requests map].
  rewrite <- app_assoc. repeat split.
Qed.


Lemma flush_from_requests_grow (network : NetworkManagerProtocol N J)
    (l : list EventRequest) w :
  exists more, requests (snd (flush_from network l w)) = requests w ++ more.
Proof.
  revert w. induction l as [|event rest IH]; intros w.
  - exists []. cbn. now rewrite app_nil_r.
  - cbn [flush_from]. rewrite send_on_spec. cbn [disk set_disk].
    destruct (request _ _ _ _) as [[e|j] n1]; cbn [fst snd].
    + destruct (_ <=? _)%nat; cbn [snd requests set_disk]; eauto.
    + lazymatch goal with
      | |- context [flush_from network rest ?w2] => destruct (IH w2) as [more Hm]
      end.
      rewrite Hm. cbn [requests]. rewrite <- app_assoc. eauto.
Qed.

(** X6. The record trackRevenue sends is named 'revenue' and carries the
    amount under 'revenue' and the currency under 'currency', in place of
    properties of the caller with these names; every other property of
    the caller is carried unchanged. It is the first request the call
    makes. *)
Theorem revenue_event_carries_amount_and_currency tr w (id currency key : string)
    (amount : float) (properties : option (gmap string JsValue)) :
  PrimFloat.leb 0 amount = true ->
  install_id (disk w) = Some id -> id <> EmptyString ->
  exists event,
    requests (snd (snd (EventTracker.trackRevenue amount currency properties (tr, w))))
      !! length (requests w) = Some (event_request event) /\
    eventName event = "revenue" /\
    ev_installId event = id /\
    timestamp event = now w /\
    eventData event !! "revenue" = Some (JsNumber amount) /\
    eventData event !! "currency" = Some (JsString currency) /\
    (key <> "revenue" -> key <> "currency" ->
     eventData event !! key = default ∅ properties !! key).
Proof.
  intros Hamount Hid Hne.
  exists (event_of id "revenue" (revenue_properties amount currency properties) w).
  split.
  - rewrite trackRevenue_spec by assumption.
    rewrite (trackEvent_spec tr w "revenue" id) by (assumption || discriminate).
    cbn zeta. rewrite send_on_spec.
    destruct (request _ _ _ _) as [[e|j] n1]; cbn [fst snd].
    + destruct (_ <=? _)%nat; cbn [snd requests set_disk];
        now rewrite lookup_app_r, Nat.sub_diag by lia.
    + rewrite flushQueue_spec. cbn zeta. cbn [snd].
      lazymatch goal with
      | |- context [flush_from ?nw ?l ?w1] =>
          destruct (flush_from_requests_grow nw l w1) as [more Hm]
      end.
      rewrite Hm. cbn [requests]. rewrite <- app_assoc.
      now rewrite lookup_app_r, Nat.sub_diag by lia.
  - unfold event_of, revenue_properties. cbn [eventName ev_installId timestamp
      eventData default].
    repeat split; cbv [Datatypes.id].
    + rewrite lookup_insert_ne by discriminate. apply lookup_insert_eq.
    + apply lookup_insert_eq.
    + intros H1 H2. now rewrite !lookup_insert_ne by congruence.
Qed.

End TrackerMore.

Lemma track_success_drains_queue_witness :
  let tr := scripted_tracker [makeEvent "a"; makeEvent "b"] in
  let w := world_of installed_storage [true; true; true] in
  let result := EventTracker.trackEvent "purchase" None (tr, w) in
  fst result = Returns tt /\
  map (fun r => body (snd r)) (requests (snd (snd result)))
  = [Some (JsonOfEvent (event_of "install-1" "purchase" None w));
     Some (JsonOfEvent (makeEvent "a")); Some (JsonOfEvent (makeEvent "b"))] /\
  EventTracker.queuedEventCount (fst (snd result)) = 0%nat.
Proof.
  intros tr w result.
  destruct (track_success_drains_queue tr w "purchase" "install-1" None [])
    as (H1 & H2 & H3 & _).
  - intros H. vm_compute in H. discriminate.
  - reflexivity.
  - discriminate.
  - reflexivity.
  - fold result in H1, H2, H3. split; [exact H1|]. split.
    + rewrite H3. reflexivity.
    + unfold EventTracker.queuedEventCount. rewrite H2. reflexivity.
Defined.

Lemma revenue_event_carries_amount_and_currency_witness :
  let tr := scripted_tracker [] in
  let w := world_of installed_storage [false] in
  let props : option (gmap string JsValue) :=
    Some (<[ "revenue" := JsString "mine" ]> (<[ "product" := JsString "premium" ]> ∅)) in
  exists event,
    requests (snd (snd (EventTracker.trackRevenue 9.5 "USD" props (tr, w)))) !! 0%nat
    = Some (event_request event) /\
    eventData event !! "revenue" = Some (JsNumber 9.5) /\
    eventData event !! "product" = Some (JsString "premium").
Proof.
  intros tr w props.
  destruct (revenue_event_carries_amount_and_currency tr w "install-1" "USD"
              "product" 9.5 props) as (event & H1 & _ & _ & _ & H2 & _ & H3).
  - reflexivity.
  - reflexivity.
  - discriminate.
  - exists event. split; [exact H1|]. split; [exact H2|].
    rewrite H3 by discriminate. reflexivity.
Defined.

(* ===================================================================== *)
(** * Further properties of the transport *)
(* ===================================================================== *)

Lemma strip_trailing_slashes_splits (s : string) :
  exists n, s = NetworkManager.strip_trailing_slashes s +:+ slashes n.
Proof.
  induction s as [|c s' [n IH]]; [now exists 0%nat|].
  cbn [NetworkManager.strip_trailing_slashes].
  destruct (NetworkManager.strip_trailing_slashes s') as [|c' t] eqn:E.
  - change (s' = slashes n) in IH. destruct (Ascii.eqb c "/") eqn:Ec.
    + apply Ascii.eqb_eq in Ec. subst c. exists (S n).
      change (String "/" s' = String "/" (slashes n)). now rewrite <- IH.
    + exists n. change (String c s' = String c (slashes n)). now rewrite <- IH.
  - exists n. change (String c s' = String c (String c' t +:+ slashes n)).
    now rewrite <- IH.
Qed.

Lemma strip_trailing_slashes_last (s : string) :
  last_char (NetworkManager.strip_trailing_slashes s) <> Some "/"%char.
Proof.
  induction s as [|c s' IH]; [discriminate|].
  cbn [NetworkManager.strip_trailing_slashes].
  destruct (NetworkManager.strip_trailing_slashes s') as [|c' t] eqn:E.
  - destruct (Ascii.eqb c "/") eqn:Ec; [discriminate|].
    apply Ascii.eqb_neq in Ec. cbn. congruence.
  - exact IH.
Qed.

Lemma strip_trailing_slashes_fixed (s : string) :
  last_char s <> Some "/"%char -> NetworkManager.strip_trailing_slashes s = s.
Proof.
  induction s as [|c s' IH]; [reflexivity|]. intros Hlast.
  cbn [NetworkManager.strip_trailing_slashes].
  destruct s' as [|c' t].
  - cbn in *. destruct (Ascii.eqb c "/") eqn:Ec; [|reflexivity].
    apply Ascii.eqb_eq in Ec. congruence.
  - rewrite IH by exact Hlast. reflexivity.
Qed.

(** X7. The base URL a NetworkManager keeps is the configured one without
    its trailing slashes, and nothing else is removed: the configured URL
    is the kept one followed by slashes only, the kept one does not end
    with a slash, and normalizing again changes nothing. *)
Theorem base_url_without_trailing_slashes (url : string) (key : option string) :
  let kept := NetworkManager.baseUrl (NetworkManager.new url key) in
  (exists n, url = kept +:+ slashes n) /\
  last_char kept <> Some "/"%char /\
  NetworkManager.baseUrl (NetworkManager.new kept key) = kept.
Proof.
  cbn. split; [apply strip_trailing_slashes_splits|].
  split; [apply strip_trailing_slashes_last|].
  apply strip_trailing_slashes_fixed, strip_trailing_slashes_last.
Qed.

Section TransportMore.
Context {J : Type}.
Variable member : string -> J -> option string.
Local Abbreviation Net := (NetworkManager.Net J).
Implicit Types (nm : NetworkManager.t) (n : Net) (o : NetworkManager.FetchOutcome J).

(** X8. Every call of fetch goes to the base URL followed by the endpoint
    and carries the caller's method and body. Its headers are the
    caller's, with Content-Type application/json unless the caller gives
    a Content-Type, and with Authorization 'Bearer <key>' in place of any
    Authorization of the caller exactly when a non-empty API key is
    configured. *)
Theorem fetch_carries_json_and_bearer_headers nm (endpoint : string)
    (options : RequestInit) n (name : string) :
  exists init,
    NetworkManager.trace
      (snd (NetworkManager.performRequest member nm endpoint options n))
    = NetworkManager.trace n
      ++ [NetworkManager.Fetched (NetworkManager.baseUrl nm +:+ endpoint) init] /\
    method init = method options /\
    body init = body options /\
    headers init !! "Content-Type"
    = Some (default "application/json" (headers options !! "Content-Type")) /\
    headers init !! "Authorization"
    = (if truthy (NetworkManager.apiKey nm)
       then Some ("Bearer " +:+ default "" (NetworkManager.apiKey nm))
       else headers options !! "Authorization") /\
    (name <> "Content-Type" -> name <> "Authorization" ->
     headers init !! name = headers options !! name).
Proof.
  exists (fetch_init nm options). rewrite performRequest_spec.
  split; [reflexivity|]. split; [reflexivity|]. split; [reflexivity|].
  unfold fetch_init. cbn [headers].
  assert (Hct : (headers options ∪ ({[ "Content-Type" := "application/json" ]}
                                    : gmap string string)) !! "Content-Type"
                = Some (default "application/json" (headers options !! "Content-Type"))).
  { rewrite lookup_union. destruct (headers options !! "Content-Type") eqn:E.
    - rewrite lookup_singleton_eq. reflexivity.
    - rewrite lookup_singleton_eq. reflexivity. }
  assert (Hother : forall k, k <> "Content-Type" ->
            (headers options ∪ ({[ "Content-Type" := "application/json" ]}
                                : gmap string string)) !! k
            = headers options !! k).
  { intros k Hk. rewrite lookup_union, lookup_singleton_ne by congruence.
    now destruct (headers options !! k). }
  destruct (NetworkManager.apiKey nm) as [[|c k]|]; cbn [truthy default].
  - split; [exact Hct|]. split; [now apply Hother|]. intros H1 _. now apply Hother.
  - split; [now rewrite lookup_insert_ne|]. split; [apply lookup_insert_eq|].
    intros H1 H2. rewrite lookup_insert_ne by congruence. now apply Hother.
  - split; [exact Hct|]. split; [now apply Hother|]. intros H1 _. now apply Hother.
Qed.

Lemma request_trace_shape nm (endpoint : string)
    (options : RequestInit) n :
  let fetched :=
    NetworkManager.Fetched (NetworkManager.baseUrl nm +:+ endpoint)
      (fetch_init nm options) in
  let after := snd (NetworkManager.request member nm endpoint options n) in
  (NetworkManager.trace after = NetworkManager.trace n ++ [fetched] /\
   NetworkManager.upcoming after = drop 1 (NetworkManager.upcoming n)) \/
  (NetworkManager.trace after
   = NetworkManager.trace n ++ [fetched; NetworkManager.Slept 1000; fetched] /\
   NetworkManager.upcoming after = drop 2 (NetworkManager.upcoming n)) \/
  (NetworkManager.trace after
   = NetworkManager.trace n
     ++ [fetched; NetworkManager.Slept 1000; fetched;
         NetworkManager.Slept 2000; fetched] /\
   NetworkManager.upcoming after = drop 3 (NetworkManager.upcoming n)).
Proof.
  intros fetched after. unfold after, NetworkManager.request, NetworkManager.maxRetries.
  assert (Hdrop : forall (l : list (NetworkManager.FetchOutcome J)) k,
             tl (drop k l) = drop (S k) l).
  { intros l k. revert l. induction k as [|k IH]; intros [|x l]; cbn; auto. }
  rewrite request_loop_step.
  destruct (attempt_result member (next_outcome n)) as [j|e|];
    [left; split; [reflexivity | apply (Hdrop _ 0%nat)] | |
     left; split; [reflexivity | apply (Hdrop _ 0%nat)]].
  destruct (_ || _); [left; split; [reflexivity | apply (Hdrop _ 0%nat)]|].
  right. rewrite request_loop_step.
  set (n1 := after_failed_attempt nm endpoint options 1 n).
  assert (H1 : NetworkManager.trace (after_fetch nm endpoint options n1)
               = NetworkManager.trace n ++ [fetched; NetworkManager.Slept 1000; fetched]).
  { unfold n1, after_failed_attempt, after_fetch, after_delay. cbn.
    now rewrite <- !app_assoc. }
  assert (U1 : NetworkManager.upcoming (after_fetch nm endpoint options n1)
               = drop 2 (NetworkManager.upcoming n)).
  { unfold n1, after_failed_attempt, after_fetch, after_delay. cbn.
    now rewrite <- (Hdrop _ 1%nat), <- (Hdrop _ 0%nat). }
  destruct (attempt_result member (next_outcome n1)) as [j|e1|];
    [left; auto | | left; auto].
  destruct (_ || _); [left; auto|].
  right. rewrite request_loop_step.
  set (n2 := after_failed_attempt nm endpoint options 2 n1).
  assert (H2 : NetworkManager.trace (after_fetch nm endpoint options n2)
               = NetworkManager.trace n
                 ++ [fetched; NetworkManager.Slept 1000; fetched;
                     NetworkManager.Slept 2000; fetched]).
  { unfold n2, n1, after_failed_attempt, after_fetch, after_delay. cbn.
    now rewrite <- !app_assoc. }
  assert (U2 : NetworkManager.upcoming (after_fetch nm endpoint options n2)
               = drop 3 (NetworkManager.upcoming n)).
  { unfold n2, after_failed_attempt, after_fetch, after_delay. cbn.
    change (tl (NetworkManager.upcoming (after_fetch nm endpoint options n1))
            = drop 3 (NetworkManager.upcoming n)).
    rewrite U1. apply (Hdrop _ 2%nat). }
  destruct (attempt_result member (next_outcome n2)) as [j|e2|]; auto.
  destruct (_ || _); auto.
  cbn [NetworkManager.request_loop].
  unfold after_failed_attempt at 1. cbn [NetworkManager.maxRetries Nat.ltb Nat.leb].
  destruct e2; auto.
Qed.

(** X9. A request makes one, two or three fetches and nothing else but
    the waits between them: 1000 ms before a second fetch and 2000 ms
    before a third. It never waits after its last fetch, so it never
    waits 4000 ms. *)
Theorem request_fetches_at_most_three_times nm (endpoint : string)
    (options : RequestInit) n :
  let fetched :=
    NetworkManager.Fetched (NetworkManager.baseUrl nm +:+ endpoint)
      (fetch_init nm options) in
  let after := snd (NetworkManager.request member nm endpoint options n) in
  (NetworkManager.trace after = NetworkManager.trace n ++ [fetched] /\
   NetworkManager.upcoming after = drop 1 (NetworkManager.upcoming n)) \/
  (NetworkManager.trace after
   = NetworkManager.trace n ++ [fetched; NetworkManager.Slept 1000; fetched] /\
   NetworkManager.upcoming after = drop 2 (NetworkManager.upcoming n)) \/
  (NetworkManager.trace after
   = NetworkManager.trace n
     ++ [fetched; NetworkManager.Slept 1000; fetched;
         NetworkManager.Slept 2000; fetched] /\
   NetworkManager.upcoming after = drop 3 (NetworkManager.upcoming n)).
Proof. apply request_trace_shape. Qed.

Lemma attempt_result_kind o (e : Error) :
  attempt_result member o = Throws e ->
  code e = Some NETWORK_ERROR \/ code e = Some INVALID_RESPONSE
  \/ code e = Some DECODING_ERROR.
Proof.
  destruct o as [e0|r]; cbn.
  - intros [= <-]. now left.
  - destruct (NetworkManager.ok r).
    + destruct (NetworkManager.json r); intros [= <-]. now right; right.
    + intros [= <-]. now right; left.
Qed.

Lemma request_loop_kind nm (endpoint : string) (options : RequestInit)
    (remaining attempt : nat) (lastError : option Error) n :
  (forall e, lastError = Some e ->
     code e = Some NETWORK_ERROR \/ code e = Some INVALID_RESPONSE
     \/ code e = Some DECODING_ERROR) ->
  match fst (NetworkManager.request_loop member nm endpoint options remaining
               attempt lastError n) with
  | Returns _ => True
  | Throws e =>
      code e = Some NETWORK_ERROR \/ code e = Some INVALID_RESPONSE
      \/ code e = Some DECODING_ERROR
  | OutOfFuel => False
  end.
Proof.
  revert attempt lastError n.
  induction remaining as [|remaining IH]; intros attempt lastError n Hlast.
  - cbn [NetworkManager.request_loop].
    destruct lastError as [[m|c m ca]|]; cbn; [now left| |now left].
    exact (Hlast _ eq_refl).
  - rewrite request_loop_step.
    destruct (attempt_result member (next_outcome n)) as [j|e|] eqn:E.
    + exact I.
    + pose proof (attempt_result_kind _ _ E) as He.
      destruct (_ || _); [exact He|].
      apply IH. now intros e' [= <-].
    + now apply attempt_result_settles in E.
Qed.

(** X10. A request either returns a document or throws a LinkFortyError
    whose code is NETWORK_ERROR, INVALID_RESPONSE or DECODING_ERROR: what
    fetch or the body parser reject with never reaches the caller
    unwrapped, and the request always settles. *)
Theorem request_throws_only_transport_errors nm (endpoint : string)
    (options : RequestInit) n :
  match fst (NetworkManager.request member nm endpoint options n) with
  | Returns _ => True
  | Throws e =>
      code e = Some NETWORK_ERROR \/ code e = Some INVALID_RESPONSE
      \/ code e = Some DECODING_ERROR
  | OutOfFuel => False
  end.
Proof.
  unfold NetworkManager.request. apply request_loop_kind. discriminate.
Qed.

(** X11. A response with a status in 200-299 ends the request at its
    fetch, also when its body cannot be decoded: the decoded body is
    returned, or a DECODING_ERROR that wraps the parser's error is thrown,
    and in both cases there is no retry and no wait. *)
Theorem success_status_ends_request nm (endpoint : string)
    (options : RequestInit) n (st : nat) (jr : NetworkManager.JsonResult J) :
  next_outcome n = responds st jr ->
  (200 <= st <= 299)%nat ->
  NetworkManager.request member nm endpoint options n
  = (match jr with
     | NetworkManager.JsonResolves j => Returns j
     | NetworkManager.JsonRejects e => Throws (decodingError e)
     end,
     after_fetch nm endpoint options n).
Proof.
  intros Hnext Hst. unfold NetworkManager.request, NetworkManager.maxRetries.
  rewrite request_loop_step, Hnext. unfold responds, attempt_result.
  unfold NetworkManager.ok. cbn [NetworkManager.status NetworkManager.json].
  replace ((200 <=? st) && (st <=? 299))%nat with true
    by (symmetry; apply andb_true_intro; split; apply Nat.leb_le; lia).
  destruct jr as [j|e]; reflexivity.
Qed.

End TransportMore.

Lemma success_status_ends_request_witness :
  NetworkManager.request doc_member example_manager "/api/sdk/v1/event" no_options
    (network_of [responds 204 (NetworkManager.JsonRejects (JsError "Unexpected end of JSON input"))])
  = (Throws (decodingError (JsError "Unexpected end of JSON input")),
     after_fetch example_manager "/api/sdk/v1/event" no_options
       (network_of [responds 204 (NetworkManager.JsonRejects (JsError "Unexpected end of JSON input"))])).
Proof.
  apply (success_status_ends_request doc_member example_manager
           "/api/sdk/v1/event" no_options _ 204%nat
           (NetworkManager.JsonRejects (JsError "Unexpected end of JSON input"))).
  - reflexivity.
  - lia.
Defined.

(* ===================================================================== *)
(** * Further properties of the attribution coordinator *)
(* ===================================================================== *)

Section AttributionMore.
Context {N J : Type}.
Variable as_InstallAttributionResponse : J -> option InstallAttributionResponse.
Implicit Types (am : AttributionManager.t N J) (w : World N).

(** X12. When the install request of a first launch fails, reportInstall
    still returns: the organic answer. It has made that one request, set
    the launch flag and left the other entries of the store alone, so the
    install is not reported again: every later reportInstall answers from
    the store without a request. *)
Theorem failed_install_report_is_not_repeated am (windowHours : Z)
    (deviceId : option string) w (fp : DeviceFingerprint) (e : Error) :
  first_launch (disk w) = None ->
  collect (AttributionManager.fingerprint am) windowHours deviceId = inr fp ->
  fst (request (AttributionManager.network am) (fst (install_request fp))
         (snd (install_request fp)) (net w)) = inl e ->
  exists w1,
    AttributionManager.reportInstall as_InstallAttributionResponse am windowHours
      deviceId w = (Returns organic_response, w1) /\
    requests w1 = requests w ++ [install_request fp] /\
    first_launch (disk w1) = Some "true" /\
    install_id (disk w1) = install_id (disk w) /\
    install_data (disk w1) = install_data (disk w) /\
    event_queue (disk w1) = event_queue (disk w) /\
    forall am2 (windowHours2 : Z) (deviceId2 : option string),
      AttributionManager.reportInstall as_InstallAttributionResponse am2
        windowHours2 deviceId2 w1
      = (Returns (cached_response (disk w)), w1).
Proof.
  intros Hflag Hfp Hreq.
  rewrite reportInstall_first_launch by exact Hflag. rewrite Hfp.
  destruct (request _ _ _ _) as [[e'|j] n']; cbn [fst] in Hreq; [|discriminate].
  eexists. split; [reflexivity|].
  do 5 (split; [reflexivity|]).
  intros am2 windowHours2 deviceId2.
  rewrite reportInstall_repeat by (cbn; discriminate).
  reflexivity.
Qed.


(** X14. After clearData the next reportInstall is a first launch again:
    whatever the store held, it sends the install request. *)
Theorem clearData_makes_next_launch_first am (windowHours : Z)
    (deviceId : option string) w (fp : DeviceFingerprint) :
  collect (AttributionManager.fingerprint am) windowHours deviceId = inr fp ->
  requests
    (snd (AttributionManager.reportInstall as_InstallAttributionResponse am
            windowHours deviceId (snd (AttributionManager.clearData w))))
  = requests w ++ [install_request fp].
Proof.
  intros Hfp. unfold AttributionManager.clearData, on_disk, zoom,
    StorageManager.clearAll, modify. cbn [fst snd].
  rewrite reportInstall_first_launch by reflexivity. rewrite Hfp.
  cbn [net set_disk].
  destruct (request _ _ _ _) as [[e|j] n']; [reflexivity|].
  destruct (as_InstallAttributionResponse j) as [response|]; reflexivity.
Qed.


End AttributionMore.

Lemma failed_install_report_is_not_repeated_witness :
  exists w1 : World unit,
    AttributionManager.reportInstall Some
      (attribution_over (inl (JsError "Network down")) mock_fingerprint)
      168 None (world_of empty_storage tt)
    = (Returns organic_response, w1) /\
    requests w1 = [] ++ [install_request (mock_fingerprint_of 168 None)] /\
    first_launch (disk w1) = Some "true" /\
    install_id (disk w1) = None /\
    install_data (disk w1) = None /\
    event_queue (disk w1) = None /\
    forall (am2 : AttributionManager.t unit InstallAttributionResponse)
           (windowHours2 : Z) (deviceId2 : option string),
      AttributionManager.reportInstall Some am2 windowHours2 deviceId2 w1
      = (Returns (cached_response empty_storage), w1).
Proof.
  apply (failed_install_report_is_not_repeated Some
           (attribution_over (inl (JsError "Network down")) mock_fingerprint)
           168 None (world_of empty_storage tt) (mock_fingerprint_of 168 None)
           (JsError "Network down")); reflexivity.
Defined.


Lemma clearData_makes_next_launch_first_witness :
  requests
    (snd (AttributionManager.reportInstall Some
            (attribution_over (inl (JsError "Network down")) mock_fingerprint)
            168 None
            (snd (AttributionManager.clearData (world_of installed_storage tt)))))
  = [] ++ [install_request (mock_fingerprint_of 168 None)].
Proof.
  apply (clearData_makes_next_launch_first Some
           (attribution_over (inl (JsError "Network down")) mock_fingerprint)
           168 None (world_of installed_storage tt)
           (mock_fingerprint_of 168 None)).
  reflexivity.
Defined.


(* ===================================================================== *)
(** * Further properties of the deep-link dispatcher *)
(* ===================================================================== *)

Section HandlerMore.
Context {N J : Type}.
Variable as_DeepLinkData : J -> option DeepLinkData.
Variable parseDeepLinkUrl : string -> option string -> option DeepLinkData.
Variable parseUrlString_pathname : string -> option string.
Variable buildQueryString : list (string * string) -> string.
Implicit Types (h : DeepLinkHandler.t N J) (w : World N).

Local Abbreviation handleUrl :=
  (DeepLinkHandler.handleUrl as_DeepLinkData parseDeepLinkUrl
     parseUrlString_pathname buildQueryString).
Local Abbreviation handleUrl_call :=
  (DeepLinkHandler.handleUrl_call as_DeepLinkData parseDeepLinkUrl
     parseUrlString_pathname buildQueryString).
Local Abbreviation endpoint_of :=
  (resolve_endpoint parseUrlString_pathname buildQueryString).

Lemma with_deeplink_calls_nil w : with_deeplink_calls [] w = w.
Proof. destruct w. unfold with_deeplink_calls. cbn. now rewrite app_nil_r. Qed.

Lemma for_each_deeplink (cbs : list Callback) (url : string)
    (data : option DeepLinkData) h w :
  DeepLinkHandler.for_each cbs (fun cb => DeepLinkHandler.call_deeplink cb url data)
    (h, w)
  = (Returns tt, (h, with_deeplink_calls (deeplink_invocations cbs url data) w)).
Proof.
  revert w. induction cbs as [|cb rest IH]; intros w.
  - cbn. now rewrite with_deeplink_calls_nil.
  - cbn [DeepLinkHandler.for_each]. unfold bind at 1.
    unfold DeepLinkHandler.call_deeplink, DeepLinkHandler.in_world, zoom, modify.
    cbn [fst snd]. rewrite IH.
    unfold with_deeplink_calls, log_deeplink. cbn. now rewrite <- app_assoc.
Qed.

Lemma resolveUrl_spec (url : string) h w :
  DeepLinkHandler.resolveUrl as_DeepLinkData parseUrlString_pathname
    buildQueryString url (h, w)
  = match endpoint_of (DeepLinkHandler.fingerprint h) url with
    | None => (Returns None, (h, w))
    | Some ep =>
        match request (DeepLinkHandler.network h) ep no_options (net w) with
        | (inr j, n') =>
            (Returns (as_DeepLinkData j),
             (h, set_net n' (log_request ep no_options w)))
        | (inl _, n') =>
            (Returns None, (h, set_net n' (log_request ep no_options w)))
        end
    end.
Proof.
  unfold DeepLinkHandler.resolveUrl, resolve_endpoint. unfold bind at 1, gets.
  cbn [fst snd].
  destruct (parseUrlString_pathname url) as [pathname|]; [|reflexivity].
  destruct (path_segments pathname) as [|seg0 more]; [reflexivity|].
  unfold bind at 1, try, DeepLinkHandler.in_world, zoom, call_network.
  unfold bind at 1, modify. cbn [fst snd].
  match goal with
  | |- context [request ?nw ?ep ?o ?n] =>
      change n with (net w); destruct (request nw ep o (net w)) as [[e|j] n']
  end; reflexivity.
Qed.

Lemma handleUrl_then_spec (r : DeepLinkHandler.Resolution) h w :
  DeepLinkHandler.handleUrl_then r (h, w)
  = (Returns tt,
     (h, with_deeplink_calls
           (deeplink_invocations (DeepLinkHandler.deepLinkCallbacks h)
              (DeepLinkHandler.pending_url r) (DeepLinkHandler.pending_data r)) w)).
Proof.
  unfold DeepLinkHandler.handleUrl_then. unfold bind at 1, gets. cbn [fst snd].
  apply for_each_deeplink.
Qed.

Lemma handleUrl_call_spec (url : string) h w :
  let cbs := DeepLinkHandler.deepLinkCallbacks h in
  let deliver data :=
    (Returns None, (h, with_deeplink_calls (deeplink_invocations cbs url data) w)) in
  let resolving data w' :=
    (Returns (Some {| DeepLinkHandler.pending_url := url;
                      DeepLinkHandler.pending_data := data |}), (h, w')) in
  handleUrl_call url (h, w)
  = if is_empty_string url || (length cbs =? 0)%nat then (Returns None, (h, w))
    else
      match parseDeepLinkUrl url (Some (DeepLinkHandler.baseUrl h)) with
      | Some d =>
          if String.prefix (DeepLinkHandler.baseUrl h) url then
            match endpoint_of (DeepLinkHandler.fingerprint h) url with
            | None => resolving (Some d) w
            | Some ep =>
                match request (DeepLinkHandler.network h) ep no_options (net w) with
                | (inr j, n') =>
                    resolving (match as_DeepLinkData j with
                               | Some r => Some r
                               | None => Some d
                               end)
                      (set_net n' (log_request ep no_options w))
                | (inl _, n') =>
                    resolving (Some d) (set_net n' (log_request ep no_options w))
                end
            end
          else deliver (Some d)
      | None => deliver None
      end.
Proof.
  intros cbs deliver resolving. unfold DeepLinkHandler.handleUrl_call.
  unfold bind at 1, gets. cbn [fst snd]. fold cbs.
  destruct (is_empty_string url || (length cbs =? 0)%nat); [reflexivity|].
  destruct (parseDeepLinkUrl url (Some (DeepLinkHandler.baseUrl h))) as [d|].
  2: { unfold bind at 1. now rewrite for_each_deeplink. }
  destruct (String.prefix (DeepLinkHandler.baseUrl h) url).
  2: { unfold bind at 1. now rewrite for_each_deeplink. }
  unfold bind at 1, try. rewrite resolveUrl_spec.
  destruct (endpoint_of (DeepLinkHandler.fingerprint h) url) as [ep|];
    [|reflexivity].
  destruct (request _ _ _ _) as [[e|j] n']; [reflexivity|].
  unfold resolving. cbn [ret]. now destruct (as_DeepLinkData j).
Qed.

Lemma handleUrl_spec (url : string) h w :
  let cbs := DeepLinkHandler.deepLinkCallbacks h in
  let deliver data w' :=
    (Returns tt, (h, with_deeplink_calls (deeplink_invocations cbs url data) w')) in
  handleUrl url (h, w)
  = if is_empty_string url || (length cbs =? 0)%nat then (Returns tt, (h, w))
    else
      match parseDeepLinkUrl url (Some (DeepLinkHandler.baseUrl h)) with
      | Some d =>
          if String.prefix (DeepLinkHandler.baseUrl h) url then
            match endpoint_of (DeepLinkHandler.fingerprint h) url with
            | None => deliver (Some d) w
            | Some ep =>
                match request (DeepLinkHandler.network h) ep no_options (net w) with
                | (inr j, n') =>
                    deliver (match as_DeepLinkData j with
                             | Some r => Some r
                             | None => Some d
                             end)
                      (set_net n' (log_request ep no_options w))
                | (inl _, n') =>
                    deliver (Some d) (set_net n' (log_request ep no_options w))
                end
            end
          else deliver (Some d) w
      | None => deliver None w
      end.
Proof.
  intros cbs deliver. unfold DeepLinkHandler.handleUrl. unfold bind at 1.
  rewrite handleUrl_call_spec. cbn zeta. fold cbs.
  destruct (is_empty_string url || (length cbs =? 0)%nat); [reflexivity|].
  destruct (parseDeepLinkUrl url (Some (DeepLinkHandler.baseUrl h))) as [d|];
    [|reflexivity].
  destruct (String.prefix (DeepLinkHandler.baseUrl h) url); [|reflexivity].
  destruct (endpoint_of (DeepLinkHandler.fingerprint h) url) as [ep|];
    [|apply handleUrl_then_spec].
  destruct (request _ _ _ _) as [[e|j] n']; apply handleUrl_then_spec.
Qed.


(** X17. A URL that the local parser accepts never reaches the callbacks
    with null: they get the server's answer when the URL starts with the
    base URL, a resolve request is made and answered with data, and the
    locally parsed data in every other case (another host, no resolve
    endpoint, a failed request, a null answer). *)
Theorem parsed_url_is_never_delivered_as_null (url : string)
    (local : DeepLinkData) h w :
  parseDeepLinkUrl url (Some (DeepLinkHandler.baseUrl h)) = Some local ->
  is_empty_string url = false ->
  DeepLinkHandler.deepLinkCallbacks h <> [] ->
  let resolved :=
    if String.prefix (DeepLinkHandler.baseUrl h) url then
      match endpoint_of (DeepLinkHandler.fingerprint h) url with
      | Some ep =>
          match fst (request (DeepLinkHandler.network h) ep no_options (net w)) with
          | inr j => as_DeepLinkData j
          | inl _ => None
          end
      | None => None
      end
    else None in
  deeplink_calls (snd (snd (handleUrl url (h, w))))
  = deeplink_calls w
    ++ deeplink_invocations (DeepLinkHandler.deepLinkCallbacks h) url
         (Some (default local resolved)).
Proof.
  intros Hlocal Hurl Hcbs resolved. rewrite handleUrl_spec, Hurl, Hlocal.
  cbn [orb].
  destruct (DeepLinkHandler.deepLinkCallbacks h) as [|cb cbs] eqn:E; [congruence|].
  cbn [length Nat.eqb]. subst resolved.
  destruct (String.prefix (DeepLinkHandler.baseUrl h) url); [|reflexivity].
  destruct (endpoint_of (DeepLinkHandler.fingerprint h) url) as [ep|];
    [|reflexivity].
  destruct (request _ _ _ _) as [[e|j] n']; cbn [fst snd]; [reflexivity|].
  destruct (as_DeepLinkData j); reflexivity.
Qed.

End HandlerMore.

(** A resolution under way serves the callbacks of its time: one
    registered after the call is called too, and none is once the
    callbacks have been cleared. *)
Example continuation_serves_callbacks_registered_by_then :
  let url := "https://go.example.com/abc123" in
  let h : DeepLinkHandler.t unit (option DeepLinkData) :=
    fst (snd (DeepLinkHandler.onDeepLink 7%nat
                (DeepLinkHandler.new "https://go.example.com"
                   (constant_network (inr (Some (link_data "from-server"))))
                   mock_fingerprint,
                 world_of empty_storage tt))) in
  let call :=
    DeepLinkHandler.handleUrl_call id (UrlParser.parseDeepLinkUrl decode_escapes)
      (UrlParser.pathname_of decode_escapes) buildQueryString url
      (h, world_of empty_storage tt) in
  let r := {| DeepLinkHandler.pending_url := url;
              DeepLinkHandler.pending_data := Some (link_data "from-server") |} in
  fst call = Returns (Some r) /\
  deeplink_calls (snd (snd call)) = [] /\
  deeplink_calls
    (snd (snd ((DeepLinkHandler.onDeepLink 8%nat ;;;
                DeepLinkHandler.handleUrl_then r) (snd call))))
  = [(7%nat, url, Some (link_data "from-server"));
     (8%nat, url, Some (link_data "from-server"))] /\
  deeplink_calls
    (snd (snd ((DeepLinkHandler.clearCallbacks ;;;
                DeepLinkHandler.handleUrl_then r) (snd call))))
  = [].
Proof. intros url h call r. repeat split. Qed.

Lemma parsed_url_is_never_delivered_as_null_witness :
  let h : DeepLinkHandler.t unit (option DeepLinkData) :=
    fst (snd (DeepLinkHandler.onDeepLink 7%nat
                (DeepLinkHandler.new "https://go.example.com"
                   (constant_network (inr (Some (link_data "from-server"))))
                   mock_fingerprint,
                 world_of empty_storage tt))) in
  deeplink_calls
    (snd (snd (DeepLinkHandler.handleUrl id
                 (UrlParser.parseDeepLinkUrl decode_escapes)
                 (UrlParser.pathname_of decode_escapes) buildQueryString
                 "https://go.example.com/abc123" (h, world_of empty_storage tt))))
  = [] ++ [(7%nat, "https://go.example.com/abc123",
            Some (link_data "from-server"))].
Proof.
  intros h.
  apply (parsed_url_is_never_delivered_as_null id
           (UrlParser.parseDeepLinkUrl decode_escapes)
           (UrlParser.pathname_of decode_escapes) buildQueryString
           "https://go.example.com/abc123" (link_data "abc123") h
           (world_of empty_storage tt)).
  - reflexivity.
  - reflexivity.
  - discriminate.
Defined.

(* ===================================================================== *)
(** * Properties of the URL parser *)
(* ===================================================================== *)

Section StringFacts.
Implicit Types (s t pat : string) (c d : ascii).

Lemma prefix_nil s : String.prefix "" s = true.
Proof. now destruct s. Qed.

Lemma prefix_cons c d pat s :
  String.prefix (String c pat) (String d s)
  = Ascii.eqb c d && String.prefix pat s.
Proof.
  cbn. destruct (ascii_dec c d) as [->|Hne].
  - now rewrite Ascii.eqb_refl.
  - apply Ascii.eqb_neq in Hne. now rewrite Hne.
Qed.

Lemma prefix_app pat s t :
  String.prefix pat s = true -> String.prefix pat (s +:+ t) = true.
Proof.
  revert pat. induction s as [|d s IH]; intros [|c pat]; try discriminate.
  - intros _. apply prefix_nil.
  - intros _. apply prefix_nil.
  - change (String d s +:+ t) with (String d (s +:+ t)).
    rewrite !prefix_cons. intros [-> H]%andb_prop. now rewrite IH.
Qed.

Lemma prefix_refl_app s t : String.prefix s (s +:+ t) = true.
Proof.
  induction s as [|c s IH]; [apply prefix_nil|].
  change (String c s +:+ t) with (String c (s +:+ t)).
  now rewrite prefix_cons, Ascii.eqb_refl.
Qed.

Lemma prefix_app_short pat s t :
  (String.length pat <= String.length s)%nat ->
  String.prefix pat (s +:+ t) = String.prefix pat s.
Proof.
  revert pat. induction s as [|d s IH]; intros [|c pat] Hlen.
  - now rewrite !prefix_nil.
  - cbn in Hlen. lia.
  - now rewrite !prefix_nil.
  - change (String d s +:+ t) with (String d (s +:+ t)).
    rewrite !prefix_cons. rewrite IH; [reflexivity|]. cbn in Hlen. lia.
Qed.

Lemma prefix_length pat s :
  String.prefix pat s = true -> (String.length pat <= String.length s)%nat.
Proof.
  revert pat. induction s as [|d s IH]; intros [|c pat]; cbn [String.length];
    try lia; try discriminate.
  rewrite prefix_cons. intros [_ H]%andb_prop. apply IH in H. lia.
Qed.

Lemma indexOf_bound pat s (i : nat) :
  indexOf pat s = Some i -> (i + String.length pat <= String.length s)%nat.
Proof.
  revert i. induction s as [|d s IH]; intros i; cbn [indexOf].
  - destruct pat; cbn; [intros [= <-]; lia | discriminate].
  - destruct (String.prefix pat (String d s)) eqn:Hp.
    + intros [= <-]. apply prefix_length in Hp. lia.
    + destruct (indexOf pat s) as [j|]; [|discriminate].
      intros [= <-]. specialize (IH j eq_refl). cbn [String.length]. lia.
Qed.

Lemma indexOf_app pat s t (i : nat) :
  indexOf pat s = Some i -> indexOf pat (s +:+ t) = Some i.
Proof.
  revert i. induction s as [|d s IH]; intros i.
  - cbn [indexOf]. destruct pat; [|discriminate]. intros [= <-].
    change ("" +:+ t) with t. destruct t; reflexivity.
  - change (String d s +:+ t) with (String d (s +:+ t)). cbn [indexOf].
    destruct (String.prefix pat (String d s)) eqn:Hp.
    + intros [= <-].
      change (String d (s +:+ t)) with (String d s +:+ t).
      now rewrite prefix_app.
    + destruct (indexOf pat s) as [j|] eqn:Hj; [|discriminate].
      intros [= <-]. apply indexOf_bound in Hj as Hb.
      change (String d (s +:+ t)) with (String d s +:+ t).
      rewrite prefix_app_short by (cbn [String.length]; lia).
      rewrite Hp. change (String d s +:+ t) with (String d (s +:+ t)).
      now rewrite (IH j eq_refl).
Qed.

Lemma indexOf_char_cons c d s :
  indexOf (String c "") (String d s)
  = if Ascii.eqb d c then Some 0%nat else option_map S (indexOf (String c "") s).
Proof.
  cbn [indexOf]. rewrite prefix_cons, prefix_nil, andb_true_r.
  now rewrite (Ascii.eqb_sym c d).
Qed.

Lemma indexOf_char_none c s :
  indexOf (String c "") s = None <-> has_char c s = false.
Proof.
  induction s as [|d s IH]; [now cbn|].
  rewrite indexOf_char_cons. cbn [has_char].
  destruct (Ascii.eqb d c); cbn; [split; discriminate|].
  rewrite <- IH. destruct (indexOf (String c "") s); cbn; split; congruence.
Qed.

Lemma has_char_app c s t :
  has_char c (s +:+ t) = has_char c s || has_char c t.
Proof.
  induction s as [|d s IH]; [reflexivity|].
  change (String d s +:+ t) with (String d (s +:+ t)). cbn [has_char].
  now rewrite IH, orb_assoc.
Qed.

Lemma indexOf_char_app c s t :
  has_char c s = false ->
  indexOf (String c "") (s +:+ String c t) = Some (String.length s).
Proof.
  induction s as [|d s IH].
  - intros _. change ("" +:+ String c t) with (String c t).
    now rewrite indexOf_char_cons, Ascii.eqb_refl.
  - cbn [has_char]. intros [Hd Hs]%orb_false_elim.
    change (String d s +:+ String c t) with (String d (s +:+ String c t)).
    rewrite indexOf_char_cons, Hd, IH by exact Hs. reflexivity.
Qed.

Lemma substring_from_app (i : nat) s t :
  (i <= String.length s)%nat ->
  substring_from i (s +:+ t) = substring_from i s +:+ t.
Proof.
  revert i. induction s as [|d s IH]; intros [|i] Hi; try reflexivity.
  - cbn in Hi. lia.
  - change (String d s +:+ t) with (String d (s +:+ t)). cbn [substring_from].
    apply IH. cbn in Hi. lia.
Qed.

Lemma substring_to_length s t : substring_to (String.length s) (s +:+ t) = s.
Proof.
  induction s as [|d s IH]; [now destruct t|].
  change (String d s +:+ t) with (String d (s +:+ t)).
  cbn [String.length substring_to]. now rewrite IH.
Qed.

Lemma substring_from_length s t : substring_from (String.length s) (s +:+ t) = t.
Proof.
  induction s as [|d s IH]; [reflexivity|].
  change (String d s +:+ t) with (String d (s +:+ t)).
  cbn [String.length substring_from]. exact IH.
Qed.

Lemma substring_from_index c s (i : nat) :
  indexOf (String c "") s = Some i ->
  exists t, substring_from i s = String c t.
Proof.
  revert i. induction s as [|d s IH]; intros i; [discriminate|].
  rewrite indexOf_char_cons. destruct (Ascii.eqb d c) eqn:E.
  - apply Ascii.eqb_eq in E. subst d. intros [= <-]. now exists s.
  - destruct (indexOf (String c "") s) as [j|]; [|discriminate].
    intros [= <-]. cbn [substring_from]. now apply IH.
Qed.

Lemma has_char_substring_to c s (i : nat) :
  has_char c s = false -> has_char c (substring_to i s) = false.
Proof.
  revert i. induction s as [|d s IH]; intros [|i]; try reflexivity.
  cbn [has_char substring_to]. intros [-> H]%orb_false_elim. cbn. now apply IH.
Qed.

Lemma has_char_before_index c s (i : nat) :
  indexOf (String c "") s = Some i -> has_char c (substring_to i s) = false.
Proof.
  revert i. induction s as [|d s IH]; intros i; [discriminate|].
  rewrite indexOf_char_cons. destruct (Ascii.eqb d c) eqn:E.
  - now intros [= <-].
  - destruct (indexOf (String c "") s) as [j|]; [|discriminate].
    intros [= <-]. cbn [substring_to has_char]. rewrite E. cbn. now apply IH.
Qed.

Lemma substring_to_keeps_head c d s (i : nat) :
  Ascii.eqb d c = false ->
  indexOf (String c "") (String d s) = Some i ->
  exists t, substring_to i (String d s) = String d t.
Proof.
  intros E. rewrite indexOf_char_cons, E.
  destruct (indexOf (String c "") s) as [j|]; [|discriminate].
  intros [= <-]. cbn [substring_to]. eauto.
Qed.

End StringFacts.

Section ParserFacts.
Variable decodeURIComponent : string -> option string.
Local Abbreviation parseUrlString := (UrlParser.parseUrlString decodeURIComponent).
Local Abbreviation parseDeepLinkUrl := (UrlParser.parseDeepLinkUrl decodeURIComponent).

(** X18. The pathname parseUrlString returns is a path: it starts with
    a slash and holds neither the query nor the fragment of the URL (no
    question mark and no hash sign). *)
Theorem parsed_pathname_is_a_path (url : string) (p : UrlParser.ParsedUrl) :
  parseUrlString url = Some p ->
  String.prefix "/" (UrlParser.pathname p) = true /\
  has_char "?" (UrlParser.pathname p) = false /\
  has_char "#" (UrlParser.pathname p) = false.
Proof.
  unfold UrlParser.parseUrlString.
  destruct (indexOf "://" url) as [protocolEnd|]; [|discriminate].
  set (afterProtocol := substring_from (protocolEnd + 3) url).
  set (pathAndQuery := match indexOf "/" afterProtocol with
                       | Some pathStart => substring_from pathStart afterProtocol
                       | None => "/"
                       end).
  assert (Hpath : exists t, pathAndQuery = String "/" t).
  { unfold pathAndQuery. destruct (indexOf "/" afterProtocol) as [i|] eqn:E.
    - now apply substring_from_index.
    - now exists "". }
  destruct Hpath as [t Ht].
  set (withoutHash := match indexOf "#" pathAndQuery with
                      | Some hashIndex => substring_to hashIndex pathAndQuery
                      | None => pathAndQuery
                      end).
  assert (Hhash : (exists t', withoutHash = String "/" t')
                  /\ has_char "#" withoutHash = false).
  { unfold withoutHash. destruct (indexOf "#" pathAndQuery) as [i|] eqn:E.
    - split; [|now apply has_char_before_index].
      rewrite Ht in *. now apply (substring_to_keeps_head "#" "/").
    - split; [eauto|]. now apply indexOf_char_none. }
  destruct Hhash as [[t' Ht'] Hnohash].
  set (pathname := match indexOf "?" withoutHash with
                   | Some queryStart => substring_to queryStart withoutHash
                   | None => withoutHash
                   end).
  assert (Hname : String.prefix "/" pathname = true
                  /\ has_char "?" pathname = false
                  /\ has_char "#" pathname = false).
  { unfold pathname. destruct (indexOf "?" withoutHash) as [i|] eqn:E.
    - split; [|split].
      + rewrite Ht' in E |- *.
        destruct (substring_to_keeps_head "?" "/" t' i eq_refl E) as [u ->].
        now rewrite prefix_cons, prefix_nil.
      + now apply has_char_before_index.
      + now apply has_char_substring_to.
    - split; [|split].
      + rewrite Ht'. now rewrite prefix_cons, prefix_nil.
      + now apply indexOf_char_none.
      + exact Hnohash. }
  destruct (if is_empty_string _ then _ else _) as [searchParams|]; [|discriminate].
  intros [= <-]. exact Hname.
Qed.

(** X19. A URL with nothing but a host after the scheme has the
    pathname "/" and no query parameters, whatever follows the host: its
    query string is not read. parseDeepLinkUrl answers null for it. *)
Theorem pathless_url_loses_its_query (url : string) (protocolEnd : nat)
    (baseUrl : option string) :
  indexOf "://" url = Some protocolEnd ->
  has_char "/" (substring_from (protocolEnd + 3) url) = false ->
  parseUrlString url
  = Some {| UrlParser.pathname := "/"; UrlParser.searchParams := [] |} /\
  parseDeepLinkUrl url baseUrl = None.
Proof.
  intros Hproto Hslash.
  assert (Hparse : parseUrlString url
                   = Some {| UrlParser.pathname := "/"; UrlParser.searchParams := [] |}).
  { unfold UrlParser.parseUrlString. rewrite Hproto.
    apply indexOf_char_none in Hslash. rewrite Hslash. reflexivity. }
  split; [exact Hparse|].
  unfold UrlParser.parseDeepLinkUrl. rewrite Hparse.
  now destruct (truthy baseUrl && _).
Qed.

Lemma split_slash_pieces (s current piece : string) :
  has_char "/" current = false ->
  piece ∈ split_slash s current -> has_char "/" piece = false.
Proof.
  revert current. induction s as [|c s IH]; intros current Hcur; cbn [split_slash].
  - intros ->%list_elem_of_singleton. exact Hcur.
  - destruct (Ascii.eqb c "/") eqn:E.
    + intros [->|Hin]%elem_of_cons; [exact Hcur|]. now apply (IH "").
    + apply IH. rewrite has_char_app, Hcur. cbn. now rewrite E.
Qed.

(** X20. The short code parseDeepLinkUrl returns is a segment of the
    path: it is not empty and holds no slash. With a non-empty base URL,
    only URLs that start with the base URL are parsed, and the result
    carries no data other than the short code and the parameters. *)
Theorem parsed_short_code_is_a_segment (url : string) (baseUrl : option string)
    (d : DeepLinkData) :
  parseDeepLinkUrl url baseUrl = Some d ->
  shortCode d <> "" /\
  has_char "/" (shortCode d) = false /\
  (truthy baseUrl = true -> String.prefix (default "" baseUrl) url = true) /\
  iosUrl d = None /\ androidUrl d = None /\ webUrl d = None /\
  deepLinkPath d = None /\ appScheme d = None /\ clickedAt d = None /\
  linkId d = None.
Proof.
  unfold UrlParser.parseDeepLinkUrl.
  destruct (truthy baseUrl && negb (String.prefix (default "" baseUrl) url)) eqn:Hbase;
    [discriminate|].
  destruct (parseUrlString url) as [parsed|]; [|discriminate].
  destruct (last (path_segments (UrlParser.pathname parsed))) as [code|] eqn:Hlast;
    [|discriminate].
  destruct (UrlParser.read_utm _ _ _) as [utm hasUtm].
  destruct (UrlParser.read_custom _ _ _) as [custom hasCustom].
  intros [= <-]. cbn.
  apply last_Some_elem_of in Hlast. unfold path_segments in Hlast.
  apply list_elem_of_filter in Hlast as [Hne Hin].
  split; [now destruct code|].
  split; [now apply (split_slash_pieces _ "" code) in Hin|].
  split; [|repeat split].
  intros Htruthy. rewrite Htruthy in Hbase.
  now destruct (String.prefix (default "" baseUrl) url).
Qed.

End ParserFacts.

Section MapFacts.
Implicit Types (k v : string) (m : list (string * string)).

Lemma map_set_keys k v m (k' : string) :
  In k' (map fst (map_set k v m)) <-> k' = k \/ In k' (map fst m).
Proof.
  induction m as [|[k0 v0] m IH]; cbn [map_set].
  - cbn. intuition congruence.
  - destruct (String.eqb k0 k) eqn:E.
    + apply String.eqb_eq in E. subst k0. cbn. intuition congruence.
    + cbn [map fst In]. rewrite IH. intuition congruence.
Qed.

Lemma map_set_NoDup k v m :
  List.NoDup (map fst m) -> List.NoDup (map fst (map_set k v m)).
Proof.
  induction m as [|[k0 v0] m IH]; cbn [map_set].
  - intros _. cbn. constructor; [intros []|constructor].
  - cbn [map fst]. intros Hnd. inversion Hnd as [|? ? Hnotin Hrest]; subst.
    destruct (String.eqb k0 k) eqn:E.
    + cbn [map fst]. now constructor.
    + cbn [map fst]. constructor; [|now apply IH].
      rewrite map_set_keys. intros [->|Hin]; [|contradiction].
      now rewrite String.eqb_refl in E.
Qed.

Lemma map_get_absent k m : ~ In k (map fst m) -> map_get k m = None.
Proof.
  induction m as [|[k0 v0] m IH]; [reflexivity|]. cbn [map fst In map_get].
  intros Hnot. destruct (String.eqb k0 k) eqn:E.
  - apply String.eqb_eq in E. tauto.
  - apply IH. tauto.
Qed.

Lemma map_set_fresh k v m :
  ~ In k (map fst m) -> map_set k v m = m ++ [(k, v)].
Proof.
  induction m as [|[k0 v0] m IH]; [reflexivity|]. cbn [map fst In map_set].
  intros Hnot. destruct (String.eqb k0 k) eqn:E.
  - apply String.eqb_eq in E. tauto.
  - cbn. f_equal. apply IH. tauto.
Qed.

Lemma fold_map_set_fresh (params m : list (string * string)) :
  List.NoDup (map fst (m ++ params)) ->
  fold_left (fun m kv => map_set (fst kv) (snd kv) m) params m = m ++ params.
Proof.
  revert m. induction params as [|[k v] params IH]; intros m Hnd.
  - cbn. now rewrite app_nil_r.
  - cbn [fold_left fst snd]. rewrite map_set_fresh.
    + rewrite IH; rewrite <- app_assoc; [reflexivity|exact Hnd].
    + rewrite map_app in Hnd. cbn in Hnd.
      apply List.NoDup_remove_2 in Hnd. intros Hin. apply Hnd.
      apply in_or_app. now left.
Qed.

End MapFacts.

Section ParameterFacts.
Variable decodeURIComponent : string -> option string.
Local Abbreviation parseUrlString := (UrlParser.parseUrlString decodeURIComponent).
Local Abbreviation parseDeepLinkUrl := (UrlParser.parseDeepLinkUrl decodeURIComponent).

Lemma read_pairs_NoDup (pairs : list string) (acc m : list (string * string)) :
  List.NoDup (map fst acc) ->
  UrlParser.read_pairs decodeURIComponent pairs acc = Some m ->
  List.NoDup (map fst m).
Proof.
  revert acc. induction pairs as [|item rest IH]; intros acc Hnd; cbn [UrlParser.read_pairs].
  - now intros [= <-].
  - destruct (indexOf "=" item) as [eqIndex|].
    + destruct (decodeURIComponent (substring_to eqIndex item)) as [k|]; [|discriminate].
      destruct (decodeURIComponent (substring_from (eqIndex + 1) item)) as [v|];
        [|discriminate].
      apply IH. now apply map_set_NoDup.
    + destruct (decodeURIComponent item) as [k|]; [|discriminate].
      apply IH. now apply map_set_NoDup.
Qed.

Lemma searchParams_NoDup (url : string) (p : UrlParser.ParsedUrl) :
  parseUrlString url = Some p -> List.NoDup (map fst (UrlParser.searchParams p)).
Proof.
  unfold UrlParser.parseUrlString.
  destruct (indexOf "://" url) as [protocolEnd|]; [|discriminate].
  destruct (is_empty_string _).
  - intros [= <-]. constructor.
  - destruct (UrlParser.read_pairs _ _ _) as [m|] eqn:E; [|discriminate].
    intros [= <-]. cbn. eapply read_pairs_NoDup; [|exact E]. constructor.
Qed.

Lemma read_utm_members (entries : list (string * string)) (utm : UTMParameters)
    (hasUtm : bool) (key : string) :
  List.NoDup (map fst entries) ->
  In key UTM_KEYS ->
  utm_member key (fst (UrlParser.read_utm entries utm hasUtm))
  = match map_get key entries with
    | Some v => Some v
    | None => utm_member key utm
    end.
Proof.
  intros Hnd Hkey. revert utm hasUtm.
  induction entries as [|[k v] rest IH]; intros utm hasUtm; [reflexivity|].
  cbn [map fst] in Hnd. inversion Hnd as [|? ? Hnotin Hrest]; subst.
  specialize (IH Hrest). cbn [UrlParser.read_utm map_get].
  destruct (String.eqb k "utm_source") eqn:E1;
    [apply String.eqb_eq in E1; subst k|
  destruct (String.eqb k "utm_medium") eqn:E2;
    [apply String.eqb_eq in E2; subst k|
  destruct (String.eqb k "utm_campaign") eqn:E3;
    [apply String.eqb_eq in E3; subst k|
  destruct (String.eqb k "utm_term") eqn:E4;
    [apply String.eqb_eq in E4; subst k|
  destruct (String.eqb k "utm_content") eqn:E5;
    [apply String.eqb_eq in E5; subst k|]]]]];
    rewrite IH;
    cbn in Hkey;
    destruct Hkey as [<-|[<-|[<-|[<-|[<-|[]]]]]];
    rewrite ?E1, ?E2, ?E3, ?E4, ?E5;
    cbn [String.eqb Ascii.eqb Bool.eqb andb];
    try (rewrite (map_get_absent _ rest Hnotin));
    try reflexivity;
    destruct (map_get _ rest); reflexivity.
Qed.

Lemma read_utm_flag (entries : list (string * string)) (utm : UTMParameters)
    (hasUtm : bool) :
  snd (UrlParser.read_utm entries utm hasUtm)
  = hasUtm || existsb (fun kv => existsb (String.eqb (fst kv)) UTM_KEYS) entries.
Proof.
  revert utm hasUtm. induction entries as [|[k v] rest IH]; intros utm hasUtm.
  - cbn. now rewrite orb_false_r.
  - cbn [UrlParser.read_utm existsb fst UTM_KEYS].
    destruct (String.eqb k "utm_source"); [rewrite IH; cbn; now rewrite orb_true_r|].
    destruct (String.eqb k "utm_medium"); [rewrite IH; cbn; now rewrite orb_true_r|].
    destruct (String.eqb k "utm_campaign"); [rewrite IH; cbn; now rewrite orb_true_r|].
    destruct (String.eqb k "utm_term"); [rewrite IH; cbn; now rewrite orb_true_r|].
    destruct (String.eqb k "utm_content"); [rewrite IH; cbn; now rewrite orb_true_r|].
    rewrite IH. reflexivity.
Qed.

Lemma utm_members_spec (url : string)
    (baseUrl : option string) (p : UrlParser.ParsedUrl) (d : DeepLinkData) :
  parseUrlString url = Some p ->
  parseDeepLinkUrl url baseUrl = Some d ->
  (forall key, In key UTM_KEYS ->
     utm_member key (default no_utm (utmParameters d))
     = map_get key (UrlParser.searchParams p)) /\
  (utmParameters d = None <->
   forall key, In key UTM_KEYS -> map_get key (UrlParser.searchParams p) = None).
Proof.
  intros Hparse. pose proof (searchParams_NoDup _ _ Hparse) as Hnd.
  unfold UrlParser.parseDeepLinkUrl. rewrite Hparse.
  destruct (truthy baseUrl && _); [discriminate|].
  destruct (last _) as [code|]; [|discriminate].
  destruct (UrlParser.read_utm _ _ _) as [utm hasUtm] eqn:Hutm.
  destruct (UrlParser.read_custom _ _ _) as [custom hasCustom].
  intros [= <-]. cbn [utmParameters].
  assert (Hmembers : forall key, In key UTM_KEYS ->
            utm_member key utm = map_get key (UrlParser.searchParams p)).
  { intros key Hkey.
    pose proof (read_utm_members (UrlParser.searchParams p)
                  {| source := None; medium := None; campaign := None;
                     term := None; content := None |} false key Hnd Hkey) as H.
    rewrite Hutm in H. cbn [fst] in H. rewrite H.
    destruct (map_get key _); [reflexivity|].
    cbn in Hkey. destruct Hkey as [<-|[<-|[<-|[<-|[<-|[]]]]]]; reflexivity. }
  pose proof (read_utm_flag (UrlParser.searchParams p)
                {| source := None; medium := None; campaign := None;
                   term := None; content := None |} false) as Hflag.
  rewrite Hutm in Hflag. cbn [snd orb] in Hflag.
  assert (Hnone : hasUtm = false <->
            forall key, In key UTM_KEYS ->
              map_get key (UrlParser.searchParams p) = None).
  { rewrite Hflag. clear. induction (UrlParser.searchParams p) as [|[k v] rest IH].
    - cbn. tauto.
    - cbn [existsb fst map_get]. rewrite orb_false_iff, IH. split.
      + intros [Hk Hrest] key Hkey.
        destruct (String.eqb k key) eqn:E; [|now apply Hrest].
        apply String.eqb_eq in E. subst key.
        assert (existsb (String.eqb k) UTM_KEYS = true); [|congruence].
        apply existsb_exists. exists k. split; [exact Hkey|apply String.eqb_refl].
      + intros H. split.
        * destruct (existsb (String.eqb k) UTM_KEYS) eqn:E; [|reflexivity].
          apply existsb_exists in E as (key & Hkey & Heq).
          apply String.eqb_eq in Heq. subst key.
          specialize (H k Hkey). now rewrite String.eqb_refl in H.
        * intros key Hkey. specialize (H key Hkey).
          destruct (String.eqb k key); [discriminate|exact H]. }
  split.
  - intros key Hkey. destruct hasUtm eqn:Hhas; cbn [default].
    + now apply Hmembers.
    + rewrite (proj1 Hnone eq_refl key Hkey).
      cbn in Hkey. destruct Hkey as [<-|[<-|[<-|[<-|[<-|[]]]]]]; reflexivity.
  - rewrite <- Hnone. destruct hasUtm; split; congruence.
Qed.

Lemma read_custom_members (entries : list (string * string))
    (custom : gmap string string) (hasCustom : bool) (key : string) :
  List.NoDup (map fst entries) ->
  fst (UrlParser.read_custom entries custom hasCustom) !! key
  = if existsb (String.eqb key) UTM_KEYS || String.eqb key "__proto__"
    then custom !! key
    else match map_get key entries with
         | Some v => Some v
         | None => custom !! key
         end.
Proof.
  intros Hnd. revert custom hasCustom.
  induction entries as [|[k v] rest IH]; intros custom hasCustom.
  - cbn. now destruct (_ || _).
  - cbn [map fst] in Hnd. inversion Hnd as [|? ? Hnotin Hrest]; subst.
    specialize (IH Hrest). cbn [UrlParser.read_custom map_get].
    destruct (String.eqb k key) eqn:Ek.
    + apply String.eqb_eq in Ek. subst k.
      destruct (existsb (String.eqb key) UTM_KEYS) eqn:Eutm; cbn [orb].
      { rewrite IH. reflexivity. }
      destruct (String.eqb key "__proto__") eqn:Eproto.
      { rewrite IH. reflexivity. }
      rewrite IH. cbn [orb].
      rewrite (map_get_absent _ rest Hnotin). apply lookup_insert_eq.
    + assert (Hne : k <> key) by (intros ->; now rewrite String.eqb_refl in Ek).
      destruct (existsb (String.eqb k) UTM_KEYS); [apply IH|].
      destruct (String.eqb k "__proto__"); [apply IH|].
      rewrite IH. rewrite lookup_insert_ne by exact Hne. reflexivity.
Qed.

Lemma custom_members_spec (url : string)
    (baseUrl : option string) (p : UrlParser.ParsedUrl) (d : DeepLinkData)
    (key : string) :
  parseUrlString url = Some p ->
  parseDeepLinkUrl url baseUrl = Some d ->
  default ∅ (customParameters d) !! key
  = if existsb (String.eqb key) UTM_KEYS || String.eqb key "__proto__" then None
    else map_get key (UrlParser.searchParams p).
Proof.
  intros Hparse. pose proof (searchParams_NoDup _ _ Hparse) as Hnd.
  unfold UrlParser.parseDeepLinkUrl. rewrite Hparse.
  destruct (truthy baseUrl && _); [discriminate|].
  destruct (last _) as [code|]; [|discriminate].
  destruct (UrlParser.read_utm _ _ _) as [utm hasUtm].
  destruct (UrlParser.read_custom _ _ _) as [custom hasCustom] eqn:Hcustom.
  intros [= <-]. cbn [customParameters].
  pose proof (read_custom_members (UrlParser.searchParams p) ∅ false key Hnd) as H.
  rewrite Hcustom in H. cbn [fst] in H. rewrite lookup_empty in H.
  assert (Hflag : hasCustom = false -> custom = ∅).
  { clear -Hcustom.
    assert (G : forall entries c0 h0,
              snd (UrlParser.read_custom entries c0 h0) = false ->
              fst (UrlParser.read_custom entries c0 h0) = c0).
    { induction entries as [|[k v] rest IH]; intros c0 h0; [reflexivity|].
      cbn [UrlParser.read_custom].
      destruct (existsb (String.eqb k) UTM_KEYS); [apply IH|].
      assert (T : forall c1, snd (UrlParser.read_custom rest c1 true) = true).
      { clear. induction rest as [|[k v] rest IH]; intros c1; [reflexivity|].
        cbn [UrlParser.read_custom].
        destruct (existsb _ _); [apply IH|]. destruct (String.eqb _ _); apply IH. }
      destruct (String.eqb k "__proto__"); intros Hf; now rewrite T in Hf. }
    intros ->. specialize (G (UrlParser.searchParams p) ∅ false).
    rewrite Hcustom in G. now apply G. }
  destruct hasCustom; simpl.
  - rewrite H. destruct (_ || _); [reflexivity|]. now destruct (map_get key _).
  - rewrite (Hflag eq_refl) in H. rewrite lookup_empty.
    destruct (_ || _); [reflexivity|]. now destruct (map_get key _).
Qed.

(** X21. parseDeepLinkUrl sorts the query parameters of the URL. Each
    UTM member of the result is the value of its parameter (source of
    utm_source, medium of utm_medium, and so on), and utmParameters is
    absent exactly when the URL has none of the five. The custom
    parameters are the other parameters, each with its value: a UTM key
    is never a custom parameter, and every other key (but [__proto__],
    whose assignment adds no member) is one exactly when the URL has
    it. *)
Theorem query_parameters_are_sorted (url : string) (baseUrl : option string)
    (p : UrlParser.ParsedUrl) (d : DeepLinkData) :
  parseUrlString url = Some p ->
  parseDeepLinkUrl url baseUrl = Some d ->
  (forall key, In key UTM_KEYS ->
     utm_member key (default no_utm (utmParameters d))
     = map_get key (UrlParser.searchParams p)) /\
  (utmParameters d = None <->
   forall key, In key UTM_KEYS -> map_get key (UrlParser.searchParams p) = None) /\
  (forall key,
     default ∅ (customParameters d) !! key
     = if existsb (String.eqb key) UTM_KEYS || String.eqb key "__proto__" then None
       else map_get key (UrlParser.searchParams p)).
Proof.
  intros Hparse Hdata.
  destruct (utm_members_spec url baseUrl p d Hparse Hdata) as [H1 H2].
  split; [exact H1|]. split; [exact H2|].
  intros key. now apply (custom_members_spec url baseUrl p d key).
Qed.

End ParameterFacts.

Section EncodingFacts.
Implicit Types (s t : string) (c : ascii).

Lemma append_nil_r s : s +:+ "" = s.
Proof.
  induction s as [|c s IH]; [reflexivity|].
  change (String c s +:+ "") with (String c (s +:+ "")). now rewrite IH.
Qed.

Lemma append_assoc s t (u : string) : (s +:+ t) +:+ u = s +:+ (t +:+ u).
Proof.
  induction s as [|c s IH]; [reflexivity|].
  change (String c ((s +:+ t) +:+ u) = String c (s +:+ (t +:+ u))).
  now rewrite IH.
Qed.

Lemma all_chars_app (p : ascii -> bool) s t :
  all_chars p (s +:+ t) = all_chars p s && all_chars p t.
Proof.
  induction s as [|c s IH]; [reflexivity|].
  change (String c s +:+ t) with (String c (s +:+ t)). cbn [all_chars].
  now rewrite IH, andb_assoc.
Qed.

Lemma all_chars_weaken (p q : ascii -> bool) s :
  (forall c, p c = true -> q c = true) ->
  all_chars p s = true -> all_chars q s = true.
Proof.
  intros Hpq. induction s as [|c s IH]; [reflexivity|]. cbn [all_chars].
  intros [Hc Hs]%andb_prop. now rewrite (Hpq c Hc), IH.
Qed.

Lemma all_chars_has_char (p : ascii -> bool) c s :
  all_chars p s = true -> p c = false -> has_char c s = false.
Proof.
  intros Hall Hc. induction s as [|d s IH]; [reflexivity|]. cbn [all_chars] in Hall.
  apply andb_prop in Hall as [Hd Hs]. cbn [has_char]. rewrite (IH Hs), orb_false_r.
  destruct (Ascii.eqb d c) eqn:E; [|reflexivity].
  apply Ascii.eqb_eq in E. congruence.
Qed.

Lemma hex_digit_unreserved (n : nat) : is_unreserved (hex_digit n) = true.
Proof. do 16 (destruct n as [|n]; [reflexivity|]). reflexivity. Qed.

Lemma percent_byte_chars (n : nat) :
  all_chars (fun c => is_unreserved c || Ascii.eqb c "%") (percent_byte n) = true.
Proof.
  unfold percent_byte. cbn [all_chars]. rewrite !hex_digit_unreserved. reflexivity.
Qed.

Lemma encodeURIComponent_chars s :
  all_chars (fun c => is_unreserved c || Ascii.eqb c "%") (encodeURIComponent s) = true.
Proof.
  induction s as [|c s IH]; [reflexivity|]. cbn [encodeURIComponent].
  rewrite all_chars_app, IH, andb_true_r. unfold encode_char.
  destruct (is_unreserved c) eqn:E.
  - cbn [all_chars]. now rewrite E.
  - destruct (nat_of_ascii c <? 128)%nat.
    + apply percent_byte_chars.
    + now rewrite all_chars_app, !percent_byte_chars.
Qed.

Lemma encodeURIComponent_has_char c s :
  is_unreserved c = false -> Ascii.eqb c "%" = false ->
  has_char c (encodeURIComponent s) = false.
Proof.
  intros H1 H2. eapply all_chars_has_char; [apply encodeURIComponent_chars|].
  cbn beta. now rewrite H1, H2.
Qed.

Lemma join_cons (sep x y : string) (rest : list string) :
  join sep (x :: y :: rest) = x +:+ sep +:+ join sep (y :: rest).
Proof. reflexivity. Qed.

Lemma query_string_chars (params : list (string * string)) :
  all_chars is_query_char (buildQueryString params) = true.
Proof.
  unfold buildQueryString.
  assert (Hpair : forall kv : string * string,
            all_chars is_query_char
              (encodeURIComponent (fst kv) +:+ "=" +:+ encodeURIComponent (snd kv))
            = true).
  { intros kv.
    assert (Henc : forall s, all_chars is_query_char (encodeURIComponent s) = true).
    { intros s. eapply all_chars_weaken; [|apply encodeURIComponent_chars].
      intros c Hc. unfold is_query_char. cbn beta in Hc. now rewrite Hc. }
    rewrite !all_chars_app, !Henc. reflexivity. }
  induction params as [|kv [|kv' rest] IH]; [reflexivity|apply Hpair|].
  cbn [map]. rewrite join_cons, all_chars_app, Hpair, all_chars_app.
  cbn [map] in IH. now rewrite IH.
Qed.

(** X22. A query string made by buildQueryString holds only letters,
    digits, the marks [- _ . ! ~ * ' ( )], the percent sign of an escape
    and the separators [=] and [&]: whatever the keys and values, there
    is no slash, question mark, hash sign or space in it. *)
Theorem query_string_is_url_safe (params : list (string * string)) (c : ascii) :
  has_char c (buildQueryString params) = true ->
  is_unreserved c = true \/ c = "%"%char \/ c = "="%char \/ c = "&"%char.
Proof.
  intros Hc. destruct (is_query_char c) eqn:E.
  - unfold is_query_char in E.
    apply orb_prop in E as [E|E]; [|right; right; right; now apply Ascii.eqb_eq].
    apply orb_prop in E as [E|E]; [|right; right; left; now apply Ascii.eqb_eq].
    apply orb_prop in E as [E|E]; [now left|right; left; now apply Ascii.eqb_eq].
  - rewrite (all_chars_has_char _ _ _ (query_string_chars params) E) in Hc.
    discriminate.
Qed.

Lemma split_on_app (sep : ascii) (piece t current : string) :
  has_char sep piece = false ->
  split_on sep (piece +:+ t) current = split_on sep t (current +:+ piece).
Proof.
  revert current. induction piece as [|c piece IH]; intros current.
  - intros _. now rewrite append_nil_r.
  - cbn [has_char]. intros [Hc Hp]%orb_false_elim.
    change (String c piece +:+ t) with (String c (piece +:+ t)).
    cbn [split_on]. rewrite Hc, IH by exact Hp.
    now rewrite append_assoc.
Qed.

Lemma split_on_join (sep : ascii) (pieces : list string) :
  pieces <> [] ->
  Forall (fun piece => has_char sep piece = false) pieces ->
  split_on sep (join (String sep "") pieces) "" = pieces.
Proof.
  intros Hne Hall. induction Hall as [|x rest Hx Hrest IH]; [congruence|].
  destruct rest as [|y rest].
  - cbn [join]. rewrite <- (append_nil_r x) at 1.
    now rewrite split_on_app by exact Hx.
  - rewrite join_cons, split_on_app by exact Hx.
    change (String sep "" +:+ join (String sep "") (y :: rest))
      with (String sep (join (String sep "") (y :: rest))).
    cbn [split_on]. rewrite Ascii.eqb_refl. cbn. f_equal. now apply IH.
Qed.

Lemma substring_from_succ_length s c t :
  substring_from (String.length s + 1) (s +:+ String c t) = t.
Proof.
  induction s as [|d s IH]; [reflexivity|].
  change (String d s +:+ String c t) with (String d (s +:+ String c t)).
  cbn [String.length Nat.add substring_from]. exact IH.
Qed.

End EncodingFacts.

Section RoundTrip.
Variable decodeURIComponent : string -> option string.
Hypothesis decode_encode :
  forall s, decodeURIComponent (encodeURIComponent s) = Some s.
Local Abbreviation parseUrlString := (UrlParser.parseUrlString decodeURIComponent).

Lemma read_pairs_encoded (params acc : list (string * string)) :
  UrlParser.read_pairs decodeURIComponent
    (map (fun kv => encodeURIComponent (fst kv) +:+ "="
                    +:+ encodeURIComponent (snd kv)) params) acc
  = Some (fold_left (fun m kv => map_set (fst kv) (snd kv) m) params acc).
Proof.
  revert acc. induction params as [|[k v] params IH]; intros acc; [reflexivity|].
  cbn [map UrlParser.read_pairs fst snd fold_left].
  change (encodeURIComponent k +:+ "=" +:+ encodeURIComponent v)
    with (encodeURIComponent k +:+ String "=" (encodeURIComponent v)).
  rewrite indexOf_char_app by (now apply encodeURIComponent_has_char).
  rewrite substring_to_length, substring_from_succ_length, !decode_encode.
  apply IH.
Qed.

Lemma buildQueryString_nonempty (kv : string * string)
    (params : list (string * string)) :
  is_empty_string (buildQueryString (kv :: params)) = false.
Proof.
  unfold buildQueryString.
  assert (H : forall a b : string, is_empty_string (a +:+ String "=" b) = false)
    by (now intros [|c a] b).
  destruct params as [|kv' rest]; cbn [map].
  - apply H.
  - rewrite join_cons.
    change (encodeURIComponent kv.1 +:+ "=" +:+ encodeURIComponent kv.2)
      with (encodeURIComponent kv.1 +:+ String "=" (encodeURIComponent kv.2)).
    rewrite append_assoc. apply H.
Qed.

(** X23. Round trip of a query string: a URL that has a path and
    neither query nor fragment, followed by a question mark and the query
    string that buildQueryString makes of parameters with distinct keys,
    is parsed into the same path and the same parameters, in the same
    order. *)
Theorem query_string_round_trip (base : string)
    (params : list (string * string)) (protocolEnd pathStart : nat) :
  indexOf "://" base = Some protocolEnd ->
  indexOf "/" (substring_from (protocolEnd + 3) base) = Some pathStart ->
  let path := substring_from pathStart (substring_from (protocolEnd + 3) base) in
  has_char "#" path = false ->
  has_char "?" path = false ->
  List.NoDup (map fst params) ->
  parseUrlString (base +:+ "?" +:+ buildQueryString params)
  = Some {| UrlParser.pathname := path; UrlParser.searchParams := params |}.
Proof.
  intros Hproto Hslash path Hhash Hquery Hnd.
  set (q := buildQueryString params).
  assert (Hq : forall c, is_query_char c = false -> has_char c q = false).
  { intros c Hc. eapply all_chars_has_char; [apply query_string_chars|exact Hc]. }
  unfold UrlParser.parseUrlString.
  rewrite (indexOf_app _ _ _ _ Hproto).
  apply indexOf_bound in Hproto as Hb1. cbn [String.length] in Hb1.
  rewrite substring_from_app by lia.
  rewrite (indexOf_app _ _ _ _ Hslash).
  apply indexOf_bound in Hslash as Hb2.
  rewrite substring_from_app by lia. fold path.
  change (path +:+ "?" +:+ q) with (path +:+ String "?" q).
  assert (Hnohash : indexOf "#" (path +:+ String "?" q) = None).
  { apply indexOf_char_none. rewrite has_char_app, Hhash. cbn [has_char orb].
    now apply Hq. }
  rewrite Hnohash, indexOf_char_app by exact Hquery.
  rewrite substring_to_length, substring_from_succ_length.
  destruct params as [|kv params].
  - reflexivity.
  - unfold q. rewrite buildQueryString_nonempty. unfold buildQueryString.
    rewrite split_on_join.
    + rewrite read_pairs_encoded.
      rewrite (fold_map_set_fresh (kv :: params) []) by exact Hnd.
      reflexivity.
    + discriminate.
    + apply List.Forall_forall. intros piece Hin. apply in_map_iff in Hin as (kv' & <- & _).
      rewrite has_char_app.
      change ("=" +:+ encodeURIComponent kv'.2)
        with (String "=" (encodeURIComponent kv'.2)).
      cbn [has_char Ascii.eqb Bool.eqb andb orb].
      now rewrite !encodeURIComponent_has_char.
Qed.

End RoundTrip.

Lemma decode_escapes_encode_char (c : ascii) (t : string) :
  decode_escapes (encode_char c +:+ t) = option_map (String c) (decode_escapes t).
Proof. destruct c as [[] [] [] [] [] [] [] []]; reflexivity. Qed.

Lemma decode_escapes_encodeURIComponent (s : string) :
  decode_escapes (encodeURIComponent s) = Some s.
Proof.
  induction s as [|c s IH]; [reflexivity|]. cbn [encodeURIComponent].
  now rewrite decode_escapes_encode_char, IH.
Qed.

Lemma query_string_round_trip_witness :
  UrlParser.parseUrlString decode_escapes
    ("https://go.example.com/api/sdk/v1/resolve/tmpl/abc123" +:+ "?"
     +:+ buildQueryString [("fp_tz", "America/New_York"); ("fp_lang", "en-US")])
  = Some {| UrlParser.pathname := "/api/sdk/v1/resolve/tmpl/abc123";
            UrlParser.searchParams :=
              [("fp_tz", "America/New_York"); ("fp_lang", "en-US")] |}.
Proof.
  apply (query_string_round_trip decode_escapes decode_escapes_encodeURIComponent
           "https://go.example.com/api/sdk/v1/resolve/tmpl/abc123"
           [("fp_tz", "America/New_York"); ("fp_lang", "en-US")] 5 14).
  - reflexivity.
  - reflexivity.
  - reflexivity.
  - reflexivity.
  - repeat constructor; cbn; intuition discriminate.
Defined.

Lemma parsed_pathname_is_a_path_witness :
  String.prefix "/" "/tmpl/abc123" = true /\
  has_char "?" "/tmpl/abc123" = false /\
  has_char "#" "/tmpl/abc123" = false.
Proof.
  apply (parsed_pathname_is_a_path decode_escapes
           "https://go.example.com/tmpl/abc123?utm_source=fb#top"
           {| UrlParser.pathname := "/tmpl/abc123";
              UrlParser.searchParams := [("utm_source", "fb")] |}).
  reflexivity.
Defined.

Lemma pathless_url_loses_its_query_witness :
  UrlParser.parseUrlString decode_escapes "myapp://product?id=42"
  = Some {| UrlParser.pathname := "/"; UrlParser.searchParams := [] |} /\
  UrlParser.parseDeepLinkUrl decode_escapes "myapp://product?id=42" None = None.
Proof.
  apply (pathless_url_loses_its_query decode_escapes "myapp://product?id=42"
           5 None); reflexivity.
Defined.

Lemma parsed_short_code_is_a_segment_witness :
  "abc123" <> "" /\
  has_char "/" "abc123" = false /\
  (truthy (Some "https://go.example.com") = true ->
   String.prefix "https://go.example.com" "https://go.example.com/tmpl/abc123" = true) /\
  @None string = None /\ @None string = None /\ @None string = None /\
  @None string = None /\ @None string = None /\ @None string = None /\
  @None string = None.
Proof.
  apply (parsed_short_code_is_a_segment decode_escapes
           "https://go.example.com/tmpl/abc123" (Some "https://go.example.com")
           (link_data "abc123")).
  reflexivity.
Defined.

Lemma query_parameters_are_sorted_witness :
  let u := {| source := Some "fb"; medium := None; campaign := Some "spring";
              term := None; content := None |} in
  let p := {| UrlParser.pathname := "/abc123";
              UrlParser.searchParams :=
                [("utm_source", "fb"); ("ref", "a b"); ("utm_campaign", "spring")] |} in
  let d := {| shortCode := "abc123"; iosUrl := None; androidUrl := None;
              webUrl := None; utmParameters := Some u;
              customParameters := Some {[ "ref" := "a b" ]};
              deepLinkPath := None; appScheme := None; clickedAt := None;
              linkId := None; deepLinkParameters := None |} in
  (forall key, In key UTM_KEYS ->
     utm_member key (default no_utm (utmParameters d))
     = map_get key (UrlParser.searchParams p)) /\
  (utmParameters d = None <->
   forall key, In key UTM_KEYS -> map_get key (UrlParser.searchParams p) = None) /\
  (forall key,
     default ∅ (customParameters d) !! key
     = if existsb (String.eqb key) UTM_KEYS || String.eqb key "__proto__" then None
       else map_get key (UrlParser.searchParams p)).
Proof.
  intros u p d.
  apply (query_parameters_are_sorted decode_escapes
           "https://go.example.com/abc123?utm_source=fb&ref=a%20b&utm_campaign=spring"
           None p d);
    reflexivity.
Defined.

Lemma query_string_is_url_safe_witness :
  is_unreserved "2" = true \/ "2"%char = "%"%char \/ "2"%char = "="%char
  \/ "2"%char = "&"%char.
Proof.
  apply (query_string_is_url_safe [("fp_tz", "America/New_York")] "2").
  reflexivity.
Defined.

(* ===================================================================== *)
(** * The deep-link dispatcher over the URL parser *)
(* ===================================================================== *)

Section DirectLinks.
Context {N J : Type}.
Variable as_DeepLinkData : J -> option DeepLinkData.
Variable decodeURIComponent : string -> option string.
Implicit Types (h : DeepLinkHandler.t N J) (w : World N).

Local Abbreviation handleUrl :=
  (DeepLinkHandler.handleUrl as_DeepLinkData
     (UrlParser.parseDeepLinkUrl decodeURIComponent)
     (UrlParser.pathname_of decodeURIComponent) buildQueryString).

(** X24. A URL that does not start with the base URL of the dispatcher
    causes no request: every direct callback is called once with the URL
    and null, and nothing else happens. *)
Theorem foreign_url_is_delivered_unresolved (url : string) h w :
  String.prefix (DeepLinkHandler.baseUrl h) url = false ->
  is_empty_string url = false ->
  handleUrl url (h, w)
  = (Returns tt,
     (h, with_deeplink_calls
           (deeplink_invocations (DeepLinkHandler.deepLinkCallbacks h) url None) w)).
Proof.
  intros Hprefix Hurl. rewrite handleUrl_spec, Hurl. cbn [orb].
  destruct (length (DeepLinkHandler.deepLinkCallbacks h) =? 0)%nat eqn:Hlen.
  { apply Nat.eqb_eq in Hlen.
    destruct (DeepLinkHandler.deepLinkCallbacks h); [|discriminate].
    cbn [deeplink_invocations map]. now rewrite with_deeplink_calls_nil. }
  unfold UrlParser.parseDeepLinkUrl. cbn [default id from_option].
  destruct (DeepLinkHandler.baseUrl h) as [|c base] eqn:Hbase.
  { now rewrite prefix_nil in Hprefix. }
  cbn [truthy]. rewrite Hprefix. reflexivity.
Qed.

(** X25. A URL that parseDeepLinkUrl accepts for the base URL of the
    dispatcher is resolved with exactly one request, sent to a resolve
    endpoint ["/api/sdk/v1/resolve/..."] with the default options (a GET
    without body), when a direct callback is registered. *)
Theorem parsed_url_is_resolved_once (url : string) (d : DeepLinkData) h w :
  UrlParser.parseDeepLinkUrl decodeURIComponent url
    (Some (DeepLinkHandler.baseUrl h)) = Some d ->
  DeepLinkHandler.deepLinkCallbacks h <> [] ->
  exists ep,
    resolve_endpoint (UrlParser.pathname_of decodeURIComponent) buildQueryString
      (DeepLinkHandler.fingerprint h) url = Some ep /\
    String.prefix "/api/sdk/v1/resolve/" ep = true /\
    requests (snd (snd (handleUrl url (h, w)))) = requests w ++ [(ep, no_options)].
Proof.
  intros Hparse Hcbs. rewrite handleUrl_spec, Hparse.
  assert (Hurl : is_empty_string url = false).
  { destruct url; [|reflexivity]. exfalso. revert Hparse.
    unfold UrlParser.parseDeepLinkUrl. now destruct (truthy _ && _). }
  rewrite Hurl. cbn [orb].
  destruct (DeepLinkHandler.deepLinkCallbacks h) as [|cb cbs] eqn:E; [congruence|].
  cbn [length Nat.eqb].
  assert (Hprefix : String.prefix (DeepLinkHandler.baseUrl h) url = true).
  { revert Hparse. unfold UrlParser.parseDeepLinkUrl. cbn [default id from_option].
    destruct (DeepLinkHandler.baseUrl h) as [|c base]; [now rewrite prefix_nil|].
    cbn [truthy andb]. now destruct (String.prefix (String c base) url). }
  rewrite Hprefix.
  assert (Hep : exists ep,
            resolve_endpoint (UrlParser.pathname_of decodeURIComponent)
              buildQueryString (DeepLinkHandler.fingerprint h) url = Some ep /\
            String.prefix "/api/sdk/v1/resolve/" ep = true).
  { revert Hparse. unfold UrlParser.parseDeepLinkUrl, resolve_endpoint,
      UrlParser.pathname_of.
    destruct (truthy _ && _); [discriminate|].
    destruct (UrlParser.parseUrlString decodeURIComponent url) as [p|];
      [|discriminate].
    cbn [option_map].
    destruct (path_segments (UrlParser.pathname p)) as [|seg0 more];
      [discriminate|].
    intros _. eexists. split; [reflexivity|].
    destruct (collect (DeepLinkHandler.fingerprint h) 168 None) as [e|fp];
      destruct more as [|seg1 more];
      repeat apply prefix_app; reflexivity. }
  destruct Hep as (ep & Hep & Hshape). exists ep. rewrite Hep.
  split; [reflexivity|]. split; [exact Hshape|].
  destruct (request _ _ _ _) as [[e|j] n']; reflexivity.
Qed.

End DirectLinks.

Lemma foreign_url_is_delivered_unresolved_witness :
  let h : DeepLinkHandler.t unit (option DeepLinkData) :=
    fst (snd (DeepLinkHandler.onDeepLink 7%nat
                (DeepLinkHandler.new "https://go.example.com"
                   (constant_network (inr (Some (link_data "from-server"))))
                   mock_fingerprint,
                 world_of empty_storage tt))) in
  DeepLinkHandler.handleUrl id (UrlParser.parseDeepLinkUrl decode_escapes)
    (UrlParser.pathname_of decode_escapes) buildQueryString
    "https://other.example.org/abc123" (h, world_of empty_storage tt)
  = (Returns tt,
     (h, with_deeplink_calls
           (deeplink_invocations [7%nat] "https://other.example.org/abc123" None)
           (world_of empty_storage tt))).
Proof.
  intros h.
  apply (foreign_url_is_delivered_unresolved id decode_escapes
           "https://other.example.org/abc123" h (world_of empty_storage tt));
    reflexivity.
Defined.

Lemma parsed_url_is_resolved_once_witness :
  let h : DeepLinkHandler.t unit (option DeepLinkData) :=
    fst (snd (DeepLinkHandler.onDeepLink 7%nat
                (DeepLinkHandler.new "https://go.example.com"
                   (constant_network (inr (Some (link_data "from-server"))))
                   mock_fingerprint,
                 world_of empty_storage tt))) in
  exists ep,
    resolve_endpoint (UrlParser.pathname_of decode_escapes) buildQueryString
      mock_fingerprint "https://go.example.com/tmpl/abc123?utm_source=fb" = Some ep /\
    String.prefix "/api/sdk/v1/resolve/" ep = true /\
    requests
      (snd (snd (DeepLinkHandler.handleUrl id
                   (UrlParser.parseDeepLinkUrl decode_escapes)
                   (UrlParser.pathname_of decode_escapes) buildQueryString
                   "https://go.example.com/tmpl/abc123?utm_source=fb"
                   (h, world_of empty_storage tt))))
    = [] ++ [(ep, no_options)].
Proof.
  intros h.
  apply (parsed_url_is_resolved_once id decode_escapes
           "https://go.example.com/tmpl/abc123?utm_source=fb"
           {| shortCode := "abc123"; iosUrl := None; androidUrl := None;
              webUrl := None;
              utmParameters := Some {| source := Some "fb"; medium := None;
                                       campaign := None; term := None;
                                       content := None |};
              customParameters := None; deepLinkPath := None; appScheme := None;
              clickedAt := None; linkId := None; deepLinkParameters := None |}
           h (world_of empty_storage tt)).
  - reflexivity.
  - discriminate.
Defined.

(* ===================================================================== *)
(** * Further properties of the facade *)
(* ===================================================================== *)

Section FacadeMore.
Context {J : Type}.
Variable member : string -> J -> option string.
Variable as_InstallAttributionResponse : J -> option InstallAttributionResponse.
Variable as_DeepLinkData : J -> option DeepLinkData.
Variable parseDeepLinkUrl : string -> option string -> option DeepLinkData.
Variable parseUrlString_pathname : string -> option string.
Variable buildQueryString : list (string * string) -> string.
Variable parse_URL : string -> option (string * string).
Variable device : FingerprintCollector.Device.
Local Abbreviation SDKState := (LinkFortySDK.St J).
Local Abbreviation initialize :=
  (LinkFortySDK.initialize member as_InstallAttributionResponse parse_URL device).
Implicit Types (s : SDKState) (w : World (NetworkManager.Net J)).


Lemma initialize_returned (cfg : LinkFortyConfig) w
    (r : InstallAttributionResponse) s1 :
  initialize cfg (LinkFortySDK.new, w) = (Returns r, s1) ->
  exists w',
    AttributionManager.reportInstall as_InstallAttributionResponse
      {| AttributionManager.network :=
           NetworkManager.protocol member
             (NetworkManager.new (cfg_baseUrl cfg) (cfg_apiKey cfg));
         AttributionManager.fingerprint := FingerprintCollector.protocol device |}
      (default 168 (cfg_attributionWindowHours cfg)) None w = (Returns r, w') /\
    s1 = (initialized member device cfg (loaded_view EventQueue.new (disk w))
            (deferred_data r), w').
Proof.
  rewrite initialize_run.
  destruct (fst (validateConfig parse_URL cfg tt)) as [[]|e|];
    [|discriminate|discriminate].
  cbn zeta.
  destruct (AttributionManager.reportInstall _ _ _ _ w) as [[r'|e|] w'];
    [|discriminate|discriminate].
  intros [= <- <-]. eauto.
Qed.


(** X27. The deferred delivery of initialize reaches no callback, since
    none can be registered before; a deferred callback registered after
    initialize has returned is called at once, with the link data of the
    result when the install is attributed with link data and with null
    otherwise. *)
Theorem deferred_callback_after_initialize (cfg : LinkFortyConfig) w
    (r : InstallAttributionResponse) s1 (callback : Callback) :
  initialize cfg (LinkFortySDK.new, w) = (Returns r, s1) ->
  deferred_calls (snd s1) = deferred_calls w /\
  exists s2,
    LinkFortySDK.onDeferredDeepLink callback s1 = (Returns tt, s2) /\
    deferred_calls (snd s2) = deferred_calls w ++ [(callback, deferred_data r)].
Proof.
  intros Hinit. apply initialize_returned in Hinit as (w' & Hr & ->).
  pose proof (reportInstall_frame as_InstallAttributionResponse
                {| AttributionManager.network :=
                     NetworkManager.protocol member
                       (NetworkManager.new (cfg_baseUrl cfg) (cfg_apiKey cfg));
                   AttributionManager.fingerprint :=
                     FingerprintCollector.protocol device |}
                (default 168 (cfg_attributionWindowHours cfg)) None w) as Hframe.
  rewrite Hr in Hframe. cbn [snd] in Hframe. destruct Hframe as (Hdef & _ & _).
  split; [exact Hdef|].
  eexists. split; [reflexivity|]. cbn. now rewrite Hdef.
Qed.

(** X28. On a facade initialized without an API key (absent or empty),
    createLink throws MISSING_API_KEY and makes no request. *)
Theorem createLink_requires_api_key (cfg : LinkFortyConfig) w
    (r : InstallAttributionResponse) s1 (options : CreateLinkOptions) :
  initialize cfg (LinkFortySDK.new, w) = (Returns r, s1) ->
  truthy (cfg_apiKey cfg) = false ->
  LinkFortySDK.createLink member options s1 = (Throws missingApiKey, s1) /\
  code missingApiKey = Some MISSING_API_KEY.
Proof.
  intros Hinit Hkey. apply initialize_returned in Hinit as (w' & _ & ->).
  split; [|reflexivity].
  unfold LinkFortySDK.createLink. unfold bind at 1.
  unfold LinkFortySDK.requireInitialized, bind at 1, gets at 1.
  cbn [fst snd initialized LinkFortySDK._isInitialized negb].
  unfold ret at 1. unfold bind at 1, gets at 1.
  cbn [fst snd initialized LinkFortySDK.config LinkFortySDK.networkManager].
  now rewrite Hkey.
Qed.

(** X29. On a facade initialized with a non-empty API key, createLink
    makes one to three fetches and nothing else but the waits between
    them; each of them is a POST to the base URL (without trailing
    slashes) followed by [/api/links] when a template id is given and by
    [/api/sdk/v1/links] otherwise, and carries the API key as a bearer
    token and the JSON content type. *)
Theorem createLink_authenticates (cfg : LinkFortyConfig) w
    (r : InstallAttributionResponse) s1 (options : CreateLinkOptions)
    (key : string) :
  initialize cfg (LinkFortySDK.new, w) = (Returns r, s1) ->
  cfg_apiKey cfg = Some key ->
  key <> "" ->
  let endpoint :=
    if truthy (templateId options) then "/api/links" else "/api/sdk/v1/links" in
  exists init,
    method init = Some "POST" /\
    headers init !! "Authorization" = Some ("Bearer " +:+ key) /\
    headers init !! "Content-Type" = Some "application/json" /\
    let fetched :=
      NetworkManager.Fetched
        (NetworkManager.strip_trailing_slashes (cfg_baseUrl cfg) +:+ endpoint)
        init in
    let before := NetworkManager.trace (net (snd s1)) in
    let after :=
      NetworkManager.trace
        (net (snd (snd (LinkFortySDK.createLink member options s1)))) in
    after = before ++ [fetched] \/
    after = before ++ [fetched; NetworkManager.Slept 1000; fetched] \/
    after = before ++ [fetched; NetworkManager.Slept 1000; fetched;
                       NetworkManager.Slept 2000; fetched].
Proof.
  intros Hinit Hkey Hne endpoint.
  apply initialize_returned in Hinit as (w' & _ & ->).
  destruct key as [|c key]; [congruence|].
  set (nm := NetworkManager.new (cfg_baseUrl cfg) (Some (String c key))).
  set (body0 :=
         {| templateId := keep_truthy (templateId options);
            templateSlug := None;
            opt_deepLinkParameters := opt_deepLinkParameters options;
            title := keep_truthy (title options);
            description := keep_truthy (description options);
            customCode := keep_truthy (customCode options);
            opt_utmParameters := opt_utmParameters options |}).
  set (init0 := {| method := Some "POST"; body := Some (JsonOfLinkBody body0);
                   headers := ∅ |}).
  exists (fetch_init nm init0).
  split; [reflexivity|]. split.
  { unfold fetch_init, nm, init0. cbn [NetworkManager.new NetworkManager.apiKey headers].
    apply lookup_insert_eq. }
  split.
  { unfold fetch_init, nm, init0. cbn [NetworkManager.new NetworkManager.apiKey headers].
    rewrite lookup_insert_ne by discriminate.
    rewrite lookup_union, lookup_empty, lookup_singleton_eq. reflexivity. }
  cbn zeta.
  assert (Hnet : net (snd (snd (LinkFortySDK.createLink member options
                                  (initialized member device cfg
                                     (loaded_view EventQueue.new (disk w))
                                     (deferred_data r), w'))))
                 = snd (NetworkManager.request member nm endpoint init0 (net w'))).
  { unfold LinkFortySDK.createLink. unfold bind at 1.
    unfold LinkFortySDK.requireInitialized, bind at 1, gets at 1.
    cbn [fst snd initialized LinkFortySDK._isInitialized negb].
    unfold ret at 1. unfold bind at 1, gets at 1.
    cbn [fst snd initialized LinkFortySDK.config LinkFortySDK.networkManager].
    rewrite Hkey. cbn [truthy negb].
    unfold bind at 1, LinkFortySDK.in_world, zoom. cbn [fst snd].
    fold nm body0 init0 endpoint.
    replace (if negb (truthy (templateId options))
             then "/api/sdk/v1/links" else "/api/links") with endpoint
      by (unfold endpoint; now destruct (truthy (templateId options))).
    destruct (NetworkManager.request member nm endpoint init0 (net w'))
      as [[j|e|] n']; cbn [fst snd]; [|reflexivity|reflexivity].
    destruct (negb (truthy (templateId options))); [|reflexivity].
    destruct (member "url" j) as [[|c0 u]|]; reflexivity. }
  rewrite Hnet. cbn [snd].
  destruct (request_trace_shape member nm endpoint init0 (net w'))
    as [[H _]|[[H _]|[H _]]]; rewrite H; auto.
Qed.


End FacadeMore.

Lemma deferred_callback_after_initialize_witness :
  let cfg := {| cfg_baseUrl := "https://go.example.com/"; cfg_apiKey := None;
                debug := None; cfg_attributionWindowHours := None |} in
  let w := world_of empty_storage
             (network_of [responds 200 (NetworkManager.JsonResolves
                                          [("installId", "install-1")])]) in
  let s1 := snd (LinkFortySDK.initialize doc_member install_answer
                   simple_URL example_device cfg (LinkFortySDK.new, w)) in
  deferred_calls (snd s1) = deferred_calls w /\
  exists s2,
    LinkFortySDK.onDeferredDeepLink 1%nat s1 = (Returns tt, s2) /\
    deferred_calls (snd s2)
    = deferred_calls w
      ++ [(1%nat, deferred_data (unattributed_install [("installId", "install-1")]))].
Proof.
  intros cfg w s1.
  apply (deferred_callback_after_initialize doc_member install_answer
           simple_URL example_device cfg w
           (unattributed_install [("installId", "install-1")]) s1 1%nat).
  reflexivity.
Defined.

Lemma createLink_requires_api_key_witness :
  let cfg := {| cfg_baseUrl := "https://go.example.com/"; cfg_apiKey := Some "";
                debug := None; cfg_attributionWindowHours := Some 24 |} in
  let w := world_of empty_storage (network_of []) in
  let s1 := snd (LinkFortySDK.initialize doc_member install_answer
                   simple_URL example_device cfg (LinkFortySDK.new, w)) in
  let options := {| templateId := None; templateSlug := None;
                    opt_deepLinkParameters := None; title := Some "Spring";
                    description := None; customCode := None;
                    opt_utmParameters := None |} in
  LinkFortySDK.createLink doc_member options s1 = (Throws missingApiKey, s1) /\
  code missingApiKey = Some MISSING_API_KEY.
Proof.
  intros cfg w s1 options.
  apply (createLink_requires_api_key doc_member install_answer
           simple_URL example_device cfg w organic_response s1 options);
    reflexivity.
Defined.

Lemma createLink_authenticates_witness :
  let cfg := {| cfg_baseUrl := "https://go.example.com/";
                cfg_apiKey := Some "test-api-key";
                debug := None; cfg_attributionWindowHours := None |} in
  let w := world_of installed_storage
             (network_of [responds 200 (NetworkManager.JsonResolves
                                          [("url", "https://go.example.com/abc123")])]) in
  let s1 := snd (LinkFortySDK.initialize doc_member install_answer
                   simple_URL example_device cfg (LinkFortySDK.new, w)) in
  let options := {| templateId := None; templateSlug := None;
                    opt_deepLinkParameters := None; title := Some "Spring";
                    description := None; customCode := None;
                    opt_utmParameters := None |} in
  exists init,
    method init = Some "POST" /\
    headers init !! "Authorization" = Some ("Bearer " +:+ "test-api-key") /\
    headers init !! "Content-Type" = Some "application/json" /\
    let fetched :=
      NetworkManager.Fetched
        (NetworkManager.strip_trailing_slashes "https://go.example.com/"
         +:+ "/api/sdk/v1/links") init in
    let before := NetworkManager.trace (net (snd s1)) in
    let after :=
      NetworkManager.trace
        (net (snd (snd (LinkFortySDK.createLink doc_member options s1)))) in
    after = before ++ [fetched] \/
    after = before ++ [fetched; NetworkManager.Slept 1000; fetched] \/
    after = before ++ [fetched; NetworkManager.Slept 1000; fetched;
                       NetworkManager.Slept 2000; fetched].
Proof.
  intros cfg w s1 options.
  apply (createLink_authenticates doc_member install_answer
           simple_URL example_device cfg w (cached_response installed_storage)
           s1 options "test-api-key").
  - reflexivity.
  - reflexivity.
  - discriminate.
Defined.

